(** * ChatGPTService: the resilient upstream API client

    A shallow embedding of [app/services/chatgpt.py] (class
    [ChatGPTService]) and the properties of its retry / challenge-recovery
    state machine, its clearance-cookie cache, its session teardown and its
    member pagination.

    Modelling conventions

    - A Python [str] is the [string] of its UTF-8 bytes; the text helpers
      ([len], slices, [lower], [lstrip], [strip]) work on its characters.
    - Dynamically typed values (decoded JSON, envelope fields) are [pyval];
      JSON numbers are integers.
    - [time.time()] is a rational number of seconds.
    - The service talks to four collaborators that are not part of the
      class: the upstream HTTP server, the FlareSolverr service, the
      settings store and the [curl_cffi] session object.  They are gathered
      in a [World]: each is an oracle that receives the number of earlier
      calls of its kind (and the request, for HTTP) and says what the call
      gives back or which exception it raises.
    - A coroutine is a function [World -> St -> outcome A * St * list Event]:
      it ends by returning or by raising, it leaves a new state, and it
      emits the trace of the external actions it performed.  Exceptions
      are the subclasses of [Exception]; [asyncio.TimeoutError] is kept
      apart because [_make_request] has a handler of its own for it. *)

From Stdlib Require Import ZArith QArith String Ascii List Lia.
From stdpp Require Import base gmap strings list pretty.

Local Set Warnings "-register-all".
Local Open Scope Z_scope.

(** ** Python values *)

Module Py.

Inductive pyval :=
| PNone
| PBool (b : bool)
| PInt (z : Z)
| PStr (s : string)
| PList (l : list pyval)
| PDict (d : list (string * pyval)).

(** [bool(v)] *)
Definition truthy (v : pyval) : bool :=
  match v with
  | PNone => false
  | PBool b => b
  | PInt z => negb (z =? 0)
  | PStr s => negb (String.eqb s "")
  | PList l => match l with [] => false | _ => true end
  | PDict d => match d with [] => false | _ => true end
  end.

(** [a or b] *)
Definition py_or (a b : pyval) : pyval := if truthy a then a else b.

(** Lookup in a decoded JSON object (keys are distinct after decoding). *)
Fixpoint assoc (k : string) (d : list (string * pyval)) : option pyval :=
  match d with
  | [] => None
  | (k', v) :: d' => if String.eqb k k' then Some v else assoc k d'
  end.

(** [d.get(k, default)] on a dict *)
Definition dict_get (d : list (string * pyval)) (k : string) (default : pyval) : pyval :=
  match assoc k d with Some v => v | None => default end.

Definition of_opt_str (o : option string) : pyval :=
  match o with Some s => PStr s | None => PNone end.

Inductive exn :=
| TimeoutError
| Exception (msg : string).

(** [str(e)] *)
Definition str_exn (e : exn) : string :=
  match e with
  | TimeoutError => ""
  | Exception msg => msg
  end.

Inductive outcome (A : Type) :=
| Returns (a : A)
| Raises (e : exn).
Arguments Returns {A} a.
Arguments Raises {A} e.

Definition AttributeError (ty attr : string) : exn :=
  Exception ("'" +:+ ty +:+ "' object has no attribute '" +:+ attr +:+ "'").

Definition type_name (v : pyval) : string :=
  match v with
  | PNone => "NoneType"
  | PBool _ => "bool"
  | PInt _ => "int"
  | PStr _ => "str"
  | PList _ => "list"
  | PDict _ => "dict"
  end.

(** *** Text helpers

    A [str] is held as the bytes of its UTF-8 encoding.  A character is a
    byte that is no continuation byte (10xxxxxx) together with the
    continuation bytes behind it: [len], slices, [strip] and [lower] go
    character by character, while the search for a text in a text may go
    byte by byte, since an encoded text can only be found where a
    character starts. *)

Definition is_continuation (c : ascii) : bool :=
  let n := nat_of_ascii c in
  ((128 <=? n) && (n <? 192))%nat.

Definition starts_with_continuation (s : string) : bool :=
  match s with
  | String c _ => is_continuation c
  | EmptyString => false
  end.

(** [list(s)]: the characters of a text. *)
Fixpoint chars (s : string) : list string :=
  match s with
  | EmptyString => []
  | String c s' =>
      match chars s' with
      | ch :: rest =>
          if starts_with_continuation s' then String c ch :: rest
          else String c EmptyString :: ch :: rest
      | [] => [String c EmptyString]
      end
  end.

(** ["".join(l)] *)
Definition join (l : list string) : string := fold_right String.append EmptyString l.

(** [len(s)] *)
Definition len (s : string) : nat := length (chars s).

(** [s[:n]] *)
Definition take_str (n : nat) (s : string) : string := join (take n (chars s)).

(** The text with the given bytes. *)
Definition bytes (l : list nat) : string :=
  string_of_list_ascii (map ascii_of_nat l).

Definition lower_ascii (c : ascii) : ascii :=
  let n := nat_of_ascii c in
  if ((65 <=? n) && (n <=? 90))%nat then ascii_of_nat (n + 32) else c.

(** [ch.lower()] of one character, as far as a search for ASCII text and
    a count of characters can tell.  The lower case of a character is
    ASCII for [A]..[Z] and for the Kelvin sign U+212A (which gives [k]); it
    is more than one character for U+0130 only (which gives [i] and the
    combining dot U+0307).  The lower case of any other character is one
    character outside ASCII, and the character is kept as it is: the
    service looks for ASCII markers in a lowered text and slices it, and
    never hands it on. *)
Definition lower_char (ch : string) : string :=
  if String.eqb ch (bytes [196; 176]%nat) then "i" +:+ bytes [204; 135]%nat
  else if String.eqb ch (bytes [226; 132; 170]%nat) then "k"
  else match ch with
       | String c EmptyString => String (lower_ascii c) EmptyString
       | _ => ch
       end.

Definition lower (s : string) : string := join (map lower_char (chars s)).

(** The characters that [str.isspace] accepts, which are those that
    [strip] removes: TAB..CR, FS..US, the blank, U+0085, U+00A0, U+1680,
    U+2000..U+200A, U+2028, U+2029, U+202F, U+205F and U+3000. *)
Definition whitespace : list string :=
  map bytes
    [[9]; [10]; [11]; [12]; [13]; [28]; [29]; [30]; [31]; [32];
     [194; 133]; [194; 160]; [225; 154; 128];
     [226; 128; 128]; [226; 128; 129]; [226; 128; 130]; [226; 128; 131];
     [226; 128; 132]; [226; 128; 133]; [226; 128; 134]; [226; 128; 135];
     [226; 128; 136]; [226; 128; 137]; [226; 128; 138];
     [226; 128; 168]; [226; 128; 169]; [226; 128; 175];
     [226; 129; 159]; [227; 128; 128]]%nat.

Definition is_space (ch : string) : bool := existsb (String.eqb ch) whitespace.

Fixpoint lstrip_chars (l : list string) : list string :=
  match l with
  | ch :: l' => if is_space ch then lstrip_chars l' else l
  | [] => []
  end.

(** [rstrip] is [lstrip] seen from the other end. *)
Fixpoint rstrip_chars (l : list string) : list string :=
  match l with
  | [] => []
  | ch :: l' =>
      match rstrip_chars l' with
      | [] => if is_space ch then [] else [ch]
      | r => ch :: r
      end
  end.

Definition lstrip (s : string) : string := join (lstrip_chars (chars s)).

Definition strip (s : string) : string :=
  join (rstrip_chars (lstrip_chars (chars s))).

(** [s.rstrip(c)] for the ASCII characters that [p] accepts. *)
Fixpoint rstrip_with (p : ascii -> bool) (s : string) : string :=
  match s with
  | EmptyString => EmptyString
  | String c s' =>
      match rstrip_with p s' with
      | EmptyString => if p c then EmptyString else String c EmptyString
      | r => String c r
      end
  end.

Definition startswith (s p : string) : bool := String.prefix p s.

(** [needle in hay] *)
Fixpoint contains (needle hay : string) : bool :=
  String.prefix needle hay ||
  match hay with
  | EmptyString => false
  | String _ hay' => contains needle hay'
  end.

End Py.
Import Py.

(** ** The collaborators *)

Inductive DBAsyncSession := DbHandle (id : nat).

Record Request := {
  req_method : string;
  req_url : string;
  req_headers : gmap string string;
  req_json : option pyval }.

(** What [_make_request] reads of a [curl_cffi] response.  [resp_json] is
    the result of [response.json()], [resp_text] of [response.text],
    [resp_content_type] of [response.headers.get("content-type")]. *)
Record Response := {
  resp_status : Z;
  resp_content_type : outcome (option string);
  resp_json : outcome pyval;
  resp_text : outcome string }.

(** [settings_service.get_flaresolverr_config]: a dict with the keys
    ["enabled"] and ["url"]. *)
Record FlareConfig := {
  cfg_enabled : bool;
  cfg_url : option string }.

(** The decoded body of a FlareSolverr answer, as far as
    [_fetch_cf_cookies] reads it: [status], [solution.cookies] (name and
    value of each), [solution.userAgent]. *)
Record SolverData := {
  sol_status : string;
  sol_cookies : list (string * string);
  sol_userAgent : string }.

Record SolverReply := {
  sr_status : Z;
  sr_json : outcome SolverData }.

Record World := {
  (** the k-th request sent through a session *)
  upstream : nat -> Request -> outcome Response;
  (** the k-th read of the FlareSolverr settings, a database query: the
      settings route guards the same read with [try]/[except] *)
  get_flaresolverr_config : nat -> option DBAsyncSession -> outcome FlareConfig;
  (** the k-th POST to FlareSolverr, with its URL; [Raises] stands for
      every exception inside the [try] of [_fetch_cf_cookies] *)
  flaresolverr : nat -> string -> outcome SolverReply;
  (** the k-th [AsyncSession(impersonate="chrome", timeout=30)] *)
  new_AsyncSession : nat -> outcome unit;
  (** the k-th [session.close()] *)
  close_AsyncSession : nat -> outcome unit;
  (** the k-th [time.time()] *)
  time_time : nat -> Q }.

(** ** The service object *)

Record AsyncSession := {
  sess_id : nat;
  sess_cookies : gmap string string }.

Record St := {
  session : option AsyncSession;
  _cf_cookies : option (gmap string string);
  _cf_user_agent : option string;
  _cf_cookies_time : Q;
  (** how often each collaborator has been called so far *)
  n_upstream : nat;
  n_config : nat;
  n_solver : nat;
  n_new : nat;
  n_close : nat;
  n_time : nat }.

(** [ChatGPTService.__init__] *)
Definition __init__ : St :=
  {| session := None; _cf_cookies := None; _cf_user_agent := None;
     _cf_cookies_time := 0%Q;
     n_upstream := 0; n_config := 0; n_solver := 0; n_new := 0;
     n_close := 0; n_time := 0 |}.

Definition set_session (o : option AsyncSession) (s : St) : St :=
  {| session := o; _cf_cookies := _cf_cookies s;
     _cf_user_agent := _cf_user_agent s;
     _cf_cookies_time := _cf_cookies_time s;
     n_upstream := n_upstream s; n_config := n_config s;
     n_solver := n_solver s; n_new := n_new s; n_close := n_close s;
     n_time := n_time s |}.

Definition set_cf (c : option (gmap string string)) (ua : option string)
    (t : Q) (s : St) : St :=
  {| session := session s; _cf_cookies := c; _cf_user_agent := ua;
     _cf_cookies_time := t;
     n_upstream := n_upstream s; n_config := n_config s;
     n_solver := n_solver s; n_new := n_new s; n_close := n_close s;
     n_time := n_time s |}.

Definition set_counts (u c v n k t : nat) (s : St) : St :=
  {| session := session s; _cf_cookies := _cf_cookies s;
     _cf_user_agent := _cf_user_agent s;
     _cf_cookies_time := _cf_cookies_time s;
     n_upstream := u; n_config := c; n_solver := v; n_new := n;
     n_close := k; n_time := t |}.

(** ** Traces *)

Inductive Event :=
| EvHttp (r : Request)          (* session.get / post / delete *)
| EvSleep (delay : Z)           (* asyncio.sleep(delay) *)
| EvRecovery                    (* _try_cf_recovery entered *)
| EvConfig                      (* settings read *)
| EvSolver (url : string)       (* POST to FlareSolverr *)
| EvNewSession                  (* AsyncSession(...) *)
| EvClose.                      (* session.close() *)

Definition is_http (e : Event) : bool :=
  match e with EvHttp _ => true | _ => false end.
Definition is_recovery (e : Event) : bool :=
  match e with EvRecovery => true | _ => false end.
Definition is_solver (e : Event) : bool :=
  match e with EvSolver _ => true | _ => false end.

Fixpoint count (p : Event -> bool) (tr : list Event) : nat :=
  match tr with
  | [] => 0
  | e :: tr' => (if p e then 1 else 0) + count p tr'
  end.

Definition sleeps (tr : list Event) : list Z :=
  omap (fun e => match e with EvSleep d => Some d | _ => None end) tr.

Definition urls (tr : list Event) : list string :=
  omap (fun e => match e with EvHttp r => Some (req_url r) | _ => None end) tr.

(** ** Coroutines *)

Definition M (A : Type) : Type := World -> St -> outcome A * St * list Event.

Definition ret {A} (a : A) : M A := fun _ s => (Returns a, s, []).

Definition raise {A} (e : exn) : M A := fun _ s => (Raises e, s, []).

Definition bind {A B} (m : M A) (k : A -> M B) : M B :=
  fun w s =>
    match m w s with
    | (Returns a, s1, t1) =>
        match k a w s1 with (r, s2, t2) => (r, s2, t1 ++ t2) end
    | (Raises e, s1, t1) => (Raises e, s1, t1)
    end.

(** [try: m  except Exception as e: h e] *)
Definition try_except {A} (m : M A) (h : exn -> M A) : M A :=
  fun w s =>
    match m w s with
    | (Returns a, s1, t1) => (Returns a, s1, t1)
    | (Raises e, s1, t1) =>
        match h e w s1 with (r, s2, t2) => (r, s2, t1 ++ t2) end
    end.

Definition lift {A} (o : outcome A) : M A := fun _ s => (o, s, []).

Definition get : M St := fun _ s => (Returns s, s, []).
Definition modify (f : St -> St) : M unit := fun _ s => (Returns tt, f s, []).
Definition emit (e : Event) : M unit := fun _ s => (Returns tt, s, [e]).

Declare Scope coro_scope.
Delimit Scope coro_scope with coro.
Notation "'let*' x ':=' m 'in' k" := (bind m (fun x => k))
  (at level 10, x name, m at level 100, k at level 200) : coro_scope.
Local Open Scope coro_scope.

(** *** Calls to the collaborators *)

Definition send (req : Request) : M Response := fun w s =>
  (upstream w (n_upstream s) req,
   set_counts (S (n_upstream s)) (n_config s) (n_solver s) (n_new s)
     (n_close s) (n_time s) s,
   [EvHttp req]).

Definition read_config (db : option DBAsyncSession) : M FlareConfig := fun w s =>
  (get_flaresolverr_config w (n_config s) db,
   set_counts (n_upstream s) (S (n_config s)) (n_solver s) (n_new s)
     (n_close s) (n_time s) s,
   [EvConfig]).

Definition post_solver (url : string) : M SolverReply := fun w s =>
  (flaresolverr w (n_solver s) url,
   set_counts (n_upstream s) (n_config s) (S (n_solver s)) (n_new s)
     (n_close s) (n_time s) s,
   [EvSolver url]).

Definition construct_session : M nat := fun w s =>
  (match new_AsyncSession w (n_new s) with
   | Returns _ => Returns (n_new s)
   | Raises e => Raises e
   end,
   set_counts (n_upstream s) (n_config s) (n_solver s) (S (n_new s))
     (n_close s) (n_time s) s,
   [EvNewSession]).

Definition close_session : M unit := fun w s =>
  (close_AsyncSession w (n_close s),
   set_counts (n_upstream s) (n_config s) (n_solver s) (n_new s)
     (S (n_close s)) (n_time s) s,
   [EvClose]).

Definition now : M Q := fun w s =>
  (Returns (time_time w (n_time s)),
   set_counts (n_upstream s) (n_config s) (n_solver s) (n_new s)
     (n_close s) (S (n_time s)) s,
   []).

Definition sleep (delay : Z) : M unit := emit (EvSleep delay).

(** ** ChatGPTService *)

Definition BASE_URL : string := "https://chatgpt.com/backend-api".

Definition MAX_RETRIES : nat := 3.
Definition RETRY_DELAYS : list Z := [1; 2; 4].

Definition CF_COOKIE_TTL : Q := 1800%Q.

(** [_looks_like_html]: [text.lstrip()] on a value that is not a [str]
    raises [AttributeError]. *)
Definition _looks_like_html (text : pyval) : outcome bool :=
  if negb (truthy text) then Returns false
  else match text with
       | PStr s =>
           let stripped := lower (lstrip s) in
           Returns (startswith stripped "<!doctype html"
                    || startswith stripped "<html"
                    || contains "<html" (take_str 200 stripped))
       | _ => Raises (AttributeError (type_name text) "lstrip")
       end.

Definition _is_cloudflare_challenge (text : pyval) : outcome bool :=
  if negb (truthy text) then Returns false
  else match text with
       | PStr s =>
           let lowered := lower s in
           Returns (contains "cdn-cgi/challenge-platform" lowered
                    || contains "_cf_chl_opt" lowered
                    || contains "cf-chl" lowered
                    || contains "enable javascript and cookies to continue" lowered)
       | _ => Raises (AttributeError (type_name text) "lower")
       end.

(** [a and b] on two tests that may raise: [b] is evaluated only when [a]
    is true. *)
Definition and_then (a b : outcome bool) : outcome bool :=
  match a with
  | Returns true => b
  | Returns false => Returns false
  | Raises e => Raises e
  end.

Record Simplified := {
  message : string;
  code : option string }.

Definition cloudflare_message : string :=
  "请求被 Cloudflare 拦截（需要浏览器验证）。请在系统设置中配置 FlareSolverr 后重试。".
Definition html_message : string :=
  "服务返回了 HTML 页面（可能被拦截或重定向），请稍后重试。".

Definition _simplify_error_text (text : pyval) : outcome Simplified :=
  if negb (truthy text) then
    Returns {| message := "请求失败"; code := None |}
  else
    match and_then (_looks_like_html text) (_is_cloudflare_challenge text) with
    | Raises e => Raises e
    | Returns true =>
        Returns {| message := cloudflare_message;
                   code := Some "cloudflare_challenge" |}
    | Returns false =>
        match _looks_like_html text with
        | Raises e => Raises e
        | Returns true =>
            Returns {| message := html_message; code := Some "html_response" |}
        | Returns false =>
            match text with
            | PStr s =>
                let trimmed := strip s in
                let trimmed :=
                  if (2000 <? len trimmed)%nat
                  then take_str 2000 trimmed +:+ "...(已截断)"
                  else trimmed in
                Returns {| message := trimmed; code := None |}
            | _ => Raises (AttributeError (type_name text) "lstrip")
            end
        end
    end.

(** [{c["name"]: c["value"] for c in cookies_list}]: a later cookie of the
    same name replaces an earlier one. *)
Definition cookie_dict (cookies_list : list (string * string)) : gmap string string :=
  foldl (fun m c => <[c.1 := c.2]> m) ∅ cookies_list.

Definition _fetch_cf_cookies (db_session : option DBAsyncSession) : M bool :=
  let* config := read_config db_session in
  if negb (cfg_enabled config) || negb (truthy (of_opt_str (cfg_url config)))
  then ret false
  else
    let flaresolverr_url :=
      rstrip_with (Ascii.eqb "/") (default "" (cfg_url config)) +:+ "/v1" in
    try_except
      (let* response := post_solver flaresolverr_url in
       if sr_status response =? 200 then
         let* data := lift (sr_json response) in
         if String.eqb (sol_status data) "ok" then
           let user_agent := sol_userAgent data in
           let* t := now in
           let* _ := modify (set_cf (Some (cookie_dict (sol_cookies data)))
                               (if String.eqb user_agent "" then None
                                else Some user_agent)
                               t) in
           ret true
         else ret false
       else ret false)
      (fun _ => ret false).

(** [bool(self._cf_cookies)] *)
Definition cookies_truthy (c : option (gmap string string)) : bool :=
  match c with
  | Some m => bool_decide (m ≠ ∅)
  | None => false
  end.

Definition Qltb (a b : Q) : bool :=
  if Qlt_le_dec a b then true else false.

Definition _cf_cookies_valid : M bool :=
  let* s := get in
  if cookies_truthy (_cf_cookies s) then
    let* t := now in
    ret (Qltb (t - _cf_cookies_time s) CF_COOKIE_TTL)
  else ret false.

Definition _ensure_cf_cookies (db_session : option DBAsyncSession) : M unit :=
  let* valid := _cf_cookies_valid in
  if negb valid then
    let* _ := _fetch_cf_cookies db_session in ret tt
  else ret tt.

Definition _create_session (db_session : option DBAsyncSession) : M AsyncSession :=
  let* _ := _ensure_cf_cookies db_session in
  let* id := construct_session in
  let* s := get in
  ret {| sess_id := id;
         sess_cookies := if cookies_truthy (_cf_cookies s)
                         then default ∅ (_cf_cookies s) else ∅ |}.

Definition _try_cf_recovery (db_session : option DBAsyncSession) : M bool :=
  let* _ := emit EvRecovery in
  let* _ := modify (set_cf None None 0%Q) in
  let* success := _fetch_cf_cookies db_session in
  if success then
    let* s := get in
    let* _ :=
      match session s with
      | Some _ =>
          let* _ := try_except close_session (fun _ => ret tt) in
          modify (set_session None)
      | None => ret tt
      end in
    let* new := _create_session db_session in
    let* _ := modify (set_session (Some new)) in
    ret true
  else ret false.

(** *** The request executor *)

(** The dict returned by [_make_request]; a key that is missing reads as
    [None] ([result.get("error_code")]). *)
Record Envelope := {
  success : bool;
  status_code : Z;
  data : pyval;
  error : option string;
  error_code : pyval }.

(** How one pass through the body of the [for] loop ends: by [return], or
    by going on to the next [attempt] ([continue], or the end of the body)
    with the value of [cf_retried]. *)
Inductive Ctl :=
| Return (e : Envelope)
| Continue (cf_retried : bool).

Definition is_truthy_db (db_session : option DBAsyncSession) : bool :=
  match db_session with Some _ => true | None => false end.

Definition ok_envelope (status : Z) (d : pyval) : Envelope :=
  {| success := true; status_code := status; data := d; error := None;
     error_code := PNone |}.

Definition fail_envelope (status : Z) (msg : string) (c : pyval) : Envelope :=
  {| success := false; status_code := status; data := PNone;
     error := Some msg; error_code := c |}.

Definition retries_text : string := pretty (Z.of_nat MAX_RETRIES).

(** The tail shared by the plain 5xx branch and the two handlers:
    [if attempt < self.MAX_RETRIES - 1: delay = self.RETRY_DELAYS[attempt];
    await asyncio.sleep(delay); continue] and else the last [return]. *)
Definition backoff (attempt : nat) (cf_retried : bool) (last : Envelope) : M Ctl :=
  if (attempt <? MAX_RETRIES - 1)%nat then
    match RETRY_DELAYS !! attempt with
    | Some delay => let* _ := sleep delay in ret (Continue cf_retried)
    | None => raise (Exception "list index out of range")
    end
  else ret (Return last).

(** [await self.session.get/post/delete(...)] *)
Definition dispatch (method url : string) (request_headers : gmap string string)
    (json_data : option pyval) : M Response :=
  let* s := get in
  let go (attr : string) (body : option pyval) :=
    match session s with
    | Some _ =>
        send {| req_method := method; req_url := url;
                req_headers := request_headers; req_json := body |}
    | None => raise (AttributeError "NoneType" attr)
    end in
  if String.eqb method "GET" then go "get" None
  else if String.eqb method "POST" then go "post" json_data
  else if String.eqb method "DELETE" then go "delete" json_data
  else raise (Exception ("不支持的 HTTP 方法: " +:+ method)).

(** The recovery step shared by the three status branches:
    [recovery_ok = await self._try_cf_recovery(db_session);
     if recovery_ok: cf_retried = True; continue], then [otherwise]. *)
Definition recover_or (db_session : option DBAsyncSession) (otherwise : M Ctl) : M Ctl :=
  let* recovery_ok := _try_cf_recovery db_session in
  if recovery_ok then ret (Continue true) else otherwise.

Definition is_challenge (simplified : Simplified) : bool :=
  match code simplified with
  | Some c => String.eqb c "cloudflare_challenge"
  | None => false
  end.

(** [if 200 <= status_code < 300:] *)
Definition on_2xx (response : Response) (cf_retried : bool)
    (db_session : option DBAsyncSession) : M Ctl :=
  let status := resp_status response in
  let content_type :=
    match resp_content_type response with
    | Returns o => lower (default "" o)
    | Raises _ => ""
    end in
  let is_json := contains "application/json" content_type in
  let decode : M Ctl :=
    match resp_json response with
    | Returns d => ret (Return (ok_envelope status d))
    | Raises _ =>
        let* text_body := lift (resp_text response) in
        let* simplified := lift (_simplify_error_text (PStr text_body)) in
        let final :=
          ret (Return (fail_envelope status (message simplified)
                         (py_or (of_opt_str (code simplified))
                            (PStr "invalid_response")))) in
        if is_challenge simplified && negb cf_retried && is_truthy_db db_session
        then recover_or db_session final
        else final
    end in
  if is_json then decode else decode.

(** The [try] that reads the error body of a 4xx answer; it gives
    [error_msg] and [error_code]. *)
Definition read_error (response : Response) : M (pyval * pyval) :=
  try_except
    (let* error_data := lift (resp_json response) in
     match error_data with
     | PDict d =>
         let* txt := lift (resp_text response) in
         let error_msg := dict_get d "detail" (PStr txt) in
         let error_info := dict_get d "error" PNone in
         let error_code :=
           match error_info with
           | PDict i => dict_get i "code" PNone
           | _ => dict_get d "code" PNone
           end in
         ret (error_msg, error_code)
     | _ => raise (AttributeError (type_name error_data) "get")
     end)
    (fun _ => let* txt := lift (resp_text response) in ret (PStr txt, PNone)).

(** [if 400 <= status_code < 500:] *)
Definition on_4xx (response : Response) (cf_retried : bool)
    (db_session : option DBAsyncSession) : M Ctl :=
  let status := resp_status response in
  let* parsed := read_error response in
  let* simplified := lift (_simplify_error_text parsed.1) in
  let error_msg := message simplified in
  let error_code := py_or parsed.2 (of_opt_str (code simplified)) in
  let final := ret (Return (fail_envelope status error_msg error_code)) in
  if is_challenge simplified && negb cf_retried && is_truthy_db db_session
  then recover_or db_session final
  else final.

(** [if status_code >= 500:] *)
Definition on_5xx (response : Response) (attempt : nat) (cf_retried : bool)
    (db_session : option DBAsyncSession) : M Ctl :=
  let status := resp_status response in
  let body_text :=
    match resp_text response with
    | Returns t => t
    | Raises _ => ""
    end in
  let* challenge :=
    lift (and_then (_looks_like_html (PStr body_text))
            (_is_cloudflare_challenge (PStr body_text))) in
  if challenge then
    let final :=
      let* simplified := lift (_simplify_error_text (PStr body_text)) in
      ret (Return (fail_envelope status (message simplified)
                     (py_or (of_opt_str (code simplified))
                        (PStr "cloudflare_challenge")))) in
    if negb cf_retried && is_truthy_db db_session
    then recover_or db_session final
    else final
  else
    backoff attempt cf_retried
      {| success := false; status_code := status; data := PNone;
         error := Some ("服务器错误 " +:+ pretty status +:+ ",已重试 "
                        +:+ retries_text +:+ " 次");
         error_code := PNone |}.

(** What the [try] does with the response, by its status; a status that
    no branch takes (1xx, 3xx) reaches the end of the body. *)
Definition handle_response (response : Response) (attempt : nat)
    (cf_retried : bool) (db_session : option DBAsyncSession) : M Ctl :=
  let status := resp_status response in
  if (200 <=? status) && (status <? 300) then
    on_2xx response cf_retried db_session
  else if (400 <=? status) && (status <? 500) then
    on_4xx response cf_retried db_session
  else if 500 <=? status then
    on_5xx response attempt cf_retried db_session
  else ret (Continue cf_retried).

(** The body of the [try] of one attempt. *)
Definition attempt_try (method url : string) (headers : gmap string string)
    (json_data : option pyval) (db_session : option DBAsyncSession)
    (attempt : nat) (cf_retried : bool) : M Ctl :=
  let* s := get in
  let request_headers :=
    match _cf_user_agent s with
    | Some ua => if String.eqb ua "" then headers
                 else <["User-Agent" := ua]> headers
    | None => headers
    end in
  let* response := dispatch method url request_headers json_data in
  handle_response response attempt cf_retried db_session.

(** One attempt with its two handlers. *)
Definition attempt_once (method url : string) (headers : gmap string string)
    (json_data : option pyval) (db_session : option DBAsyncSession)
    (attempt : nat) (cf_retried : bool) : M Ctl :=
  try_except
    (attempt_try method url headers json_data db_session attempt cf_retried)
    (fun e =>
       match e with
       | TimeoutError =>
           backoff attempt cf_retried
             {| success := false; status_code := 0; data := PNone;
                error := Some ("请求超时,已重试 " +:+ retries_text +:+ " 次");
                error_code := PNone |}
       | Exception _ =>
           backoff attempt cf_retried
             {| success := false; status_code := 0; data := PNone;
                error := Some ("请求异常: " +:+ str_exn e);
                error_code := PNone |}
       end).

(** [for attempt in range(self.MAX_RETRIES):] and the [return] behind it. *)
Fixpoint retry_loop (method url : string) (headers : gmap string string)
    (json_data : option pyval) (db_session : option DBAsyncSession)
    (attempts : list nat) (cf_retried : bool) : M Envelope :=
  match attempts with
  | [] =>
      ret {| success := false; status_code := 0; data := PNone;
             error := Some "未知错误"; error_code := PNone |}
  | attempt :: rest =>
      let* ctl := attempt_once method url headers json_data db_session
                    attempt cf_retried in
      match ctl with
      | Return e => ret e
      | Continue cf_retried' =>
          retry_loop method url headers json_data db_session rest cf_retried'
      end
  end.

(** [if not self.session: self.session = await self._create_session(db_session)] *)
Definition open_session (db_session : option DBAsyncSession) : M unit :=
  let* s := get in
  match session s with
  | Some _ => ret tt
  | None =>
      let* new := _create_session db_session in
      modify (set_session (Some new))
  end.

Definition _make_request (method url : string) (headers : gmap string string)
    (json_data : option pyval) (db_session : option DBAsyncSession) : M Envelope :=
  let* _ := open_session db_session in
  retry_loop method url headers json_data db_session (seq 0 MAX_RETRIES) false.

(** *** Listing the members *)

(** The dict returned by [get_members]. *)
Record Members := {
  members_success : bool;
  members : list pyval;
  total : Z;
  members_error : option string;
  members_error_code : pyval }.

(** [all_members.extend(items)]: a list gives its elements, a [str] its
    characters, a dict its keys; nothing else is iterable. *)
Definition extend (all_members : list pyval) (items : pyval) : outcome (list pyval) :=
  match items with
  | PList l => Returns (all_members ++ l)
  | PStr s => Returns (all_members ++ map PStr (chars s))
  | PDict d => Returns (all_members ++ map (fun kv => PStr kv.1) d)
  | _ => Raises (Exception ("'" +:+ type_name items +:+ "' object is not iterable"))
  end.

(** [len(all_members) >= total] *)
Definition len_ge (n : nat) (total : pyval) : outcome bool :=
  match total with
  | PInt z => Returns (z <=? Z.of_nat n)
  | PBool b => Returns ((if b then 1 else 0) <=? Z.of_nat n)
  | _ => Raises (Exception ("'>=' not supported between instances of 'int' and '"
                            +:+ type_name total +:+ "'"))
  end.

Definition limit : Z := 50.

Definition members_url (account_id : string) (offset : Z) : string :=
  BASE_URL +:+ "/accounts/" +:+ account_id +:+ "/users?limit=" +:+ pretty limit
  +:+ "&offset=" +:+ pretty offset.

(** [while True:] of [get_members], unrolled at most [fuel] times; [None]
    says that the loop is still running after [fuel] passes. *)
Fixpoint members_loop (fuel : nat) (access_token account_id : string)
    (db_session : option DBAsyncSession) (all_members : list pyval)
    (offset : Z) : M (option Members) :=
  match fuel with
  | O => ret None
  | S fuel' =>
      let url := members_url account_id offset in
      let headers : gmap string string :=
        {[ "Authorization" := "Bearer " +:+ access_token ]} in
      let* result := _make_request "GET" url headers None db_session in
      if negb (success result) then
        ret (Some {| members_success := false; members := []; total := 0;
                     members_error := error result;
                     members_error_code := error_code result |})
      else
        match data result with
        | PDict d =>
            let items := dict_get d "items" (PList []) in
            let total := dict_get d "total" (PInt 0) in
            let* all_members := lift (extend all_members items) in
            let* enough := lift (len_ge (length all_members) total) in
            if enough then
              ret (Some {| members_success := true; members := all_members;
                           total := Z.of_nat (length all_members);
                           members_error := None;
                           members_error_code := PNone |})
            else
              members_loop fuel' access_token account_id db_session
                all_members (offset + limit)
        | v => raise (AttributeError (type_name v) "get")
        end
  end.

Definition get_members (fuel : nat) (access_token account_id : string)
    (db_session : option DBAsyncSession) : M (option Members) :=
  members_loop fuel access_token account_id db_session [] 0.

(** *** Teardown *)

Definition close : M unit :=
  let* s := get in
  match session s with
  | Some _ =>
      let* _ := close_session in
      modify (set_session None)
  | None => ret tt
  end.

Definition clear_session : M unit :=
  let* _ := modify (set_cf None None 0%Q) in
  close.

(** *** The other upstream operations *)

(** [result["error"] = msg] *)
Definition set_error (msg : string) (result : Envelope) : Envelope :=
  {| success := success result; status_code := status_code result;
     data := data result; error := Some msg;
     error_code := error_code result |}.

Definition invites_of (account_id : string) : string :=
  BASE_URL +:+ "/accounts/" +:+ account_id +:+ "/invites".

Definition send_invite (access_token account_id email : string)
    (db_session : option DBAsyncSession) : M Envelope :=
  let url := invites_of account_id in
  let headers : gmap string string :=
    <["chatgpt-account-id" := account_id]>
      (<["Authorization" := "Bearer " +:+ access_token]>
         {[ "Content-Type" := "application/json" ]}) in
  let json_data :=
    PDict [("email_addresses", PList [PStr email]);
           ("role", PStr "standard-user");
           ("resend_emails", PBool true)] in
  let* result := _make_request "POST" url headers (Some json_data) db_session in
  let result :=
    if status_code result =? 409
    then set_error "用户已是该 Team 的成员" result else result in
  let result :=
    if status_code result =? 422
    then set_error "Team 已满或邮箱格式错误" result else result in
  ret result.

(** [len(v)] *)
Definition py_len (v : pyval) : outcome Z :=
  match v with
  | PList l => Returns (Z.of_nat (length l))
  | PStr s => Returns (Z.of_nat (len s))
  | PDict d => Returns (Z.of_nat (length d))
  | _ => Raises (Exception ("object of type '" +:+ type_name v +:+ "' has no len()"))
  end.

(** The dict returned by [get_invites]. *)
Record Invites := {
  invites_success : bool;
  invites_items : pyval;
  invites_total : pyval;
  invites_error : option string;
  invites_error_code : pyval }.

Definition get_invites (access_token account_id : string)
    (db_session : option DBAsyncSession) : M Invites :=
  let url := invites_of account_id in
  let headers : gmap string string :=
    <["chatgpt-account-id" := account_id]>
      {[ "Authorization" := "Bearer " +:+ access_token ]} in
  let* result := _make_request "GET" url headers None db_session in
  if negb (success result) then
    ret {| invites_success := false; invites_items := PList [];
           invites_total := PInt 0; invites_error := error result;
           invites_error_code := error_code result |}
  else
    match data result with
    | PDict d =>
        let items := dict_get d "items" (PList []) in
        (* the default [len(items)] is computed before [get] is called *)
        let* n := lift (py_len items) in
        let total := dict_get d "total" (PInt n) in
        ret {| invites_success := true; invites_items := items;
               invites_total := total; invites_error := None;
               invites_error_code := PNone |}
    | v => raise (AttributeError (type_name v) "get")
    end.

Definition delete_invite (access_token account_id email : string)
    (db_session : option DBAsyncSession) : M Envelope :=
  let url := invites_of account_id in
  let headers : gmap string string :=
    <["chatgpt-account-id" := account_id]>
      (<["Authorization" := "Bearer " +:+ access_token]>
         {[ "Content-Type" := "application/json" ]}) in
  let json_data := PDict [("email_address", PStr email)] in
  _make_request "DELETE" url headers (Some json_data) db_session.

Definition delete_member (access_token account_id user_id : string)
    (db_session : option DBAsyncSession) : M Envelope :=
  let url := BASE_URL +:+ "/accounts/" +:+ account_id +:+ "/users/" +:+ user_id in
  let headers : gmap string string :=
    <["chatgpt-account-id" := account_id]>
      {[ "Authorization" := "Bearer " +:+ access_token ]} in
  let* result := _make_request "DELETE" url headers None db_session in
  let result :=
    if status_code result =? 403
    then set_error "无权限删除该成员 (可能是 owner)" result else result in
  let result :=
    if status_code result =? 404
    then set_error "用户不存在" result else result in
  ret result.

(** [v.get(k, default)] on a value that must be a dict. *)
Definition get_of (v : pyval) (k : string) (default : pyval) : outcome pyval :=
  match v with
  | PDict d => Returns (dict_get d k default)
  | _ => Raises (AttributeError (type_name v) "get")
  end.

Definition is_team (plan_type : pyval) : bool :=
  match plan_type with
  | PStr p => String.eqb p "team"
  | _ => false
  end.

(** The body of [for account_id, account_info in accounts_data.items()]
    for one entry: the projected account, or nothing. *)
Definition team_account (account_id : string) (account_info : pyval)
    : outcome (option pyval) :=
  match get_of account_info "account" (PDict []) with
  | Raises e => Raises e
  | Returns account =>
      match get_of account_info "entitlement" (PDict []) with
      | Raises e => Raises e
      | Returns entitlement =>
          match get_of account "plan_type" PNone with
          | Raises e => Raises e
          | Returns plan_type =>
              if is_team plan_type then
                match get_of account "name" (PStr ""),
                      get_of account "plan_type" (PStr ""),
                      get_of entitlement "subscription_plan" (PStr ""),
                      get_of entitlement "expires_at" (PStr ""),
                      get_of entitlement "has_active_subscription" (PBool false)
                with
                | Returns name, Returns plan, Returns sub, Returns exp, Returns act =>
                    Returns (Some (PDict [("account_id", PStr account_id);
                                          ("name", name);
                                          ("plan_type", plan);
                                          ("subscription_plan", sub);
                                          ("expires_at", exp);
                                          ("has_active_subscription", act)]))
                | Raises e, _, _, _, _ => Raises e
                | _, Raises e, _, _, _ => Raises e
                | _, _, Raises e, _, _ => Raises e
                | _, _, _, Raises e, _ => Raises e
                | _, _, _, _, Raises e => Raises e
                end
              else Returns None
          end
      end
  end.

Fixpoint team_accounts (entries : list (string * pyval)) (team_accounts_ : list pyval)
    : outcome (list pyval) :=
  match entries with
  | [] => Returns team_accounts_
  | (account_id, account_info) :: rest =>
      match team_account account_id account_info with
      | Raises e => Raises e
      | Returns None => team_accounts rest team_accounts_
      | Returns (Some a) => team_accounts rest (team_accounts_ ++ [a])
      end
  end.

(** The dict returned by [get_account_info]. *)
Record Accounts := {
  accounts_success : bool;
  accounts : list pyval;
  accounts_error : option string;
  accounts_error_code : pyval }.

Definition get_account_info (access_token : string)
    (db_session : option DBAsyncSession) : M Accounts :=
  let url := BASE_URL +:+ "/accounts/check/v4-2023-04-27" in
  let headers : gmap string string :=
    {[ "Authorization" := "Bearer " +:+ access_token ]} in
  let* result := _make_request "GET" url headers None db_session in
  if negb (success result) then
    ret {| accounts_success := false; accounts := [];
           accounts_error := error result;
           accounts_error_code := error_code result |}
  else
    let* accounts_data := lift (get_of (data result) "accounts" (PDict [])) in
    match accounts_data with
    | PDict entries =>
        let* found := lift (team_accounts entries []) in
        ret {| accounts_success := true; accounts := found;
               accounts_error := None; accounts_error_code := PNone |}
    | v => raise (AttributeError (type_name v) "items")
    end.

(** The dict returned by the refresh operations; a key that is missing
    reads as [None]. *)
Record Refreshed := {
  refreshed_success : bool;
  access_token_of : pyval;
  refresh_token_of : pyval;
  refreshed_status_code : option Z;
  refreshed_error : pyval;
  refreshed_error_code : pyval }.

Definition token_url : string := "https://auth.openai.com/oauth/token".

Definition token_headers : gmap string string :=
  <["User-Agent" := "Mozilla/5.0 (Windows NT 10.0; Win64; x64) AppleWebKit/537.36 (KHTML, like Gecko) Chrome/120.0.0.0 Safari/537.36"]>
    {[ "Content-Type" := "application/json" ]}.

Definition token_request (refresh_token client_id : string) : Request :=
  {| req_method := "POST"; req_url := token_url;
     req_headers := token_headers;
     req_json :=
       Some (PDict [("client_id", PStr client_id);
                    ("grant_type", PStr "refresh_token");
                    ("redirect_uri",
                     PStr "com.openai.sora://auth.openai.com/android/com.openai.sora/callback");
                    ("refresh_token", PStr refresh_token)]) |}.

(** The [try] that reads an OAuth error body; every exception in it is
    passed over. *)
Definition oauth_error (response : Response) (text : string) : pyval * pyval :=
  match resp_json response with
  | Returns (PDict d) =>
      (dict_get d "error_description" (PStr text), dict_get d "error" PNone)
  | _ => (PStr text, PNone)
  end.

Definition refresh_access_token_with_refresh_token (refresh_token client_id : string)
    (db_session : option DBAsyncSession) : M Refreshed :=
  let* _ := open_session db_session in
  try_except
    (let* s := get in
     let* response :=
       match session s with
       | Some _ => send (token_request refresh_token client_id)
       | None => raise (AttributeError "NoneType" "post")
       end in
     let status := resp_status response in
     if status =? 200 then
       let* data := lift (resp_json response) in
       let* access := lift (get_of data "access_token" PNone) in
       let* refresh := lift (get_of data "refresh_token" PNone) in
       ret {| refreshed_success := true; access_token_of := access;
              refresh_token_of := refresh; refreshed_status_code := None;
              refreshed_error := PNone; refreshed_error_code := PNone |}
     else
       let* text := lift (resp_text response) in
       let parsed := oauth_error response text in
       ret {| refreshed_success := false; access_token_of := PNone;
              refresh_token_of := PNone; refreshed_status_code := Some status;
              refreshed_error := parsed.1; refreshed_error_code := parsed.2 |})
    (fun e =>
       ret {| refreshed_success := false; access_token_of := PNone;
              refresh_token_of := PNone; refreshed_status_code := None;
              refreshed_error := PStr (str_exn e);
              refreshed_error_code := PNone |}).

(** ** Scripted worlds

    Answers of the upstream and of the solver to build runs from, and a
    world that answers the k-th call of each kind with the k-th entry of a
    list, with a fixed last resort past its end. *)

Definition html_page (body : string) : string :=
  "<!DOCTYPE html><html><head></head><body>" +:+ body +:+ "</body></html>".

(** A Cloudflare interstitial. *)
Definition challenge_page : string :=
  html_page "<script src='/cdn-cgi/challenge-platform/h/b/orchestrate/chl_page/v1'></script>".

(** A response whose body is not JSON. *)
Definition text_response (status : Z) (body : string) : Response :=
  {| resp_status := status;
     resp_content_type := Returns (Some "text/html; charset=UTF-8");
     resp_json := Raises (Exception "Expecting value: line 1 column 1 (char 0)");
     resp_text := Returns body |}.

(** The double quote, code 34. *)
Definition dq : string := String (ascii_of_nat 34) EmptyString.

(** [json.dumps] on values whose strings need no escaping. *)
Fixpoint dumps (v : pyval) : string :=
  match v with
  | PNone => "null"
  | PBool b => if b then "true" else "false"
  | PInt z => pretty z
  | PStr s => dq +:+ s +:+ dq
  | PList l =>
      "[" +:+
      (fix items (l : list pyval) : string :=
         match l with
         | [] => ""
         | [x] => dumps x
         | x :: l' => dumps x +:+ ", " +:+ items l'
         end) l
      +:+ "]"
  | PDict d =>
      "{" +:+
      (fix pairs (d : list (string * pyval)) : string :=
         match d with
         | [] => ""
         | [(k, x)] => dq +:+ k +:+ dq +:+ ": " +:+ dumps x
         | (k, x) :: d' => dq +:+ k +:+ dq +:+ ": " +:+ dumps x +:+ ", " +:+ pairs d'
         end) d
      +:+ "}"
  end.

(** A response whose body is the JSON text of [v]. *)
Definition json_response (status : Z) (v : pyval) : Response :=
  {| resp_status := status;
     resp_content_type := Returns (Some "application/json");
     resp_json := Returns v;
     resp_text := Returns (dumps v) |}.

Definition challenged (status : Z) : outcome Response :=
  Returns (text_response status challenge_page).

Definition bad_gateway_502 : outcome Response :=
  Returns (text_response 502 "Bad Gateway").

Definition ok_page : Response := json_response 200 (PDict []).

Definition not_found : Response :=
  json_response 404 (PDict [("detail", PStr "Not Found")]).

Definition solver_off : FlareConfig := {| cfg_enabled := false; cfg_url := None |}.
Definition solver_on : FlareConfig :=
  {| cfg_enabled := true; cfg_url := Some "http://flaresolverr:8191/" |}.

Definition solved : SolverReply :=
  {| sr_status := 200;
     sr_json := Returns {| sol_status := "ok";
                           sol_cookies := [("cf_clearance", "abc")];
                           sol_userAgent := "Mozilla/5.0" |} |}.

Definition unsolved : SolverReply :=
  {| sr_status := 200;
     sr_json := Returns {| sol_status := "error"; sol_cookies := [];
                           sol_userAgent := "" |} |}.

Definition script {A} (l : list A) (d : A) (k : nat) : A := nth k l d.

Definition world (http : list (outcome Response)) (config : list (outcome FlareConfig))
    (solver : list (outcome SolverReply)) : World :=
  {| upstream := fun k _ => script http (Raises (Exception "connection refused")) k;
     get_flaresolverr_config := fun k _ => script config (Returns solver_off) k;
     flaresolverr := fun k _ => script solver (Returns unsolved) k;
     new_AsyncSession := fun _ => Returns tt;
     close_AsyncSession := fun _ => Returns tt;
     time_time := fun k => inject_Z (Z.of_nat k) |}.

(** The upstream answers by the script, the solver is switched on and
    clears every challenge. *)
Definition working_solver (http : list (outcome Response)) : World :=
  world http [Returns solver_on; Returns solver_on; Returns solver_on]
        [Returns solved; Returns solved; Returns solved].

(** The same world with a session object that cannot be built, with one
    that fails to close, with a clock that shows [t], with an upstream
    that answers by the request. *)
Definition broken_constructor (w : World) : World :=
  {| upstream := upstream w;
     get_flaresolverr_config := get_flaresolverr_config w;
     flaresolverr := flaresolverr w;
     new_AsyncSession := fun _ => Raises (Exception "Failed to initialize curl");
     close_AsyncSession := close_AsyncSession w;
     time_time := time_time w |}.

Definition broken_close (w : World) : World :=
  {| upstream := upstream w;
     get_flaresolverr_config := get_flaresolverr_config w;
     flaresolverr := flaresolverr w;
     new_AsyncSession := new_AsyncSession w;
     close_AsyncSession := fun _ => Raises (Exception "Session is closed");
     time_time := time_time w |}.

Definition at_time (t : Q) (w : World) : World :=
  {| upstream := upstream w;
     get_flaresolverr_config := get_flaresolverr_config w;
     flaresolverr := flaresolverr w;
     new_AsyncSession := new_AsyncSession w;
     close_AsyncSession := close_AsyncSession w;
     time_time := fun _ => t |}.

Definition served_by (server : Request -> outcome Response) (w : World) : World :=
  {| upstream := fun _ => server;
     get_flaresolverr_config := get_flaresolverr_config w;
     flaresolverr := flaresolverr w;
     new_AsyncSession := new_AsyncSession w;
     close_AsyncSession := close_AsyncSession w;
     time_time := time_time w |}.

Definition db : option DBAsyncSession := Some (DbHandle 0).

Definition invites_url : string := BASE_URL +:+ "/accounts/acct-1/invites".

(** One logical call: [GET] of the invites of an account. *)
Definition GET : M Envelope := _make_request "GET" invites_url ∅ None db.

(** A service that already holds a session. *)
Definition connected : St :=
  set_session (Some {| sess_id := 0; sess_cookies := ∅ |}) __init__.

(** A service whose clearance cookies were captured at second 1000. *)
Definition cleared : St :=
  set_cf (Some {[ "cf_clearance" := "abc" ]}) (Some "Mozilla/5.0") 1000%Q __init__.

(** ** Scenarios *)

(** Every request is refused. *)
Definition unreachable : World := world [] [] [].

(** The upstream answers 502 three times. *)
Definition bad_gateway : World :=
  world [bad_gateway_502; bad_gateway_502; bad_gateway_502] [] [].

(** Every answer is a challenge page and the solver clears each one. *)
Definition challenged_forever : World :=
  working_solver [challenged 403; challenged 403; challenged 403].

(** Every answer is a challenge page; the first settings read (at session
    creation) finds the solver switched off, the later ones fail. *)
Definition settings_keep_failing : World :=
  world [challenged 403; challenged 403; challenged 403]
        [Returns solver_off; Raises (Exception "database is locked");
         Raises (Exception "database is locked");
         Raises (Exception "database is locked")]
        [].


(** Two 502, then a challenge page that the solver clears, then the
    upstream would answer. *)
Definition challenge_on_last_attempt : World :=
  working_solver [bad_gateway_502; bad_gateway_502; challenged 503;
                  Returns ok_page].

(** A JSON document that is a single string: the challenge page, quoted. *)
Definition page_as_json_string : Response :=
  json_response 200 (PStr challenge_page).

Definition quoted_page : string := dumps (PStr challenge_page).

(** A JSON error object that carries the challenge page in a field that
    the executor does not read. *)
Definition forbidden_with_page : Response :=
  json_response 403
    (PDict [("detail", PStr "Forbidden"); ("page", PStr challenge_page)]).

Definition forbidden_with_page_text : string :=
  dumps (PDict [("detail", PStr "Forbidden"); ("page", PStr challenge_page)]).

(** A 403 whose JSON object carries the challenge page as [detail], one
    whose object has no [detail], and the page behind a redirect. *)
Definition forbidden_page_in_detail : Response :=
  json_response 403 (PDict [("detail", PStr challenge_page)]).

Definition forbidden_object : Response :=
  json_response 403 (PDict [("page", PStr challenge_page)]).

Definition forbidden_object_text : string :=
  dumps (PDict [("page", PStr challenge_page)]).

Definition redirect_with_page : Response := text_response 302 challenge_page.


(** A validation error in the style of the upstream: [detail] is a list of
    objects. *)
Definition unprocessable : Response :=
  json_response 422
    (PDict [("detail",
             PList [PDict [("msg", PStr "value is not a valid email address")]])]).

Definition always_unprocessable : World :=
  world [Returns unprocessable; Returns unprocessable; Returns unprocessable]
        [] [].

(** The session object cannot be built. *)
Definition no_session_possible : World := broken_constructor unreachable.

(** A session whose [close()] raises. *)
Definition stuck_connection : World := broken_close (working_solver [challenged 403]).

(** The members of a team, and the page of [n] of them from [first] on
    with the reported [total]. *)
Definition member (i : nat) : pyval :=
  PDict [("id", PStr ("user-" +:+ pretty i)); ("role", PStr "standard-user")].

Definition page (first n : nat) (reported : Z) : Response :=
  json_response 200
    (PDict [("items", PList (map member (seq first n)));
            ("total", PInt reported)]).

(** A team of 120: pages of 50, 50 and 20 at the offsets 0, 50 and 100. *)
Definition team_of_120 : World :=
  served_by
    (fun req =>
       if String.eqb (req_url req) (members_url "acct-1" 0)
       then Returns (page 0 50 120)
       else if String.eqb (req_url req) (members_url "acct-1" 50)
       then Returns (page 50 50 120)
       else if String.eqb (req_url req) (members_url "acct-1" 100)
       then Returns (page 100 20 120)
       else Returns not_found)
    unreachable.

(** An upstream that reports 120 members with the first page and 100 with
    the second. *)
Definition shrinking_team : World :=
  served_by
    (fun req =>
       if String.eqb (req_url req) (members_url "acct-1" 0)
       then Returns (page 0 50 120)
       else if String.eqb (req_url req) (members_url "acct-1" 50)
       then Returns (page 50 50 100)
       else Returns not_found)
    unreachable.

(** What [get_members] returns against [shrinking_team]. *)
Definition first_hundred : Members :=
  {| members_success := true; members := map member (seq 0 100);
     total := 100; members_error := None; members_error_code := PNone |}.

(** ** Vocabulary of the statements *)

Definition result {A} (x : outcome A * St * list Event) : outcome A := x.1.1.
Definition final {A} (x : outcome A * St * list Event) : St := x.1.2.
Definition trace {A} (x : outcome A * St * list Event) : list Event := x.2.

(** The method names that [_make_request] knows. *)
Definition supported (method : string) : bool :=
  String.eqb method "GET" || String.eqb method "POST"
  || String.eqb method "DELETE".

(** What a call with an unsupported method name returns. *)
Definition unsupported_envelope (method : string) : Envelope :=
  {| success := false; status_code := 0; data := PNone;
     error := Some ("请求异常: 不支持的 HTTP 方法: " +:+ method);
     error_code := PNone |}.

(** The settings store answers every read. *)
Definition config_total (w : World) : Prop :=
  forall k d, exists c, get_flaresolverr_config w k d = Returns c.

(** No recovery can start any more: the flag is set, or there is no
    session left to send a request through. *)
Definition settled (cf_retried : bool) (s : St) : Prop :=
  cf_retried = true \/ session s = None.

(** What one status branch guarantees about the recoveries it starts. *)
Definition branch_post (w : World) (cf_retried : bool) (s : St)
    (x : outcome Ctl * St * list Event) : Prop :=
  let t := trace x in
  (count is_recovery t <= 1)%nat /\
  (cf_retried = true -> count is_recovery t = 0%nat) /\
  (forall cf', result x = Returns (Continue cf') ->
     cf' = true \/ (cf' = cf_retried /\ count is_recovery t = 0%nat)) /\
  (config_total w -> forall e, result x = Raises e ->
     count is_recovery t = 1%nat -> session (final x) = None) /\
  (count is_recovery t = 0%nat -> session (final x) = session s).

Definition try_post (w : World) (cf_retried : bool) (s : St)
    (x : outcome Ctl * St * list Event) : Prop :=
  branch_post w cf_retried s x /\
  (session s = None -> count is_recovery (trace x) = 0%nat).

(** The body that the 5xx branch inspects. *)
Definition body_text (response : Response) : string :=
  match resp_text response with
  | Returns t => t
  | Raises _ => ""
  end.

(** The challenge heuristic on a body: it looks like an HTML document and
    carries a Cloudflare marker. *)
Definition matches_challenge (body : string) : bool :=
  match and_then (_looks_like_html (PStr body))
          (_is_cloudflare_challenge (PStr body)) with
  | Returns b => b
  | Raises _ => false
  end.

(** A failure that the executor retries with backoff: an exception of the
    request, or a 5xx answer that is no challenge page. *)
Definition transient (o : outcome Response) : bool :=
  match o with
  | Raises _ => true
  | Returns response =>
      (500 <=? resp_status response)
      && negb (matches_challenge (body_text response))
  end.

(** The envelope after the last attempt, by the failure of that attempt. *)
Definition exhausted (o : outcome Response) : Envelope :=
  match o with
  | Returns response =>
      {| success := false; status_code := resp_status response;
         data := PNone;
         error := Some ("服务器错误 " +:+ pretty (resp_status response)
                        +:+ ",已重试 3 次");
         error_code := PNone |}
  | Raises TimeoutError =>
      {| success := false; status_code := 0; data := PNone;
         error := Some "请求超时,已重试 3 次"; error_code := PNone |}
  | Raises (Exception msg) =>
      {| success := false; status_code := 0; data := PNone;
         error := Some ("请求异常: " +:+ msg); error_code := PNone |}
  end.

(** The request that an attempt sends from the state [s]. *)
Definition request_of (method url : string) (headers : gmap string string)
    (json_data : option pyval) (s : St) : Request :=
  {| req_method := method; req_url := url;
     req_headers :=
       match _cf_user_agent s with
       | Some ua => if String.eqb ua "" then headers
                    else <["User-Agent" := ua]> headers
       | None => headers
       end;
     req_json := if String.eqb method "GET" then None else json_data |}.

(** The state after one more request. *)
Definition after_send (s : St) : St :=
  set_counts (S (n_upstream s)) (n_config s) (n_solver s) (n_new s)
    (n_close s) (n_time s) s.

(** The envelope of a challenge that was not cleared. *)
Definition challenge_envelope (status : Z) : Envelope :=
  fail_envelope status cloudflare_message (PStr "cloudflare_challenge").

(** The challenge outcome: one recovery if none was made in this call and
    a database session is at hand, and the challenge envelope when there is
    no recovery or the recovery fails. *)
Definition challenge_outcome (status : Z) (cf_retried : bool)
    (db_session : option DBAsyncSession) : M Ctl :=
  if negb cf_retried && is_truthy_db db_session
  then recover_or db_session (ret (Return (challenge_envelope status)))
  else ret (Return (challenge_envelope status)).

(** The answers on which the executor gets to look at the body: a 2xx
    that does not decode as JSON, a 4xx that does not decode to a JSON
    object, any status from 500 on. *)
Definition body_inspected (response : Response) : Prop :=
  let status := resp_status response in
  (200 <= status < 300 /\ exists e, resp_json response = Raises e)
  \/ (400 <= status < 500 /\ forall d, resp_json response <> Returns (PDict d))
  \/ 500 <= status.

(** The text that the executor matches against the challenge heuristic on
    a response: the body of a 2xx that does not decode as JSON; on a 4xx
    the [detail] of the decoded JSON object, and the body when the body is
    no JSON object or the object has no [detail]; the body of an answer
    from 500 on (the empty text when it cannot be read).  A 2xx that
    decodes, and a status that no branch takes, have none. *)
Definition examines (response : Response) (text : string) : Prop :=
  let status := resp_status response in
  (200 <= status < 300 /\ (exists e, resp_json response = Raises e) /\
   resp_text response = Returns text)
  \/ (400 <= status < 500 /\
      exists body, resp_text response = Returns body /\
        match resp_json response with
        | Returns (PDict d) => dict_get d "detail" (PStr body)
        | _ => PStr body
        end = PStr text)
  \/ (500 <= status /\ body_text response = text).

(** The error code that a 4xx JSON object brings itself: [error.code] when
    [error] is an object, [code] otherwise. *)
Definition own_code (response : Response) : pyval :=
  if (400 <=? resp_status response) && (resp_status response <? 500) then
    match resp_json response with
    | Returns (PDict d) =>
        match dict_get d "error" PNone with
        | PDict i => dict_get i "code" PNone
        | _ => dict_get d "code" PNone
        end
    | _ => PNone
    end
  else PNone.

(** The envelope of a detected challenge that was not cleared: the code is
    [cloudflare_challenge] unless the answer brought one of its own. *)
Definition detected_envelope (response : Response) : Envelope :=
  {| success := false; status_code := resp_status response; data := PNone;
     error := Some cloudflare_message;
     error_code := py_or (own_code response) (PStr "cloudflare_challenge") |}.

(** What the executor does on a detected challenge: one recovery if none
    succeeded yet in this call and a database session is at hand, and the
    envelope when there is no recovery or the recovery fails. *)
Definition detected_outcome (response : Response) (cf_retried : bool)
    (db_session : option DBAsyncSession) : M Ctl :=
  if negb cf_retried && is_truthy_db db_session
  then recover_or db_session (ret (Return (detected_envelope response)))
  else ret (Return (detected_envelope response)).

(** The state after one more look at the clock. *)
Definition after_clock (s : St) : St :=
  set_counts (n_upstream s) (n_config s) (n_solver s) (n_new s)
    (n_close s) (S (n_time s)) s.

(** The age of the cached cookies at the next look at the clock. *)
Definition age (w : World) (s : St) : Q :=
  (time_time w (n_time s) - _cf_cookies_time s)%Q.

(** The events of the clearance cache and of the session object, as
    opposed to requests, sleeps and recoveries. *)
Definition housekeeping (e : Event) : bool :=
  match e with
  | EvConfig | EvSolver _ | EvNewSession | EvClose => true
  | _ => false
  end.

Definition quiet (tr : list Event) : Prop :=
  Forall (fun e => housekeeping e = true) tr.


(** A request that differs from the arguments of the call in nothing but
    the [User-Agent] header. *)
Definition same_request (method url : string) (headers : gmap string string)
    (json_data : option pyval) (r : Request) : Prop :=
  req_method r = method /\ req_url r = url /\
  req_json r = (if String.eqb method "GET" then None else json_data) /\
  forall k, k <> "User-Agent" -> req_headers r !! k = headers !! k.

(** Every request of a trace satisfies [P]. *)
Definition requests_are (P : Request -> Prop) (tr : list Event) : Prop :=
  Forall (fun e => match e with EvHttp r => P r | _ => True end) tr.

(** What a part of an attempt may sleep: nothing, or the delay of the
    attempt, and then it goes on to the next attempt with the flag as it
    was. *)
Definition sleeps_once (attempt : nat) (cf_retried : bool)
    (x : outcome Ctl * St * list Event) : Prop :=
  sleeps (trace x) = [] \/
  exists d, RETRY_DELAYS !! attempt = Some d /\ (attempt < MAX_RETRIES - 1)%nat /\
            sleeps (trace x) = [d] /\ result x = Returns (Continue cf_retried).

(** The delays that a loop over [attempts] can sleep, in order. *)
Definition delays_of (attempts : list nat) : list Z :=
  omap (fun a => if (a <? MAX_RETRIES - 1)%nat then RETRY_DELAYS !! a else None)
       attempts.

(** The invariant of the result envelope. *)
Definition well_formed (e : Envelope) : Prop :=
  (success e = true ->
   200 <= status_code e < 300 /\ error e = None /\ error_code e = PNone) /\
  (success e = false -> data e = PNone /\ error e <> None).

(** A status that no branch of the executor takes. *)
Definition unhandled (status : Z) : Prop :=
  status < 200 \/ 300 <= status < 400.

(** The envelope behind the retry loop. *)
Definition unknown_error : Envelope :=
  {| success := false; status_code := 0; data := PNone;
     error := Some "未知错误"; error_code := PNone |}.

(** The clearance cache of a service. *)
Definition cache (s : St) : option (gmap string string) * option string * Q :=
  (_cf_cookies s, _cf_user_agent s, _cf_cookies_time s).

(** Settings under which [_fetch_cf_cookies] gives up before any call:
    the solver is switched off, or its URL is unset or empty. *)
Definition solver_disabled (c : FlareConfig) : bool :=
  negb (cfg_enabled c) || negb (truthy (of_opt_str (cfg_url c))).

(** The settings store always answers, and always that the solver is
    disabled. *)
Definition always_disabled (w : World) : Prop :=
  forall k d, exists c,
    get_flaresolverr_config w k d = Returns c /\ solver_disabled c = true.

(** Where [_fetch_cf_cookies] posts for a configured URL. *)
Definition solver_target (u : string) : string :=
  rstrip_with (Ascii.eqb "/") u +:+ "/v1".

(** The state after one more read of the settings, call of the solver,
    or [close()]. *)
Definition after_config (s : St) : St :=
  set_counts (n_upstream s) (S (n_config s)) (n_solver s) (n_new s)
    (n_close s) (n_time s) s.

Definition after_solver (s : St) : St :=
  set_counts (n_upstream s) (n_config s) (S (n_solver s)) (n_new s)
    (n_close s) (n_time s) s.

Definition is_close (e : Event) : bool :=
  match e with EvClose => true | _ => false end.

(** The cookies that a new session is given from the cache. *)
Definition applied_cookies (s : St) : gmap string string :=
  if cookies_truthy (_cf_cookies s) then default ∅ (_cf_cookies s) else ∅.

(** The body of an invitation. *)
Definition invite_body (email : string) : pyval :=
  PDict [("email_addresses", PList [PStr email]);
         ("role", PStr "standard-user");
         ("resend_emails", PBool true)].

Definition invite_headers (access_token account_id : string) : gmap string string :=
  <["chatgpt-account-id" := account_id]>
    (<["Authorization" := "Bearer " +:+ access_token]>
       {[ "Content-Type" := "application/json" ]}).

Definition member_headers (access_token account_id : string) : gmap string string :=
  <["chatgpt-account-id" := account_id]>
    {[ "Authorization" := "Bearer " +:+ access_token ]}.

(** An account as [get_account_info] returns it: a dict whose plan type
    is the team tier. *)
Definition team_entry (a : pyval) : Prop :=
  exists d, a = PDict d /\ assoc "plan_type" d = Some (PStr "team").

(** The marker that [_simplify_error_text] puts behind a cut text. *)
Definition cut_marker : string := "...(已截断)".

(** One logical call: at most [MAX_RETRIES] requests, each of them the
    request of the call. *)
Definition one_call (method url : string) (headers : gmap string string)
    (json_data : option pyval) (tr : list Event) : Prop :=
  (count is_http tr <= MAX_RETRIES)%nat /\
  requests_are (same_request method url headers json_data) tr.

(** The messages that [send_invite] and [delete_member] put in place of
    the upstream's. *)
Definition already_member : string := "用户已是该 Team 的成员".
Definition team_full : string := "Team 已满或邮箱格式错误".
Definition not_permitted : string := "无权限删除该成员 (可能是 owner)".
Definition no_such_user : string := "用户不存在".

Definition member_url (account_id user_id : string) : string :=
  BASE_URL +:+ "/accounts/" +:+ account_id +:+ "/users/" +:+ user_id.

(** ** Pricing (app/utils/pricing.py)

    A [datetime] enters only through its date, which is represented by its
    ordinal (the number of the day); [now] is the argument of that name or,
    when it is left out, the value of [get_now()]. *)
Module Pricing.

Definition DEFAULT_BASE_DAYS : Z := 30.
Definition DEFAULT_BASE_PRICE_CENTS : Z := 1500.

Definition calculate_remaining_days (expires_at : option Z) (now : Z) : option Z :=
  match expires_at with
  | None => None
  | Some expires_at =>
      let remaining_days := expires_at - now in
      Some (Z.max remaining_days 0)
  end.

(** [//] is the floor division, which is [Z.div]; by zero it raises. *)
Definition calculate_price_cents (remaining_days : option Z)
    (base_days base_price_cents : Z) : outcome (option Z) :=
  match remaining_days with
  | None => Returns None
  | Some remaining_days =>
      if remaining_days <=? 0 then Returns (Some 0)
      else
        let numerator := remaining_days * base_price_cents in
        if 2 * base_days =? 0
        then Raises (Exception "integer division or modulo by zero")
        else Returns (Some ((2 * numerator + base_days) / (2 * base_days)))
  end.

End Pricing.

(** Well-formed lists of characters: a character is a byte with
    continuation bytes behind it, and every character but the first of a
    text starts with a byte that is no continuation byte. *)
Fixpoint continuations (t : string) : bool :=
  match t with
  | EmptyString => true
  | String c t' => is_continuation c && continuations t'
  end.

Definition character (ch : string) : Prop :=
  match ch with
  | String c t => continuations t = true
  | EmptyString => False
  end.

Definition leading (ch : string) : Prop :=
  character ch /\ starts_with_continuation ch = false.

Definition characters (l : list string) : Prop :=
  match l with
  | [] => True
  | ch :: l' => character ch /\ Forall leading l'
  end.

(** The test of [_looks_like_html] on the stripped and lowered text. *)
Definition html_start (stripped : string) : bool :=
  startswith stripped "<!doctype html"
  || startswith stripped "<html"
  || contains "<html" (take_str 200 stripped).

(** ** Reasoning about runs *)

Lemma count_app p (a b : list Event) :
  count p (a ++ b) = (count p a + count p b)%nat.
Proof. induction a as [|e a IH]; simpl; [done|]. rewrite IH. lia. Qed.

(** A run of [bind] is a run of its first part followed, if that part
    returned, by a run of the rest. *)
Lemma bind_inv {A B} (m : M A) (k : A -> M B) w s r s' tr :
  bind m k w s = (r, s', tr) ->
  (exists a s1 t1 t2,
      m w s = (Returns a, s1, t1) /\ k a w s1 = (r, s', t2) /\ tr = t1 ++ t2)
  \/ (exists e, m w s = (Raises e, s', tr) /\ r = Raises e).
Proof.
  unfold bind. destruct (m w s) as [[[a|e] s1] t1].
  - destruct (k a w s1) as [[r2 s2] t2] eqn:Hk. intros [= <- <- <-].
    left. by exists a, s1, t1, t2.
  - intros [= <- <- <-]. right. by exists e.
Qed.

Lemma try_except_inv {A} (m : M A) (h : exn -> M A) w s r s' tr :
  try_except m h w s = (r, s', tr) ->
  (exists a, m w s = (Returns a, s', tr) /\ r = Returns a)
  \/ (exists e s1 t1 t2,
        m w s = (Raises e, s1, t1) /\ h e w s1 = (r, s', t2) /\ tr = t1 ++ t2).
Proof.
  unfold try_except. destruct (m w s) as [[[a|e] s1] t1].
  - intros [= <- <- <-]. left. by exists a.
  - destruct (h e w s1) as [[r2 s2] t2] eqn:Hh. intros [= <- <- <-].
    right. by exists e, s1, t1, t2.
Qed.

(** Take one run apart. *)
Ltac inv_run H :=
  lazymatch type of H with
  | bind _ _ _ _ = _ =>
      let a := fresh "a" in let s1 := fresh "s" in
      let t1 := fresh "t" in let t2 := fresh "t" in
      let e := fresh "e" in
      let H1 := fresh "Hm" in let H2 := fresh "Hk" in
      apply bind_inv in H;
      destruct H as [(a & s1 & t1 & t2 & H1 & H2 & ?) | (e & H1 & ?)];
      simplify_eq
  | try_except _ _ _ _ = _ =>
      let a := fresh "a" in let s1 := fresh "s" in
      let t1 := fresh "t" in let t2 := fresh "t" in
      let e := fresh "e" in
      let H1 := fresh "Hm" in let H2 := fresh "Hh" in
      apply try_except_inv in H;
      destruct H as [(a & H1 & ?) | (e & s1 & t1 & t2 & H1 & H2 & ?)];
      simplify_eq
  | ret _ _ _ = _ => unfold ret in H; simplify_eq
  | raise _ _ _ = _ => unfold raise in H; simplify_eq
  | lift _ _ _ = _ => unfold lift in H; simplify_eq
  | get _ _ = _ => unfold get in H; simplify_eq
  | modify _ _ _ = _ => unfold modify in H; simplify_eq
  | emit _ _ _ = _ => unfold emit in H; simplify_eq
  | sleep _ _ _ = _ =>
      unfold sleep, emit in H; simplify_eq
  | now _ _ = _ => unfold now in H; simplify_eq
  | read_config _ _ _ = _ =>
      unfold read_config in H; simplify_eq
  | post_solver _ _ _ = _ =>
      unfold post_solver in H; simplify_eq
  | construct_session _ _ = _ =>
      unfold construct_session in H; simplify_eq
  | close_session _ _ = _ =>
      unfold close_session in H; simplify_eq
  | send _ _ _ = _ => unfold send in H; simplify_eq
  end.

Ltac inv_any :=
  match goal with
  | H : bind _ _ _ _ = _ |- _ => inv_run H
  | H : try_except _ _ _ _ = _ |- _ => inv_run H
  | H : ret _ _ _ = _ |- _ => inv_run H
  | H : raise _ _ _ = _ |- _ => inv_run H
  | H : lift _ _ _ = _ |- _ => inv_run H
  | H : get _ _ = _ |- _ => inv_run H
  | H : modify _ _ _ = _ |- _ => inv_run H
  | H : emit _ _ _ = _ |- _ => inv_run H
  | H : sleep _ _ _ = _ |- _ => inv_run H
  | H : now _ _ = _ |- _ => inv_run H
  | H : read_config _ _ _ = _ |- _ => inv_run H
  | H : post_solver _ _ _ = _ |- _ => inv_run H
  | H : construct_session _ _ = _ |- _ => inv_run H
  | H : close_session _ _ = _ |- _ => inv_run H
  | H : send _ _ _ = _ |- _ => inv_run H
  | H : (if ?b then _ else _) _ _ = _ |- _ => destruct b eqn:?
  | H : (match ?x with _ => _ end) _ _ = _ |- _ => destruct x eqn:?
  end.

(** Take a run apart down to the calls that are left folded. *)
Ltac runs := repeat inv_any.

Ltac fin :=
  unfold result, final, trace in *;
  simpl in *; rewrite ?app_nil_r, ?count_app in *; simpl in *;
  repeat split; try congruence; try lia; eauto.

(** *** The clearance cache starts no recovery and keeps the session *)

Lemma fetch_trace db_session w s r s1 t :
  _fetch_cf_cookies db_session w s = (r, s1, t) ->
  count is_recovery t = 0%nat /\ session s1 = session s.
Proof. unfold _fetch_cf_cookies. intros H. runs; done. Qed.

Lemma fetch_total db_session w s r s1 t :
  config_total w ->
  _fetch_cf_cookies db_session w s = (r, s1, t) -> exists b, r = Returns b.
Proof.
  intros Hc. unfold _fetch_cf_cookies. intros H. runs; eauto.
  match goal with
  | H : get_flaresolverr_config w ?k ?d = Raises _ |- _ =>
      destruct (Hc k d); congruence
  end.
Qed.

Lemma fetch_spec db_session w s r s1 t :
  _fetch_cf_cookies db_session w s = (r, s1, t) ->
  count is_recovery t = 0%nat /\ session s1 = session s /\
  (config_total w -> exists b, r = Returns b).
Proof.
  intros H. destruct (fetch_trace _ _ _ _ _ _ H). eauto using fetch_total.
Qed.

Lemma valid_trace w s r s1 t :
  _cf_cookies_valid w s = (r, s1, t) ->
  t = [] /\ session s1 = session s /\ exists b, r = Returns b.
Proof. unfold _cf_cookies_valid. intros H. runs; eauto. Qed.

Ltac use_cache :=
  repeat match goal with
  | H : _cf_cookies_valid _ _ = _ |- _ =>
      apply valid_trace in H; destruct H as (-> & ? & ? & ?)
  | H : _fetch_cf_cookies _ _ _ = _ |- _ =>
      apply fetch_spec in H; destruct H as (? & ? & ?)
  end.

Lemma ensure_trace db_session w s r s1 t :
  _ensure_cf_cookies db_session w s = (r, s1, t) ->
  count is_recovery t = 0%nat /\ session s1 = session s.
Proof. unfold _ensure_cf_cookies. intros H. runs; use_cache; fin. Qed.

Lemma create_trace db_session w s r s1 t :
  _create_session db_session w s = (r, s1, t) ->
  count is_recovery t = 0%nat /\ session s1 = session s.
Proof.
  unfold _create_session. intros H. runs;
  repeat match goal with
  | H : _ensure_cf_cookies _ _ _ = _ |- _ =>
      apply ensure_trace in H; destruct H as (? & ?)
  end; fin.
Qed.

(** *** A recovery is one recovery; when it raises although the settings
    could be read, the session is gone *)

Lemma recovery_trace db_session w s r s1 t :
  _try_cf_recovery db_session w s = (r, s1, t) ->
  count is_recovery t = 1%nat /\
  (config_total w -> forall e, r = Raises e -> session s1 = None).
Proof.
  unfold _try_cf_recovery. intros H. runs.
  all: repeat match goal with
  | H : _create_session _ _ _ = _ |- _ =>
      apply create_trace in H; destruct H as (? & ?)
  end; use_cache.
  all: fin.
  all: intros Hc;
    match goal with
    | H : config_total _ -> _ |- _ => destruct (H Hc); congruence
    end.
Qed.

Lemma looks_like_html_str s : exists b, _looks_like_html (PStr s) = Returns b.
Proof. unfold _looks_like_html. destruct (negb _); eauto. Qed.

Lemma is_cloudflare_challenge_str s :
  exists b, _is_cloudflare_challenge (PStr s) = Returns b.
Proof. unfold _is_cloudflare_challenge. destruct (negb _); eauto. Qed.

(** On a [str] the simplifier always answers. *)
Lemma simplify_str s : exists x, _simplify_error_text (PStr s) = Returns x.
Proof.
  unfold _simplify_error_text.
  destruct (looks_like_html_str s) as [b ->].
  destruct (is_cloudflare_challenge_str s) as [c ->].
  destruct (negb _); [eauto|]. destruct b, c; simpl; eauto.
Qed.

(** The backoff tail never raises, starts no recovery and keeps the flag. *)
Lemma backoff_run attempt cf last w s :
  exists ctl t, backoff attempt cf last w s = (Returns ctl, s, t) /\
    count is_recovery t = 0%nat /\
    forall cf', ctl = Continue cf' -> cf' = cf.
Proof.
  unfold backoff. destruct (attempt <? MAX_RETRIES - 1)%nat eqn:Hlt.
  - apply Nat.ltb_lt in Hlt. unfold MAX_RETRIES in Hlt.
    destruct attempt as [|[|?]]; [| |lia]; simpl;
      (eexists _, _; split; [reflexivity|]; split; [done|]; congruence).
  - eexists _, _; split; [reflexivity|]. split; [done|]. congruence.
Qed.

Ltac use_recovery :=
  repeat match goal with
  | H : _try_cf_recovery _ _ _ = _ |- _ =>
      apply recovery_trace in H; destruct H as (? & ?)
  end.

Ltac use_backoff :=
  repeat match goal with
  | H : backoff ?a ?c ?l ?w ?s = _ |- _ =>
      let E := fresh in
      destruct (backoff_run a c l w s) as (? & ? & E & ? & ?);
      rewrite E in H; clear E; injection H as ? ? ?; subst
  | H : _simplify_error_text (PStr ?s) = Raises _ |- _ =>
      destruct (simplify_str s); congruence
  end.

Ltac close_branch :=
  unfold branch_post, result, final, trace; simpl;
  rewrite ?app_nil_r, ?count_app; simpl;
  repeat split; intros; subst; simpl in *;
  rewrite ?andb_false_r in *; simplify_eq; auto; try lia; try congruence; eauto.

Lemma on_2xx_post response cf db_session w s :
  branch_post w cf s (on_2xx response cf db_session w s).
Proof.
  destruct (on_2xx response cf db_session w s) as [[r s1] t] eqn:H.
  unfold on_2xx, recover_or in H. runs; use_recovery; close_branch.
Qed.

Lemma on_4xx_post response cf db_session w s :
  branch_post w cf s (on_4xx response cf db_session w s).
Proof.
  destruct (on_4xx response cf db_session w s) as [[r s1] t] eqn:H.
  unfold on_4xx, read_error, recover_or in H. runs; use_recovery; close_branch.
Qed.

Lemma on_5xx_post response attempt cf db_session w s :
  branch_post w cf s (on_5xx response attempt cf db_session w s).
Proof.
  destruct (on_5xx response attempt cf db_session w s) as [[r s1] t] eqn:H.
  unfold on_5xx, recover_or in H. runs; use_recovery; use_backoff; close_branch.
Qed.

Lemma handle_response_post response attempt cf db_session w s :
  branch_post w cf s (handle_response response attempt cf db_session w s).
Proof.
  unfold handle_response.
  destruct (_ && _); [apply on_2xx_post|].
  destruct (_ && _); [apply on_4xx_post|].
  destruct (_ <=? _); [apply on_5xx_post|].
  close_branch.
Qed.

Lemma attempt_try_post method url headers json_data db_session attempt cf w s :
  try_post w cf s
    (attempt_try method url headers json_data db_session attempt cf w s).
Proof.
  destruct (attempt_try method url headers json_data db_session attempt cf w s)
    as [[r s1] t] eqn:H.
  unfold attempt_try, dispatch in H. runs.
  all: repeat match goal with
  | H : handle_response ?r ?a ?c ?d ?w ?s = _ |- _ =>
      let P := fresh "P" in
      pose proof (handle_response_post r a c d w s) as P; rewrite H in P;
      clear H; destruct P as (P1 & P2 & P3 & P4 & P5)
  end.
  all: unfold try_post, branch_post, result, final, trace in *; simpl in *;
    rewrite ?count_app; simpl.
  all: repeat split; intros; simplify_eq; auto; try lia; try congruence; eauto.
Qed.

(** One attempt always ends by [return] or by going on: its handlers catch
    every exception of the [try] and raise none.  It starts at most one
    recovery, none once the call is settled, and a recovery leaves the call
    settled unless the settings store raised. *)
Lemma attempt_once_post method url headers json_data db_session attempt cf w s :
  exists ctl s1 t,
    attempt_once method url headers json_data db_session attempt cf w s
      = (Returns ctl, s1, t) /\
    (count is_recovery t <= 1)%nat /\
    (settled cf s -> count is_recovery t = 0%nat) /\
    (forall cf', ctl = Continue cf' ->
       (settled cf s -> settled cf' s1) /\
       (config_total w -> count is_recovery t = 1%nat -> settled cf' s1)).
Proof.
  unfold attempt_once, try_except.
  pose proof (attempt_try_post method url headers json_data db_session
                attempt cf w s) as P.
  destruct (attempt_try method url headers json_data db_session attempt cf w s)
    as [[[ctl|e] s1] t];
    destruct P as ((P1 & P2 & P3 & P4 & P5) & P6);
    unfold result, final, trace in *; simpl in *.
  - exists ctl, s1, t. split; [done|]. split; [done|].
    split; [intros [->|Hn]; auto|].
    intros cf' ->. destruct (P3 cf' eq_refl) as [->|[-> Hz]].
    + split; intros; by left.
    + split; [|lia]. intros [->|Hn]; [by left|]. right. rewrite P5; auto.
  - assert (exists ctl t2,
      match e with
      | TimeoutError =>
          backoff attempt cf
            {| success := false; status_code := 0; data := PNone;
               error := Some ("请求超时,已重试 " +:+ retries_text +:+ " 次");
               error_code := PNone |}
      | Exception _ =>
          backoff attempt cf
            {| success := false; status_code := 0; data := PNone;
               error := Some ("请求异常: " +:+ str_exn e);
               error_code := PNone |}
      end w s1 = (Returns ctl, s1, t2) /\ count is_recovery t2 = 0%nat /\
      forall cf', ctl = Continue cf' -> cf' = cf) as (ctl & t2 & -> & Hz & Hc).
    { destruct e; apply backoff_run. }
    exists ctl, s1, (t ++ t2). rewrite count_app, Hz, Nat.add_0_r.
    split; [done|]. split; [done|].
    split; [intros [->|Hn]; auto|].
    intros cf' ->%Hc. split.
    + intros [->|Hn]; [by left|]. right. rewrite P5; auto.
    + intros Hcfg H1. right. eauto.
Qed.

(** The loop returns an envelope whatever happens, with at most one
    recovery per attempt, and at most one in all when the settings store
    answers. *)
Lemma retry_loop_post method url headers json_data db_session attempts :
  forall cf w s,
  exists e s' tr,
    retry_loop method url headers json_data db_session attempts cf w s
      = (Returns e, s', tr) /\
    (count is_recovery tr <= length attempts)%nat /\
    (settled cf s -> count is_recovery tr = 0%nat) /\
    (config_total w -> count is_recovery tr <= 1)%nat.
Proof.
  induction attempts as [|attempt rest IH]; intros cf w s.
  - simpl. eexists _, _, _. split; [reflexivity|]. simpl. auto with lia.
  - destruct (attempt_once_post method url headers json_data db_session
                attempt cf w s) as (ctl & s1 & t & E & B1 & B2 & B3).
    cbn [retry_loop]. unfold bind at 1. rewrite E.
    destruct ctl as [e|cf'].
    + exists e, s1, (t ++ []). split; [reflexivity|].
      rewrite app_nil_r. simpl. auto with lia.
    + destruct (IH cf' w s1) as (e & s' & tr & E' & L1 & L2 & L3).
      rewrite E'. exists e, s', (t ++ tr). split; [reflexivity|].
      rewrite count_app. destruct (B3 cf' eq_refl) as [K1 K2].
      split; [simpl; lia|]. split.
      * intros Hs. rewrite B2, L2; auto.
      * intros Hc. specialize (L3 Hc).
        destruct (count is_recovery t) as [|[|n]] eqn:Ht; [lia| |lia].
        rewrite L2; auto.
Qed.

(** An unsupported method name raises inside the [try], before anything
    is sent. *)
Lemma attempt_try_unsupported method url headers json_data db_session attempt cf w s :
  String.eqb method "GET" = false ->
  String.eqb method "POST" = false ->
  String.eqb method "DELETE" = false ->
  attempt_try method url headers json_data db_session attempt cf w s
  = (Raises (Exception ("不支持的 HTTP 方法: " +:+ method)), s, []).
Proof.
  intros G P D. unfold attempt_try, dispatch, bind, get, raise.
  by rewrite G, P, D.
Qed.

(** ** The request executor: recoveries *)

(** Every attempt of one logical call starts at most one challenge
    recovery, so a call starts at most [MAX_RETRIES] of them; the flag
    [cf_retried] is set only by a recovery that returned true and a
    recovery that returned false ends the call, so at most one recovery is
    started whenever no read of the FlareSolverr settings raises. *)
Theorem recoveries_bounded method url headers json_data db_session w s :
  let tr := trace (_make_request method url headers json_data db_session w s) in
  (count is_recovery tr <= MAX_RETRIES)%nat /\
  (config_total w -> (count is_recovery tr <= 1)%nat).
Proof.
  unfold _make_request.
  set (loop := retry_loop method url headers json_data db_session
                 (seq 0 MAX_RETRIES) false).
  assert (L : forall s0 t0, count is_recovery t0 = 0%nat ->
    (count is_recovery (t0 ++ (loop w s0).2) <= MAX_RETRIES)%nat /\
    (config_total w -> (count is_recovery (t0 ++ (loop w s0).2) <= 1)%nat)).
  { intros s0 t0 Hz. unfold loop.
    destruct (retry_loop_post method url headers json_data db_session
                (seq 0 MAX_RETRIES) false w s0)
      as (e & s' & tr & -> & L1 & _ & L3).
    simpl. rewrite count_app, Hz. rewrite length_seq in L1. simpl. auto. }
  clearbody loop. unfold trace, open_session, bind, get.
  destruct (session s) eqn:Hs; simpl.
  - destruct (L s [] eq_refl) as [L1 L2].
    destruct (loop w s) as [[r s'] tr]. simpl in *. auto.
  - destruct (_create_session db_session w s) as [[[new|e] s1] t1] eqn:Hc;
      apply create_trace in Hc; destruct Hc as [Hz _]; simpl.
    + destruct (L (set_session (Some new) s1) (t1 ++ [])) as [L1 L2].
      { by rewrite app_nil_r. }
      destruct (loop w _) as [[r s'] tr]. simpl in *. auto.
    + rewrite Hz. auto with lia.
Qed.

(** Three challenge pages, a solver that clears each: one recovery. *)
Lemma recoveries_bounded_witness :
  (count is_recovery (trace (GET challenged_forever __init__)) <= MAX_RETRIES)%nat
  /\ (count is_recovery (trace (GET challenged_forever __init__)) <= 1)%nat.
Proof.
  destruct (recoveries_bounded "GET" invites_url ∅ None db
              challenged_forever __init__) as [H1 H2].
  split; [exact H1|]. apply H2.
  intros k d. simpl. unfold script.
  destruct k as [|[|[|[|k]]]]; simpl; eauto.
Defined.

(** C1 (the code at the failing input).  Every answer is a challenge
    page and every read of the solver settings inside a recovery raises.
    The read stands before the [try] of [_fetch_cf_cookies], so the
    exception leaves [_try_cf_recovery] and reaches the exception handler
    of the attempt: the flag stays unset, the attempt is retried with
    backoff like a request exception, and each of the three attempts starts
    a recovery of its own. *)
Theorem recovery_started_three_times :
  count is_recovery (trace (GET settings_keep_failing __init__)) = 3%nat
  /\ ~ (count is_recovery (trace (GET settings_keep_failing __init__)) <= 1)%nat
  /\ sleeps (trace (GET settings_keep_failing __init__)) = [1; 2]
  /\ result (GET settings_keep_failing __init__)
    = Returns {| success := false; status_code := 0; data := PNone;
                 error := Some "请求异常: database is locked";
                 error_code := PNone |}.
Proof.
  split; [by vm_compute|]. split; [vm_compute; lia|].
  split; by vm_compute.
Qed.

(** ** The request executor: exceptions *)

Lemma attempt_once_unsupported method url headers json_data db_session attempt cf w s :
  supported method = false ->
  attempt_once method url headers json_data db_session attempt cf w s
  = backoff attempt cf (unsupported_envelope method) w s.
Proof.
  unfold supported. intros H.
  apply orb_false_elim in H as [H D]. apply orb_false_elim in H as [G P].
  unfold attempt_once, try_except.
  rewrite (attempt_try_unsupported _ _ _ _ _ _ _ _ _ G P D). simpl.
  by destruct (backoff _ _ _ _ _) as [[r s2] t2].
Qed.

Lemma retry_loop_unsupported method url headers json_data db_session w s :
  supported method = false ->
  retry_loop method url headers json_data db_session (seq 0 MAX_RETRIES) false w s
  = (Returns (unsupported_envelope method), s, [EvSleep 1; EvSleep 2]).
Proof.
  intros H. cbn [retry_loop seq MAX_RETRIES]. unfold bind.
  repeat (rewrite (attempt_once_unsupported _ _ _ _ _ _ _ _ _ H); simpl).
  reflexivity.
Qed.

(** C8 (as the code has it).  The retry loop converts every exception into
    an envelope, so with a session at hand [_make_request] always returns
    one; with an unsupported method name whatever it returns is the failure
    envelope of a request exception.  The session is created before the
    loop, outside its [try]: an exception leaves [_make_request] exactly
    when there is no session yet and [_create_session] raises it. *)
Theorem raises_only_when_creating_session method url headers json_data db_session w s :
  let x := _make_request method url headers json_data db_session w s in
  (session s <> None -> exists e, result x = Returns e) /\
  (forall exc, result x = Raises exc <->
     session s = None /\ result (_create_session db_session w s) = Raises exc) /\
  (supported method = false ->
   forall e, result x = Returns e -> e = unsupported_envelope method).
Proof.
  unfold _make_request.
  pose proof (retry_loop_unsupported method url headers json_data db_session w) as U.
  set (loop := retry_loop method url headers json_data db_session
                 (seq 0 MAX_RETRIES) false) in *.
  assert (L : forall s0, exists e, (loop w s0).1.1 = Returns e).
  { intros s0. unfold loop.
    destruct (retry_loop_post method url headers json_data db_session
                (seq 0 MAX_RETRIES) false w s0) as (e & s' & tr & -> & _).
    by exists e. }
  clearbody loop. unfold result, open_session, bind, get.
  destruct (session s) eqn:Hs; simpl.
  - destruct (L s) as [e He].
    specialize (U s). destruct (loop w s) as [[r s'] tr]. simpl in *. subst r.
    split; [eauto|]. split.
    + intros exc. split; [done|]. by intros [? _].
    + intros Hu e' [= <-]. specialize (U Hu). congruence.
  - destruct (_create_session db_session w s) as [[[new|e] s1] t1]; simpl.
    + destruct (L (set_session (Some new) s1)) as [e He].
      specialize (U (set_session (Some new) s1)).
      destruct (loop w _) as [[r s'] tr]. simpl in *. subst r.
      split; [done|]. split.
      * intros exc. split; [done|]. by intros [_ ?].
      * intros Hu e' [= <-]. specialize (U Hu). congruence.
    + split; [done|]. split; [|done].
      intros exc. split; [intros [= ->]; done|]. by intros [_ [= ->]].
Qed.

(** A [PATCH] comes back as an envelope, with or without a session at the
    start. *)
Lemma raises_only_when_creating_session_witness :
  (exists e, result (_make_request "PATCH" invites_url ∅ None db unreachable
                       connected) = Returns e)
  /\ (forall e, result (_make_request "PATCH" invites_url ∅ None db unreachable
                         __init__) = Returns e ->
       e = unsupported_envelope "PATCH").
Proof.
  split.
  - apply (raises_only_when_creating_session "PATCH" invites_url ∅ None db
             unreachable connected). discriminate.
  - apply (raises_only_when_creating_session "PATCH" invites_url ∅ None db
             unreachable __init__). reflexivity.
Defined.

(** C8 as stated fails: when [AsyncSession(...)] raises at the entry of
    [_make_request], the caller gets the exception, not an envelope. *)
Lemma session_creation_failure_escapes :
  result (GET no_session_possible __init__)
  = Raises (Exception "Failed to initialize curl").
Proof. by vm_compute. Qed.

(** ** The request executor: backoff *)

Lemma heuristic_str body :
  and_then (_looks_like_html (PStr body)) (_is_cloudflare_challenge (PStr body))
  = Returns (matches_challenge body).
Proof.
  unfold matches_challenge.
  destruct (looks_like_html_str body) as [b ->].
  destruct (is_cloudflare_challenge_str body) as [c ->].
  by destruct b.
Qed.

(** With a session and a supported method, an attempt sends its request. *)
Lemma dispatch_sends method url headers json_data w s :
  supported method = true ->
  session s <> None ->
  let req := request_of method url headers json_data s in
  dispatch method url (req_headers req) json_data w s
  = (upstream w (n_upstream s) req, after_send s, [EvHttp req]).
Proof.
  intros Hm Hs req. subst req.
  destruct (session s) as [a|] eqn:Hsess; [clear Hs|done].
  unfold dispatch, bind, get. rewrite Hsess.
  unfold request_of, supported in *. simpl.
  destruct (String.eqb method "GET") eqn:G.
  { unfold send. simpl. by destruct (upstream _ _ _). }
  destruct (String.eqb method "POST") eqn:P.
  { unfold send. simpl. by destruct (upstream _ _ _). }
  destruct (String.eqb method "DELETE") eqn:Dl; [|done].
  unfold send. simpl. by destruct (upstream _ _ _).
Qed.

(** The [try] of an attempt, by the outcome of its request. *)
Lemma attempt_try_run method url headers json_data db_session attempt cf w s :
  supported method = true ->
  session s <> None ->
  let req := request_of method url headers json_data s in
  attempt_try method url headers json_data db_session attempt cf w s
  = match upstream w (n_upstream s) req with
    | Returns response =>
        let y := handle_response response attempt cf db_session w (after_send s) in
        (result y, final y, EvHttp req :: trace y)
    | Raises e => (Raises e, after_send s, [EvHttp req])
    end.
Proof.
  intros Hm Hs req.
  pose proof (dispatch_sends method url headers json_data w s Hm Hs) as D.
  unfold attempt_try. unfold bind at 1, get at 1. unfold bind at 1.
  simpl in D. rewrite D. fold req.
  destruct (upstream w (n_upstream s) req) as [response|e]; [|done].
  by destruct (handle_response _ _ _ _ w _) as [[r s1] t].
Qed.

(** An attempt that meets a transient failure sends its request and goes
    to the backoff tail. *)
Lemma attempt_once_transient method url headers json_data db_session attempt cf w s :
  supported method = true ->
  session s <> None ->
  let req := request_of method url headers json_data s in
  let o := upstream w (n_upstream s) req in
  transient o = true ->
  attempt_once method url headers json_data db_session attempt cf w s
  = (result (backoff attempt cf (exhausted o) w s), after_send s,
     EvHttp req :: trace (backoff attempt cf (exhausted o) w s)).
Proof.
  intros Hm Hs req o Ho.
  destruct (backoff_run attempt cf (exhausted o) w (after_send s))
    as (ctl & t & E & _).
  assert (E0 : backoff attempt cf (exhausted o) w s = (Returns ctl, s, t)).
  { revert E. unfold backoff. destruct (_ <? _)%nat; [|by intros [= <- <-]].
    destruct (_ !! _); [|done]. by intros [= <- <-]. }
  rewrite E0. unfold result, trace. simpl.
  unfold attempt_once, try_except.
  rewrite (attempt_try_run method url headers json_data db_session attempt cf
             w s Hm Hs). fold req. fold o.
  destruct o as [response|e]; simpl in Ho.
  - apply andb_prop in Ho as [H5 Hc]. apply Z.leb_le in H5.
    apply negb_true_iff in Hc.
    unfold handle_response.
    replace ((200 <=? resp_status response) && (resp_status response <? 300))
      with false by lia.
    replace ((400 <=? resp_status response) && (resp_status response <? 500))
      with false by lia.
    replace (500 <=? resp_status response) with true by lia.
    unfold on_5xx, bind, lift. fold (body_text response).
    rewrite heuristic_str, Hc.
    match goal with
    | |- context [backoff attempt cf ?l w (after_send s)] =>
        change (backoff attempt cf l w (after_send s))
          with (backoff attempt cf (exhausted (Returns response)) w (after_send s))
    end.
    by rewrite E.
  - destruct e as [|msg]; simpl str_exn; cbv iota;
      [change (backoff attempt cf _ w (after_send s))
         with (backoff attempt cf (exhausted (Raises TimeoutError)) w (after_send s))
      |change (backoff attempt cf _ w (after_send s))
         with (backoff attempt cf (exhausted (Raises (Exception msg))) w (after_send s))];
      by rewrite E.
Qed.

Lemma quiet_app a b : quiet a -> quiet b -> quiet (a ++ b).
Proof. apply Forall_app_2. Qed.

Lemma quiet_no_http tr : quiet tr -> count is_http tr = 0%nat.
Proof.
  induction 1 as [|e tr He _ IH]; [done|]. simpl. rewrite IH. by destruct e.
Qed.

Lemma quiet_no_sleep tr : quiet tr -> sleeps tr = [].
Proof.
  induction 1 as [|e tr He _ IH]; [done|].
  destruct e; simpl in He; try discriminate; exact IH.
Qed.

Lemma sleeps_app a b : sleeps (a ++ b) = sleeps a ++ sleeps b.
Proof. apply omap_app. Qed.

Ltac quietly :=
  unfold quiet; simpl; rewrite ?app_nil_r;
  repeat first [apply Forall_nil_2 | apply Forall_cons_2 | apply Forall_app_2];
  simpl; auto; try congruence.

Lemma fetch_quiet db_session w s r s1 t :
  _fetch_cf_cookies db_session w s = (r, s1, t) ->
  quiet t /\ n_upstream s1 = n_upstream s.
Proof. unfold _fetch_cf_cookies. intros H. runs; split; quietly. Qed.

Lemma create_quiet db_session w s r s1 t :
  _create_session db_session w s = (r, s1, t) ->
  quiet t /\ n_upstream s1 = n_upstream s.
Proof.
  unfold _create_session, _ensure_cf_cookies, _cf_cookies_valid.
  intros H. runs;
  repeat match goal with
  | H : _fetch_cf_cookies _ _ _ = _ |- _ =>
      apply fetch_quiet in H; destruct H as (? & ?)
  end; split; quietly.
Qed.

(** Opening the session sends nothing upstream and leaves a session. *)
Lemma open_session_quiet db_session w s s0 t0 :
  open_session db_session w s = (Returns tt, s0, t0) ->
  quiet t0 /\ n_upstream s0 = n_upstream s /\ session s0 <> None.
Proof.
  unfold open_session. intros H. runs;
  repeat match goal with
  | H : _create_session _ _ _ = _ |- _ =>
      apply create_quiet in H; destruct H as (? & ?)
  end; (split; [quietly|split; [simpl; congruence|simpl; congruence]]).
Qed.

(** C3 (as the code has it).  When the three requests of a call each meet
    a 5xx answer that is no challenge page, a timeout or a request
    exception, the executor sends exactly [MAX_RETRIES] = 3 requests,
    sleeps 1s after the first and 2s after the second (the third entry of
    [RETRY_DELAYS], 4s, is never used: nothing is slept after the last
    attempt), and returns the failure envelope of the last failure: its
    message carries the retry count for a 5xx answer and for a timeout, and
    the text of the exception for a request exception. *)
Theorem transient_failures_exhaust_budget method url headers json_data db_session w s s0 t0 :
  supported method = true ->
  open_session db_session w s = (Returns tt, s0, t0) ->
  let req := request_of method url headers json_data s0 in
  (forall k, (k < MAX_RETRIES)%nat ->
             transient (upstream w (k + n_upstream s) req) = true) ->
  let x := _make_request method url headers json_data db_session w s in
  result x = Returns (exhausted (upstream w (2 + n_upstream s) req)) /\
  trace x = t0 ++ [EvHttp req; EvSleep 1; EvHttp req; EvSleep 2; EvHttp req] /\
  count is_http (trace x) = MAX_RETRIES /\
  sleeps (trace x) = [1; 2].
Proof.
  intros Hm Ho req Ht x.
  destruct (open_session_quiet _ _ _ _ _ Ho) as (Hq & Hn & Hs).
  rewrite <- Hn in Ht.
  assert (E : x = (Returns (exhausted (upstream w (2 + n_upstream s0) req)),
                   after_send (after_send (after_send s0)),
                   t0 ++ [EvHttp req; EvSleep 1; EvHttp req; EvSleep 2;
                          EvHttp req])).
  { subst x. unfold _make_request, bind at 1. rewrite Ho.
    cbn [retry_loop seq MAX_RETRIES]. unfold bind.
    rewrite (attempt_once_transient method url headers json_data db_session
               0 false w s0 Hm Hs) by (apply (Ht 0%nat); unfold MAX_RETRIES; lia).
    simpl.
    rewrite (attempt_once_transient method url headers json_data db_session
               1 false w (after_send s0) Hm)
      by (simpl; auto; apply (Ht 1%nat); unfold MAX_RETRIES; lia).
    simpl.
    rewrite (attempt_once_transient method url headers json_data db_session
               2 false w (after_send (after_send s0)) Hm)
      by (simpl; auto; apply (Ht 2%nat); unfold MAX_RETRIES; lia).
    simpl. reflexivity. }
  rewrite E, <- Hn. unfold result, trace. simpl.
  split; [done|]. split; [done|].
  rewrite count_app, sleeps_app, (quiet_no_http _ Hq), (quiet_no_sleep _ Hq).
  done.
Qed.

(** Three times 502: the third one is reported with the retry count. *)
Lemma transient_failures_exhaust_budget_witness :
  result (GET bad_gateway __init__)
  = Returns {| success := false; status_code := 502; data := PNone;
               error := Some "服务器错误 502,已重试 3 次"; error_code := PNone |}
  /\ sleeps (trace (GET bad_gateway __init__)) = [1; 2].
Proof.
  destruct (transient_failures_exhaust_budget "GET" invites_url ∅ None db
              bad_gateway __init__
              (set_session (Some {| sess_id := 0; sess_cookies := ∅ |})
                 (set_counts 0 1 0 1 0 0 __init__))
              [EvConfig; EvNewSession]) as (R & _ & _ & S).
  - reflexivity.
  - by vm_compute.
  - intros k Hk. unfold MAX_RETRIES in Hk.
    destruct k as [|[|[|k]]]; [reflexivity..|lia].
  - split; [exact R|exact S].
Defined.

(** C3 as stated fails on two counts.  After three refused connections
    the message is the text of the exception, with no retry count in it;
    and the delays slept are 1s and 2s, never 4s. *)
Lemma no_third_delay_no_count_in_exception_message :
  result (GET unreachable connected)
  = Returns {| success := false; status_code := 0; data := PNone;
               error := Some "请求异常: connection refused";
               error_code := PNone |}
  /\ contains "3" "请求异常: connection refused" = false
  /\ sleeps (trace (GET unreachable connected)) = [1; 2]
  /\ ~ In 4 (sleeps (trace (GET unreachable connected))).
Proof.
  split; [by vm_compute|]. split; [by vm_compute|].
  split; [by vm_compute|]. vm_compute. intros [H|[H|[]]]; discriminate.
Qed.

(** ** The request executor: challenge pages *)

Lemma simplify_challenge body :
  matches_challenge body = true ->
  _simplify_error_text (PStr body)
  = Returns {| message := cloudflare_message;
               code := Some "cloudflare_challenge" |}.
Proof.
  intros H. unfold _simplify_error_text. rewrite heuristic_str, H.
  destruct (negb (truthy (PStr body))) eqn:T; [|done].
  unfold matches_challenge, _looks_like_html in H. by rewrite T in H.
Qed.

Lemma recover_or_ext db_session (f g : M Ctl) w s :
  (forall s', f w s' = g w s') ->
  recover_or db_session f w s = recover_or db_session g w s.
Proof.
  intros E. unfold recover_or, bind.
  destruct (_try_cf_recovery db_session w s) as [[[[]|] s1] t]; [done| |done].
  by rewrite E.
Qed.

(** On a response whose body is inspected and matches the heuristic,
    every status branch is the challenge outcome. *)
Lemma handle_challenge response body attempt cf db_session w s :
  resp_text response = Returns body ->
  matches_challenge body = true ->
  body_inspected response ->
  handle_response response attempt cf db_session w s
  = challenge_outcome (resp_status response) cf db_session w s.
Proof.
  intros Ht Hc Hb. unfold handle_response, challenge_outcome.
    destruct Hb as [[Hs [e He]]|[[Hs Hj]|Hs]].
    - replace ((200 <=? resp_status response) && (resp_status response <? 300))
        with true by lia.
      unfold on_2xx. rewrite He, Ht.
      assert (D : forall (b : bool) (m : M Ctl), (if b then m else m) = m)
        by (by intros []).
      rewrite D. unfold bind at 1, lift at 1. unfold bind at 1, lift at 1.
      rewrite (simplify_challenge body Hc). simpl.
      destruct (negb cf && is_truthy_db db_session); [|done].
      destruct (recover_or _ _ w s) as [[r s1] t]. done.
    - replace ((200 <=? resp_status response) && (resp_status response <? 300))
        with false by lia.
      replace ((400 <=? resp_status response) && (resp_status response <? 500))
        with true by lia.
      unfold on_4xx.
      assert (R : read_error response w s = (Returns (PStr body, PNone), s, [])).
      { unfold read_error, try_except, bind, lift, raise, ret.
        destruct (resp_json response) as [[| | | | |d]|e] eqn:J;
          rewrite ?Ht; try done. by destruct (Hj d). }
      unfold bind at 1. rewrite R. unfold bind at 1, lift at 1. simpl.
      rewrite (simplify_challenge body Hc). simpl.
      destruct (negb cf && is_truthy_db db_session); [|done].
      destruct (recover_or _ _ w s) as [[r s1] t]. done.
    - replace ((200 <=? resp_status response) && (resp_status response <? 300))
        with false by lia.
      replace ((400 <=? resp_status response) && (resp_status response <? 500))
        with false by lia.
      replace (500 <=? resp_status response) with true by lia.
      unfold on_5xx. rewrite Ht. unfold bind at 1, lift at 1.
      rewrite heuristic_str, Hc.
      destruct (negb cf && is_truthy_db db_session).
      + rewrite (recover_or_ext db_session _
                   (ret (Return (challenge_envelope (resp_status response))))).
        * destruct (recover_or _ _ w s) as [[r s1] t]. done.
        * intros s'. unfold bind, lift.
          by rewrite (simplify_challenge body Hc).
      + unfold bind, lift. by rewrite (simplify_challenge body Hc).
Qed.

Lemma read_error_run response body w s :
  resp_text response = Returns body ->
  read_error response w s
  = (Returns (match resp_json response with
              | Returns (PDict d) =>
                  (dict_get d "detail" (PStr body),
                   match dict_get d "error" PNone with
                   | PDict i => dict_get i "code" PNone
                   | _ => dict_get d "code" PNone
                   end)
              | _ => (PStr body, PNone)
              end), s, []).
Proof.
  intros Ht. unfold read_error, try_except, bind, lift, raise, ret.
  destruct (resp_json response) as [[| | | | |d]|e]; rewrite ?Ht; done.
Qed.

(** On a response whose examined text matches the heuristic, every status
    branch is the outcome of a detected challenge. *)
Lemma handle_detected response text attempt cf db_session w s :
  examines response text ->
  matches_challenge text = true ->
  handle_response response attempt cf db_session w s
  = detected_outcome response cf db_session w s.
Proof.
  intros Hx Hc. unfold handle_response, detected_outcome, detected_envelope,
    own_code.
  destruct Hx as [(Hs & [e He] & Ht)|[(Hs & body & Ht & Hd)|(Hs & Ht)]].
  - replace ((200 <=? resp_status response) && (resp_status response <? 300))
      with true by lia.
    replace ((400 <=? resp_status response) && (resp_status response <? 500))
      with false by lia.
    unfold on_2xx. rewrite He, Ht.
    assert (D : forall (b : bool) (m : M Ctl), (if b then m else m) = m)
      by (by intros []).
    rewrite D. unfold bind at 1, lift at 1. unfold bind at 1, lift at 1.
    rewrite (simplify_challenge text Hc). simpl.
    destruct (negb cf && is_truthy_db db_session); [|done].
    destruct (recover_or _ _ w s) as [[r s1] t]. done.
  - replace ((200 <=? resp_status response) && (resp_status response <? 300))
      with false by lia.
    replace ((400 <=? resp_status response) && (resp_status response <? 500))
      with true by lia.
    unfold on_4xx. unfold bind at 1. rewrite (read_error_run response body w s Ht).
    assert (E : exists c,
              match resp_json response with
              | Returns (PDict d) =>
                  (dict_get d "detail" (PStr body),
                   match dict_get d "error" PNone with
                   | PDict i => dict_get i "code" PNone
                   | _ => dict_get d "code" PNone
                   end)
              | _ => (PStr body, PNone)
              end = (PStr text, c) /\
              c = match resp_json response with
                  | Returns (PDict d) =>
                      match dict_get d "error" PNone with
                      | PDict i => dict_get i "code" PNone
                      | _ => dict_get d "code" PNone
                      end
                  | _ => PNone
                  end).
    { destruct (resp_json response) as [[| | | | |d]|e]; rewrite Hd; eauto. }
    destruct E as (c & -> & <-).
    unfold bind at 1, lift at 1. cbn [fst snd].
    rewrite (simplify_challenge text Hc). simpl.
    destruct (negb cf && is_truthy_db db_session); [|done].
    destruct (recover_or _ _ w s) as [[r s1] t]. done.
  - replace ((200 <=? resp_status response) && (resp_status response <? 300))
      with false by lia.
    replace ((400 <=? resp_status response) && (resp_status response <? 500))
      with false by lia.
    replace (500 <=? resp_status response) with true by lia.
    unfold on_5xx. fold (body_text response). rewrite Ht.
    unfold bind at 1, lift at 1. rewrite heuristic_str, Hc.
    destruct (negb cf && is_truthy_db db_session).
    + rewrite (recover_or_ext db_session _
                 (ret (Return (fail_envelope (resp_status response)
                                 cloudflare_message
                                 (py_or PNone (PStr "cloudflare_challenge")))))).
      * destruct (recover_or _ _ w s) as [[r s1] t]. done.
      * intros s'. unfold bind, lift.
        by rewrite (simplify_challenge text Hc).
    + unfold bind, lift. by rewrite (simplify_challenge text Hc).
Qed.

Lemma detected_outcome_trace response cf db_session w s :
  let x := detected_outcome response cf db_session w s in
  (cf = false -> db_session <> None -> count is_recovery (trace x) = 1%nat) /\
  (cf = true \/ db_session = None ->
   x = (Returns (Return (detected_envelope response)), s, [])).
Proof.
  unfold detected_outcome. split.
  - intros -> Hd. destruct db_session as [d|]; [simpl|done].
    unfold recover_or, bind, trace.
    destruct (_try_cf_recovery (Some d) w s) as [[r s1] t] eqn:Hr.
    apply recovery_trace in Hr as [Hr _].
    destruct r as [[]|]; simpl; rewrite ?count_app, ?Hr; done.
  - intros [->| ->]; [done|]. by rewrite andb_false_r.
Qed.

(** A text that the simplifier marks as a challenge matches the
    heuristic. *)
Lemma simplified_challenge_matches v x :
  _simplify_error_text v = Returns x -> is_challenge x = true ->
  exists text, v = PStr text /\ matches_challenge text = true.
Proof.
  unfold _simplify_error_text, is_challenge.
  destruct (negb (truthy v)); [by intros [= <-]|].
  destruct (and_then (_looks_like_html v) (_is_cloudflare_challenge v))
    as [[]|] eqn:H; [| |done].
  - intros _ _. destruct v as [| | |text| |];
      try (unfold _looks_like_html in H; by destruct (negb _)).
    exists text. split; [done|]. unfold matches_challenge. by rewrite H.
  - destruct (_looks_like_html v) as [[]|]; [by intros [= <-]| |done].
    destruct v; try done. by intros [= <-].
Qed.

(** A recovery is started on a detected challenge only. *)
Lemma recovery_needs_detection response attempt cf db_session w s :
  (0 < count is_recovery (trace (handle_response response attempt cf db_session w s)))%nat ->
  exists text, examines response text /\ matches_challenge text = true.
Proof.
  destruct (handle_response response attempt cf db_session w s) as [[r s1] t] eqn:H.
  unfold trace. simpl. unfold handle_response in H.
  destruct ((200 <=? resp_status response) && (resp_status response <? 300)) eqn:H2.
  { unfold on_2xx, recover_or in H. runs; simpl; try lia.
    all: destruct (simplified_challenge_matches _ _ H ltac:(
           repeat match goal with
           | H : _ && _ = true |- _ => apply andb_prop in H; destruct H
           end; done)) as (text & [= <-] & M).
    all: intros _; exists a; split; [|done]; left.
    all: split; [lia|]; split; [eauto|done]. }
  destruct ((400 <=? resp_status response) && (resp_status response <? 500)) eqn:H4.
  { unfold on_4xx, recover_or in H.
    apply bind_inv in H as [(parsed & s2 & t1 & t2 & H0 & H & ->)|(e & H0 & ->)];
      cycle 1.
    { unfold read_error in H0. runs; simpl; lia. }
    assert (exists body, resp_text response = Returns body /\ s2 = s /\ t1 = [])
      as (body & Ht & -> & ->).
    { unfold read_error in H0. runs; eauto. }
    rewrite (read_error_run response body w s Ht) in H0.
    injection H0 as <-. simpl.
    runs; simpl; try lia.
    all: destruct (simplified_challenge_matches _ _ H ltac:(
           repeat match goal with
           | H : _ && _ = true |- _ => apply andb_prop in H; destruct H
           end; done)) as (text & E & M).
    all: intros _; exists text; split; [|done]; right; left.
    all: split; [lia|]; exists body; split; [done|].
    all: destruct (resp_json response) as [[| | | | |d]|]; done. }
  destruct (500 <=? resp_status response) eqn:H5; [|by inv_run H; simpl; lia].
  unfold on_5xx, recover_or in H. fold (body_text response) in H.
  apply bind_inv in H as [(ch & s2 & t1 & t2 & H0 & H & ->)|(e & H0 & ->)];
    [|inv_run H0; simpl; lia].
  rewrite heuristic_str in H0. inv_run H0. simpl.
  destruct (matches_challenge (body_text response)) eqn:M.
  - intros _. exists (body_text response). split; [|done]. right; right.
    split; [lia|done].
  - match type of H with
    | backoff ?a ?c ?l ?w' ?s' = _ =>
        destruct (backoff_run a c l w' s') as (ctl & t' & E & Z & _)
    end.
    rewrite E in H. injection H as _ _ <-. lia.
Qed.

(** C4 (as the code has it).  On every response the executor matches one
    text against the challenge heuristic: the body under a status from 500
    on, under a 2xx whose body does not decode as JSON, and under a 4xx
    whose body does not decode to a JSON object with a [detail]; the
    [detail] of the object under a 4xx that has one.  Whenever that text
    matches, the response gets the challenge outcome whatever the status:
    one recovery if none succeeded yet in the call and a database session
    is given, and otherwise, and when the recovery fails, the failure
    envelope with the challenge message, whose [error_code] is
    [cloudflare_challenge] unless a 4xx object brought a code of its
    own. *)
Theorem challenge_body_classified response text attempt cf db_session w s :
  examines response text ->
  matches_challenge text = true ->
  let x := handle_response response attempt cf db_session w s in
  x = detected_outcome response cf db_session w s /\
  (cf = false -> db_session <> None -> count is_recovery (trace x) = 1%nat) /\
  (cf = true \/ db_session = None ->
   x = (Returns (Return (detected_envelope response)), s, [])) /\
  (truthy (own_code response) = false ->
   detected_envelope response = challenge_envelope (resp_status response)).
Proof.
  intros Hx Hc x.
  assert (E : x = detected_outcome response cf db_session w s)
    by (by apply (handle_detected response text)).
  split; [exact E|]. rewrite E.
  destruct (detected_outcome_trace response cf db_session w s) as [T1 T2].
  split; [exact T1|]. split; [exact T2|].
  intros Ho. unfold detected_envelope, py_or. by rewrite Ho.
Qed.

(** Status 200, 403 and 503 with the challenge page as body, a 403 JSON
    object without [detail], and a 403 object with the page as [detail],
    in a call that has used its recovery. *)
Lemma challenge_body_classified_witness :
  handle_response (text_response 200 challenge_page) 0 true db unreachable connected
  = (Returns (Return (challenge_envelope 200)), connected, [])
  /\ handle_response (text_response 403 challenge_page) 0 true db unreachable connected
    = (Returns (Return (challenge_envelope 403)), connected, [])
  /\ handle_response (text_response 503 challenge_page) 0 true db unreachable connected
    = (Returns (Return (challenge_envelope 503)), connected, [])
  /\ handle_response forbidden_object 0 true db unreachable connected
    = (Returns (Return (challenge_envelope 403)), connected, [])
  /\ handle_response forbidden_page_in_detail 0 true db unreachable connected
    = (Returns (Return (challenge_envelope 403)), connected, []).
Proof.
  split; [|split; [|split; [|split]]].
  - destruct (challenge_body_classified (text_response 200 challenge_page)
                challenge_page 0 true db unreachable connected)
      as (_ & _ & H & _); [|by vm_compute|apply H; by left].
    left. split; [simpl; lia|]. split; [by eexists|done].
  - destruct (challenge_body_classified (text_response 403 challenge_page)
                challenge_page 0 true db unreachable connected)
      as (_ & _ & H & _); [|by vm_compute|apply H; by left].
    right; left. split; [simpl; lia|]. by exists challenge_page.
  - destruct (challenge_body_classified (text_response 503 challenge_page)
                challenge_page 0 true db unreachable connected)
      as (_ & _ & H & _); [|by vm_compute|apply H; by left].
    right; right. split; [simpl; lia|done].
  - destruct (challenge_body_classified forbidden_object
                forbidden_object_text 0 true db unreachable connected)
      as (_ & _ & H & _); [|by vm_compute|apply H; by left].
    right; left. split; [simpl; lia|]. by exists forbidden_object_text.
  - destruct (challenge_body_classified forbidden_page_in_detail
                challenge_page 0 true db unreachable connected)
      as (_ & _ & H & _); [|by vm_compute|apply H; by left].
    right; left. split; [simpl; lia|]. by eexists.
Defined.

(** C4 as stated fails: the executor decodes the body before it looks at
    it, and looks at it under some statuses only.  A 200 whose body is the
    challenge page as a JSON string matches the heuristic and is a success;
    a 403 JSON object with the page in a field next to [detail] matches it
    and is a plain client error; a 302 with the page as body is not
    classified at all and the loop goes on; and a 403 object without
    [detail] that brings a code of its own is a challenge whose envelope
    carries that code. *)
Lemma decodable_challenge_body_is_no_challenge :
  matches_challenge quoted_page = true
  /\ handle_response page_as_json_string 0 false db unreachable connected
    = (Returns (Return (ok_envelope 200 (PStr challenge_page))), connected, [])
  /\ matches_challenge forbidden_with_page_text = true
  /\ handle_response forbidden_with_page 0 false db unreachable connected
    = (Returns (Return (fail_envelope 403 "Forbidden" PNone)), connected, [])
  /\ handle_response redirect_with_page 0 false db unreachable connected
    = (Returns (Continue false), connected, [])
  /\ matches_challenge
       (dumps (PDict [("code", PStr "forbidden"); ("page", PStr challenge_page)]))
     = true
  /\ handle_response
       (json_response 403
          (PDict [("code", PStr "forbidden"); ("page", PStr challenge_page)]))
       0 true db unreachable connected
    = (Returns (Return (fail_envelope 403 cloudflare_message (PStr "forbidden"))),
       connected, []).
Proof. repeat split; by vm_compute. Qed.

(** ** The request executor: after a recovery, and client errors *)

(** A recovery announces itself and then only touches the clearance cache
    and the session object. *)
Lemma recovery_quiet db_session w s r s1 t :
  _try_cf_recovery db_session w s = (r, s1, t) ->
  exists t', t = EvRecovery :: t' /\ quiet t'.
Proof.
  unfold _try_cf_recovery. intros H. runs;
  repeat match goal with
  | H : _create_session _ _ _ = _ |- _ =>
      apply create_quiet in H; destruct H as (? & ?)
  | H : _fetch_cf_cookies _ _ _ = _ |- _ =>
      apply fetch_quiet in H; destruct H as (? & ?)
  end; simpl; eexists; (split; [reflexivity|quietly]).
Qed.




(** After a recovery on the last attempt the [for] loop is over: nothing
    is sent again and the call ends behind the loop, with the envelope that
    the source marks as not reachable. *)
Lemma recovery_on_last_attempt_falls_through :
  result (GET challenge_on_last_attempt connected)
  = Returns {| success := false; status_code := 0; data := PNone;
               error := Some "未知错误"; error_code := PNone |}
  /\ urls (trace (GET challenge_on_last_attempt connected))
    = [invites_url; invites_url; invites_url]
  /\ last (trace (GET challenge_on_last_attempt connected)) = Some EvNewSession
  /\ count is_recovery (trace (GET challenge_on_last_attempt connected)) = 1%nat.
Proof. repeat split; by vm_compute. Qed.

(** A 4xx answer whose error message the simplifier accepts, and that is
    no challenge, ends the call at once: one request, no sleep. *)
Lemma client_error_is_terminal method url headers json_data db_session
    attempt cf w s response parsed simplified :
  supported method = true ->
  session s <> None ->
  let req := request_of method url headers json_data s in
  upstream w (n_upstream s) req = Returns response ->
  400 <= resp_status response < 500 ->
  read_error response w (after_send s) = (Returns parsed, after_send s, []) ->
  _simplify_error_text parsed.1 = Returns simplified ->
  is_challenge simplified = false ->
  attempt_once method url headers json_data db_session attempt cf w s
  = (Returns (Return (fail_envelope (resp_status response) (message simplified)
                        (py_or parsed.2 (of_opt_str (code simplified))))),
     after_send s, [EvHttp req]).
Proof.
  intros Hm Hs req Hu H4 Hp Hsi Hc.
  assert (E : handle_response response attempt cf db_session w (after_send s)
              = (Returns (Return (fail_envelope (resp_status response)
                                    (message simplified)
                                    (py_or parsed.2 (of_opt_str (code simplified))))),
                 after_send s, [])).
  { unfold handle_response.
    replace ((200 <=? resp_status response) && (resp_status response <? 300))
      with false by lia.
    replace ((400 <=? resp_status response) && (resp_status response <? 500))
      with true by lia.
    unfold on_4xx, bind at 1. rewrite Hp.
    unfold bind at 1, lift at 1. by rewrite Hsi, Hc. }
  unfold attempt_once, try_except.
  rewrite (attempt_try_run method url headers json_data db_session attempt cf
             w s Hm Hs). fold req. rewrite Hu. cbv zeta. by rewrite E.
Qed.

(** C5 (the code at the failing input).  A 422 whose JSON [detail] is a
    list: [_simplify_error_text] calls [lstrip] on the list, the
    [AttributeError] reaches the exception handler of the attempt, and the
    client error is retried with backoff like a request exception. *)
Theorem client_error_with_structured_detail_is_retried :
  result (GET always_unprocessable connected)
  = Returns {| success := false; status_code := 0; data := PNone;
               error := Some "请求异常: 'list' object has no attribute 'lstrip'";
               error_code := PNone |}
  /\ count is_http (trace (GET always_unprocessable connected)) = 3%nat
  /\ sleeps (trace (GET always_unprocessable connected)) = [1; 2].
Proof. repeat split; by vm_compute. Qed.

(** ** Teardown *)

(** When [session.close()] raises, [close] raises and the session stays. *)
Lemma close_failure w s sess e :
  session s = Some sess ->
  close_AsyncSession w (n_close s) = Raises e ->
  result (close w s) = Raises e /\ session (final (close w s)) = Some sess.
Proof.
  intros Hs Hc. unfold close, bind, get, close_session, result, final.
  rewrite Hs, Hc. simpl. done.
Qed.

(** When [session.close()] returns, the session is gone. *)
Lemma close_success w s :
  close_AsyncSession w (n_close s) = Returns tt ->
  result (close w s) = Returns tt /\ session (final (close w s)) = None.
Proof.
  intros Hc. unfold close, bind, get, close_session, modify, result, final.
  destruct (session s) eqn:Hs; simpl; [by rewrite Hc|done].
Qed.

(** C9 (the code at the failing input).  [close] has no [try] around
    [session.close()]: when the release raises, the exception leaves
    [close] and [self.session] still holds the session.  The recovery path
    does guard the same call: there the failure is swallowed and the
    session is replaced. *)
Theorem close_keeps_session_when_release_fails :
  result (close stuck_connection connected)
  = Raises (Exception "Session is closed")
  /\ session (final (close stuck_connection connected)) = session connected
  /\ result (_try_cf_recovery db stuck_connection connected) = Returns true
  /\ session (final (_try_cf_recovery db stuck_connection connected))
    = Some {| sess_id := 0; sess_cookies := {[ "cf_clearance" := "abc" ]} |}.
Proof. repeat split; by vm_compute. Qed.

(** ** The clearance cache *)

Lemma Qltb_lt a b : Qltb a b = true <-> (a < b)%Q.
Proof.
  unfold Qltb. destruct (Qlt_le_dec a b) as [H|H]; split; try done.
  intros H'. exfalso. by apply (Qlt_not_le a b).
Qed.

Lemma valid_run w s :
  _cf_cookies_valid w s
  = if cookies_truthy (_cf_cookies s)
    then (Returns (Qltb (age w s) CF_COOKIE_TTL), after_clock s, [])
    else (Returns false, s, []).
Proof.
  unfold _cf_cookies_valid, bind, get, now, ret.
  by destruct (cookies_truthy (_cf_cookies s)).
Qed.

(** With the solver switched on, fetching posts to it once. *)
Lemma fetch_posts_once db_session w s c u :
  get_flaresolverr_config w (n_config s) db_session = Returns c ->
  cfg_enabled c = true -> cfg_url c = Some u -> u <> "" ->
  count is_solver (trace (_fetch_cf_cookies db_session w s)) = 1%nat.
Proof.
  intros Hc He Hu Hn.
  destruct (_fetch_cf_cookies db_session w s) as [[r s1] t] eqn:H.
  unfold _fetch_cf_cookies in H. inv_run H; inv_run Hm; [|congruence].
  assert (a = c) as -> by congruence.
  rewrite He, Hu in Hk. simpl in Hk.
  destruct (String.eqb u "") eqn:Eu; [by apply String.eqb_eq in Eu|].
  simpl in Hk. runs; by unfold trace.
Qed.

(** C6.  The cached cookies are valid exactly when there are cookies and
    their age is below 1800 seconds.  At the age of 1799 seconds they are
    valid and [_ensure_cf_cookies] does nothing (no settings read, no call
    of the solver); at 1801 seconds they are not and [_ensure_cf_cookies]
    fetches again, with one call of the solver when it is switched on. *)
Theorem cookies_valid_below_ttl db_session w s :
  (result (_cf_cookies_valid w s) = Returns true <->
   cookies_truthy (_cf_cookies s) = true /\ (age w s < 1800)%Q) /\
  (cookies_truthy (_cf_cookies s) = true -> (age w s == 1799)%Q ->
   result (_cf_cookies_valid w s) = Returns true /\
   _ensure_cf_cookies db_session w s = (Returns tt, after_clock s, [])) /\
  (cookies_truthy (_cf_cookies s) = true -> (age w s == 1801)%Q ->
   result (_cf_cookies_valid w s) = Returns false /\
   trace (_ensure_cf_cookies db_session w s)
   = trace (_fetch_cf_cookies db_session w (after_clock s)) /\
   final (_ensure_cf_cookies db_session w s)
   = final (_fetch_cf_cookies db_session w (after_clock s)) /\
   forall c u,
     get_flaresolverr_config w (n_config s) db_session = Returns c ->
     cfg_enabled c = true -> cfg_url c = Some u -> u <> "" ->
     count is_solver (trace (_ensure_cf_cookies db_session w s)) = 1%nat).
Proof.
  split; [|split].
  - rewrite valid_run. unfold result.
    destruct (cookies_truthy (_cf_cookies s)); simpl.
    + split.
      * intros [= H]. split; [done|]. by apply Qltb_lt.
      * intros [_ H]. f_equal. by apply Qltb_lt.
    + split; [done|]. by intros [? _].
  - intros Hc Ha.
    assert (V : Qltb (age w s) CF_COOKIE_TTL = true).
    { apply Qltb_lt. rewrite Ha. reflexivity. }
    unfold _ensure_cf_cookies, bind. rewrite valid_run, Hc, V. done.
  - intros Hc Ha.
    assert (V : Qltb (age w s) CF_COOKIE_TTL = false).
    { apply not_true_is_false. rewrite Qltb_lt, Ha. by intros H. }
    assert (E : forall x : outcome bool * St * list Event,
      _fetch_cf_cookies db_session w (after_clock s) = x ->
      _ensure_cf_cookies db_session w s
      = (match x.1.1 with Returns _ => Returns tt | Raises e => Raises e end,
         x.1.2, x.2)).
    { intros [[r s1] t] Hx. unfold _ensure_cf_cookies, bind.
      rewrite valid_run, Hc, V. simpl. rewrite Hx.
      destruct r; simpl; by rewrite ?app_nil_r. }
    rewrite valid_run, Hc, V.
    rewrite (E _ eq_refl). unfold result, trace, final. simpl.
    split; [done|]. split; [done|]. split; [done|].
    intros c u H1 H2 H3 H4.
    apply (fetch_posts_once db_session w (after_clock s) c u); auto.
Qed.

(** Cookies captured at second 1000: reused at 2799, fetched again with
    one call of the solver at 2801. *)
Lemma cookies_valid_below_ttl_witness :
  _ensure_cf_cookies db (at_time 2799 (working_solver [])) cleared
  = (Returns tt, after_clock cleared, [])
  /\ result (_cf_cookies_valid (at_time 2801 (working_solver [])) cleared)
    = Returns false
  /\ count is_solver
      (trace (_ensure_cf_cookies db (at_time 2801 (working_solver [])) cleared))
    = 1%nat.
Proof.
  destruct (cookies_valid_below_ttl db (at_time 2799 (working_solver [])) cleared)
    as (_ & Early & _).
  destruct (cookies_valid_below_ttl db (at_time 2801 (working_solver [])) cleared)
    as (_ & _ & Late).
  split; [|split].
  - apply Early; by vm_compute.
  - apply Late; by vm_compute.
  - destruct Late as (_ & _ & _ & Posts); [by vm_compute|by vm_compute|].
    apply (Posts solver_on "http://flaresolverr:8191/"); by vm_compute.
Defined.

(** ** Listing the members *)

Lemma member_inj : Inj (=) (=) member.
Proof.
  intros i j H. unfold member in H. simpl in H.
  injection H as H. by apply (inj pretty).
Qed.

(** C7.  Against a team of 120 served in pages of 50, 50 and 20,
    [get_members] sends exactly three requests, for the offsets 0, 50 and
    100, leaves its loop (any bound of three passes or more gives the same
    run) and returns the 120 members in order, each once. *)
Theorem members_of_a_team_of_120 (extra : nat) :
  let x := get_members (3 + extra) "token" "acct-1" db team_of_120 __init__ in
  result x
  = Returns (Some {| members_success := true;
                     members := map member (seq 0 120);
                     total := 120;
                     members_error := None;
                     members_error_code := PNone |})
  /\ urls (trace x)
    = [members_url "acct-1" 0; members_url "acct-1" 50; members_url "acct-1" 100]
  /\ length (map member (seq 0 120)) = 120%nat
  /\ NoDup (map member (seq 0 120)).
Proof.
  cbn [Nat.add]. split; [by vm_compute|]. split; [by vm_compute|].
  split; [by rewrite length_map, length_seq|].
  apply (@NoDup_fmap_2 _ _ member member_inj). apply NoDup_seq.
Qed.

Lemma members_loop_total fuel access_token account_id db_session :
  forall all_members offset w s r s' tr,
    members_loop fuel access_token account_id db_session all_members offset w s
    = (Returns (Some r), s', tr) ->
    members_success r = true ->
    total r = Z.of_nat (length (members r)).
Proof.
  induction fuel as [|fuel IH]; intros all_members offset w s r s' tr H Hok.
  - simpl in H. inv_run H.
  - cbn [members_loop] in H. runs; simpl in *; try done.
    eapply IH; eauto.
Qed.

(** C10.  When [get_members] succeeds, the [total] of its result is the
    length of the list of members that it returns, whatever totals the
    upstream reported on the way. *)
Theorem total_is_number_of_members fuel access_token account_id db_session w s r :
  result (get_members fuel access_token account_id db_session w s)
  = Returns (Some r) ->
  members_success r = true ->
  total r = Z.of_nat (length (members r)).
Proof.
  unfold get_members, result. intros H Hok.
  destruct (members_loop _ _ _ _ _ _ w s) as [[o s'] tr] eqn:E.
  simpl in H. subst o. by eapply members_loop_total.
Qed.

(** The upstream reports 120 members, then 100: the loop ends with the
    100 delivered and [total] is 100. *)
Lemma total_is_number_of_members_witness :
  result (get_members 2 "token" "acct-1" db shrinking_team __init__)
  = Returns (Some first_hundred)
  /\ total first_hundred = Z.of_nat (length (members first_hundred)).
Proof.
  assert (R : result (get_members 2 "token" "acct-1" db shrinking_team __init__)
              = Returns (Some first_hundred)) by (by vm_compute).
  split; [exact R|].
  apply (total_is_number_of_members 2 "token" "acct-1" db shrinking_team
           __init__ first_hundred R).
  reflexivity.
Defined.

(** ** The request executor: what every call keeps *)

Lemma quiet_no_recovery t : quiet t -> count is_recovery t = 0%nat.
Proof.
  induction 1 as [|e t He _ IH]; [done|]. simpl. rewrite IH. by destruct e.
Qed.

Lemma requests_are_app P a b :
  requests_are P a -> requests_are P b -> requests_are P (a ++ b).
Proof. apply Forall_app_2. Qed.

Lemma no_http_requests P tr : count is_http tr = 0%nat -> requests_are P tr.
Proof.
  induction tr as [|e tr IH]; [constructor|]. simpl.
  destruct e; simpl; intros H; try discriminate; constructor; auto;
    apply IH; lia.
Qed.

Lemma request_of_same method url headers json_data s :
  same_request method url headers json_data
    (request_of method url headers json_data s).
Proof.
  unfold same_request, request_of. simpl.
  split; [done|]. split; [done|]. split; [done|]. intros k Hk.
  destruct (_cf_user_agent s) as [ua|]; [|done].
  destruct (String.eqb ua ""); [done|]. by rewrite lookup_insert_ne.
Qed.

Lemma recovery_calm db_session w s r s1 t :
  _try_cf_recovery db_session w s = (r, s1, t) ->
  count is_http t = 0%nat /\ sleeps t = [].
Proof.
  intros H. destruct (recovery_quiet _ _ _ _ _ _ H) as (t' & -> & Hq).
  split; [simpl; by apply quiet_no_http|].
  change (sleeps t' = []). by apply quiet_no_sleep.
Qed.

Ltac use_calm :=
  repeat match goal with
  | H : _try_cf_recovery _ _ _ = _ |- _ =>
      apply recovery_calm in H; destruct H as (? & ?)
  end.

Ltac close_shape :=
  unfold sleeps_once, result, trace; simpl;
  rewrite ?app_nil_r, ?count_app, ?sleeps_app; simpl;
  repeat match goal with
  | H : count is_http _ = 0%nat |- _ => rewrite H
  | H : sleeps _ = [] |- _ => rewrite H
  end; simpl.

Lemma backoff_shape attempt cf last w s r s1 t :
  backoff attempt cf last w s = (r, s1, t) ->
  s1 = s /\ count is_http t = 0%nat /\ sleeps_once attempt cf (r, s1, t) /\
  (forall e, r = Returns (Return e) -> e = last) /\
  (forall cf', r = Returns (Continue cf') -> cf' = cf) /\
  exists ctl, r = Returns ctl.
Proof.
  intros H. pose proof H as H'.
  destruct (backoff_run attempt cf last w s) as (ctl & t' & E & _ & Hc).
  rewrite E in H'. injection H' as <- <- <-.
  unfold backoff in H. destruct (attempt <? MAX_RETRIES - 1)%nat eqn:Hlt.
  - apply Nat.ltb_lt in Hlt. destruct (RETRY_DELAYS !! attempt) as [d|] eqn:Hd.
    + runs. split; [done|]. split; [done|]. split.
      * right. exists d. close_shape. auto.
      * split; [done|]. split; [by intros ? [= <-]|eauto].
    + inv_run H.
  - runs. split; [done|]. split; [done|]. split; [by left|].
    split; [by intros ? [= <-]|]. split; [done|eauto].
Qed.

Lemma on_2xx_shape response cf db_session w s r s1 t :
  on_2xx response cf db_session w s = (r, s1, t) ->
  count is_http t = 0%nat /\ sleeps t = [].
Proof.
  unfold on_2xx, recover_or. intros H. runs; use_calm; close_shape; auto.
Qed.

Lemma on_4xx_shape response cf db_session w s r s1 t :
  on_4xx response cf db_session w s = (r, s1, t) ->
  count is_http t = 0%nat /\ sleeps t = [].
Proof.
  unfold on_4xx, read_error, recover_or. intros H.
  runs; use_calm; close_shape; auto.
Qed.

Lemma on_5xx_shape response attempt cf db_session w s r s1 t :
  on_5xx response attempt cf db_session w s = (r, s1, t) ->
  count is_http t = 0%nat /\ sleeps_once attempt cf (r, s1, t).
Proof.
  unfold on_5xx, recover_or. intros H. runs; use_calm.
  all: try match goal with
  | H : backoff _ _ _ _ _ = _ |- _ =>
      apply backoff_shape in H; destruct H as (? & ? & ? & _)
  end.
  all: try (close_shape; split; [done|by left]).
  all: simpl; rewrite ?app_nil_r; auto.
Qed.

Lemma handle_response_shape response attempt cf db_session w s r s1 t :
  handle_response response attempt cf db_session w s = (r, s1, t) ->
  count is_http t = 0%nat /\ sleeps_once attempt cf (r, s1, t).
Proof.
  unfold handle_response. intros H.
  destruct ((200 <=? resp_status response) && (resp_status response <? 300)).
  { apply on_2xx_shape in H as [? ?]. split; [done|by left]. }
  destruct ((400 <=? resp_status response) && (resp_status response <? 500)).
  { apply on_4xx_shape in H as [? ?]. split; [done|by left]. }
  destruct (500 <=? resp_status response); [by apply on_5xx_shape in H|].
  inv_run H. split; [done|by left].
Qed.

(** Without a session nothing is sent: the attribute access raises. *)
Lemma attempt_try_no_session method url headers json_data db_session attempt cf w s :
  session s = None ->
  exists e, attempt_try method url headers json_data db_session attempt cf w s
            = (Raises e, s, []).
Proof.
  intros Hs. unfold attempt_try, dispatch, bind, get, raise. rewrite Hs.
  destruct (String.eqb method "GET"); [eauto|].
  destruct (String.eqb method "POST"); [eauto|].
  destruct (String.eqb method "DELETE"); eauto.
Qed.

Lemma attempt_try_shape method url headers json_data db_session attempt cf w s r s1 t :
  attempt_try method url headers json_data db_session attempt cf w s = (r, s1, t) ->
  (count is_http t <= 1)%nat /\
  requests_are (same_request method url headers json_data) t /\
  sleeps_once attempt cf (r, s1, t).
Proof.
  intros H.
  destruct (supported method) eqn:Hm; cycle 1.
  { unfold supported in Hm.
    apply orb_false_elim in Hm as [Hm D]. apply orb_false_elim in Hm as [G P].
    rewrite (attempt_try_unsupported _ _ _ _ _ _ _ _ _ G P D) in H.
    injection H as <- <- <-. split; [simpl; lia|]. split; [constructor|by left]. }
  destruct (session s) as [a|] eqn:Hs; cycle 1.
  { destruct (attempt_try_no_session method url headers json_data db_session
                attempt cf w s Hs) as [e E].
    rewrite E in H. injection H as <- <- <-.
    split; [simpl; lia|]. split; [constructor|by left]. }
  rewrite (attempt_try_run method url headers json_data db_session attempt cf w s Hm)
    in H by congruence.
  pose proof (request_of_same method url headers json_data s) as R.
  destruct (upstream w (n_upstream s) _) as [response|e].
  - destruct (handle_response response attempt cf db_session w (after_send s))
      as [[r2 s2] t2] eqn:E.
    apply handle_response_shape in E as [Hh Hsl].
    unfold result, final, trace in H. simpl in H. injection H as <- <- <-.
    split; [simpl; lia|]. split.
    + apply Forall_cons_2; [done|]. by apply no_http_requests.
    + destruct Hsl as [Hsl|(d & ? & ? & Hsl & ?)]; [by left|].
      right. exists d. done.
  - injection H as <- <- <-. split; [simpl; lia|]. split.
    + apply Forall_cons_2; [done|constructor].
    + by left.
Qed.

(** One attempt sends at most one request, which is the request of the
    call, and sleeps at most the delay of its index. *)
Lemma attempt_once_shape method url headers json_data db_session attempt cf w s r s1 t :
  attempt_once method url headers json_data db_session attempt cf w s = (r, s1, t) ->
  (count is_http t <= 1)%nat /\
  requests_are (same_request method url headers json_data) t /\
  (sleeps t = [] \/
   exists d, RETRY_DELAYS !! attempt = Some d /\ (attempt < MAX_RETRIES - 1)%nat /\
             sleeps t = [d]).
Proof.
  unfold attempt_once. intros H. inv_run H.
  - apply attempt_try_shape in Hm as (H1 & H2 & [H3|(d & ? & ? & H3 & _)]).
    + auto.
    + split; [done|]. split; [done|]. right. by exists d.
  - apply attempt_try_shape in Hm as (H1 & H2 & [H3|(d & ? & ? & _ & H4)]);
      [|discriminate].
    unfold trace in H3. simpl in H3.
    assert (B : exists last, backoff attempt cf last w s0 = (r, s1, t1))
      by (destruct e; eauto).
    destruct B as [last B].
    apply backoff_shape in B as (_ & B1 & B2 & _).
    rewrite count_app, sleeps_app, B1, H3. simpl.
    split; [lia|]. split.
    + apply requests_are_app; [done|by apply no_http_requests].
    + destruct B2 as [B2|(d & ? & ? & B2 & _)]; [by left|].
      right. by exists d.
Qed.

Lemma retry_loop_shape method url headers json_data db_session attempts :
  forall cf w s r s1 t,
    retry_loop method url headers json_data db_session attempts cf w s
    = (r, s1, t) ->
    (count is_http t <= length attempts)%nat /\
    requests_are (same_request method url headers json_data) t /\
    sleeps t `sublist_of` delays_of attempts.
Proof.
  induction attempts as [|attempt rest IH]; intros cf w s r s1 t H.
  - simpl in H. inv_run H. split; [done|]. split; [constructor|done].
  - cbn [retry_loop] in H. inv_run H.
    + apply attempt_once_shape in Hm as (A1 & A2 & A3).
      assert (K : (count is_http t1 <= length rest)%nat /\
                  requests_are (same_request method url headers json_data) t1 /\
                  sleeps t1 `sublist_of` delays_of rest).
      { destruct a as [e|cf']; [|by eapply IH].
        inv_run Hk. split; [simpl; lia|]. split; [constructor|].
        apply sublist_nil_l. }
      destruct K as (K1 & K2 & K3).
      rewrite count_app, sleeps_app. split; [simpl; lia|].
      split; [by apply requests_are_app|].
      unfold delays_of. cbn [omap list_omap]. fold (delays_of rest).
      destruct A3 as [->|(d & Hd & Hlt & ->)]; simpl.
      * destruct (if (attempt <? MAX_RETRIES - 1)%nat then _ else _);
          [by apply sublist_cons|done].
      * apply Nat.ltb_lt in Hlt. change (MAX_RETRIES - 1)%nat with 2%nat in Hlt.
        rewrite Hlt, Hd. by apply sublist_skip.
    + destruct (attempt_once_post method url headers json_data db_session
                  attempt cf w s) as (? & ? & ? & E & _).
      congruence.
Qed.

Lemma make_request_shape method url headers json_data db_session w s r s1 t :
  _make_request method url headers json_data db_session w s = (r, s1, t) ->
  (count is_http t <= MAX_RETRIES)%nat /\
  requests_are (same_request method url headers json_data) t /\
  sleeps t `sublist_of` [1; 2].
Proof.
  intros H. unfold _make_request in H. inv_run H.
  - assert (Q : quiet t0).
    { destruct a. by apply open_session_quiet in Hm as [? _]. }
    apply retry_loop_shape in Hk as (K1 & K2 & K3).
    rewrite length_seq in K1.
    rewrite count_app, sleeps_app, (quiet_no_http _ Q), (quiet_no_sleep _ Q).
    split; [simpl; lia|]. split; [|done].
    apply requests_are_app; [|done].
    apply no_http_requests. by apply quiet_no_http.
  - unfold open_session in Hm. runs.
    all: repeat match goal with
    | H : _create_session _ _ _ = _ |- _ =>
        apply create_quiet in H; destruct H as (Q & _)
    end.
    simpl. rewrite (quiet_no_http _ Q), (quiet_no_sleep _ Q).
    split; [lia|]. split; [|apply sublist_nil_l].
    apply no_http_requests. by apply quiet_no_http.
Qed.

(** X1.  Whatever the upstream, the solver and the settings store do, one
    call of [_make_request] sends at most [MAX_RETRIES] = 3 requests, each
    of them the request of the call (method, URL and body as given, the
    headers as given but for [User-Agent]), and what it sleeps is a
    sub-sequence of 1s, 2s: it never waits more than 3 seconds in all. *)
Theorem call_is_bounded method url headers json_data db_session w s :
  let tr := trace (_make_request method url headers json_data db_session w s) in
  (count is_http tr <= MAX_RETRIES)%nat /\
  requests_are (same_request method url headers json_data) tr /\
  sleeps tr `sublist_of` [1; 2].
Proof.
  destruct (_make_request method url headers json_data db_session w s)
    as [[r s1] t] eqn:H.
  by apply make_request_shape in H.
Qed.

Ltac close_wf :=
  unfold well_formed, ok_envelope, fail_envelope; simpl;
  repeat match goal with
  | H : _ && _ = true |- _ => apply andb_prop in H; destruct H
  | H : (_ <=? _) = true |- _ => apply Z.leb_le in H
  | H : (_ <? _) = true |- _ => apply Z.ltb_lt in H
  end;
  repeat split; intros; try discriminate; try lia; auto.

Lemma backoff_last attempt cf last w s e s1 t :
  backoff attempt cf last w s = (Returns (Return e), s1, t) -> e = last.
Proof. intros H. apply backoff_shape in H as (_ & _ & _ & H & _). auto. Qed.

Lemma handle_response_wf response attempt cf db_session w s e s1 t :
  handle_response response attempt cf db_session w s = (Returns (Return e), s1, t) ->
  well_formed e.
Proof.
  unfold handle_response. intros H.
  destruct ((200 <=? resp_status response) && (resp_status response <? 300))
    eqn:H2.
  { unfold on_2xx, recover_or in H. runs; close_wf. }
  destruct ((400 <=? resp_status response) && (resp_status response <? 500))
    eqn:H4.
  { unfold on_4xx, read_error, recover_or in H. runs; close_wf. }
  destruct (500 <=? resp_status response) eqn:H5; [|inv_run H].
  unfold on_5xx, recover_or in H. runs.
  all: try match goal with
  | H : backoff _ _ _ _ _ = _ |- _ => apply backoff_last in H; subst
  end.
  all: close_wf.
Qed.

Lemma attempt_once_wf method url headers json_data db_session attempt cf w s e s1 t :
  attempt_once method url headers json_data db_session attempt cf w s
  = (Returns (Return e), s1, t) ->
  well_formed e.
Proof.
  unfold attempt_once. intros H. inv_run H.
  - unfold attempt_try in Hm. inv_run Hm. inv_run Hm0. cbv zeta in Hk.
    inv_run Hk. by apply handle_response_wf in Hk0.
  - destruct e0; apply backoff_last in Hh; subst; close_wf.
Qed.

Lemma retry_loop_wf method url headers json_data db_session attempts :
  forall cf w s e s1 t,
    retry_loop method url headers json_data db_session attempts cf w s
    = (Returns e, s1, t) ->
    well_formed e.
Proof.
  induction attempts as [|attempt rest IH]; intros cf w s e s1 t H.
  - simpl in H. inv_run H. close_wf.
  - cbn [retry_loop] in H. inv_run H.
    destruct a as [e'|cf']; [|by eapply IH].
    inv_run Hk. by apply attempt_once_wf in Hm.
Qed.

Lemma make_request_wf method url headers json_data db_session w s e s1 t :
  _make_request method url headers json_data db_session w s = (Returns e, s1, t) ->
  well_formed e.
Proof.
  intros H. unfold _make_request in H. inv_run H.
  by apply retry_loop_wf in Hk.
Qed.

(** X2.  Every envelope that [_make_request] returns keeps the invariant
    of the result: with [success] the status is a 2xx and there is neither
    an error message nor an error code; without [success] there is no
    payload and there is an error message. *)
Theorem envelope_is_well_formed method url headers json_data db_session w s e :
  result (_make_request method url headers json_data db_session w s) = Returns e ->
  well_formed e.
Proof.
  destruct (_make_request method url headers json_data db_session w s)
    as [[r s1] t] eqn:H.
  unfold result. simpl. intros ->. by apply make_request_wf in H.
Qed.

(** A 2xx answer that decodes, and a 200 that carries an empty object. *)
Lemma envelope_is_well_formed_witness :
  well_formed (ok_envelope 200 (PDict [])).
Proof.
  apply (envelope_is_well_formed "GET" invites_url ∅ None db
           (world [Returns ok_page] [] []) connected).
  by vm_compute.
Defined.

Lemma attempt_once_ok method url headers json_data db_session attempt cf w s response d :
  supported method = true ->
  session s <> None ->
  let req := request_of method url headers json_data s in
  upstream w (n_upstream s) req = Returns response ->
  200 <= resp_status response < 300 ->
  resp_json response = Returns d ->
  attempt_once method url headers json_data db_session attempt cf w s
  = (Returns (Return (ok_envelope (resp_status response) d)), after_send s,
     [EvHttp req]).
Proof.
  intros Hm Hs req Hu H2 Hj.
  assert (E : handle_response response attempt cf db_session w (after_send s)
              = (Returns (Return (ok_envelope (resp_status response) d)),
                 after_send s, [])).
  { unfold handle_response.
    replace ((200 <=? resp_status response) && (resp_status response <? 300))
      with true by lia.
    unfold on_2xx. rewrite Hj. by destruct (contains _ _). }
  unfold attempt_once, try_except.
  rewrite (attempt_try_run method url headers json_data db_session attempt cf
             w s Hm Hs). fold req. rewrite Hu. cbv zeta. by rewrite E.
Qed.

Lemma make_request_ok method url headers json_data db_session
    w s s0 t0 response d :
  supported method = true ->
  open_session db_session w s = (Returns tt, s0, t0) ->
  let req := request_of method url headers json_data s0 in
  upstream w (n_upstream s0) req = Returns response ->
  200 <= resp_status response < 300 ->
  resp_json response = Returns d ->
  _make_request method url headers json_data db_session w s
  = (Returns (ok_envelope (resp_status response) d), after_send s0,
     t0 ++ [EvHttp req]).
Proof.
  intros Hm Ho req Hu H2 Hj.
  destruct (open_session_quiet _ _ _ _ _ Ho) as (_ & _ & Hs).
  unfold _make_request, bind at 1. rewrite Ho.
  cbn [retry_loop seq MAX_RETRIES]. unfold bind.
  by rewrite (attempt_once_ok method url headers json_data db_session 0 false
                w s0 response d Hm Hs Hu H2 Hj).
Qed.

(** X3.  A 2xx answer whose body decodes as JSON ends the call at once
    with [success] and the decoded payload, after one request and no
    sleep, whatever its content type says and whatever the payload is. *)
Theorem decodable_2xx_is_success method url headers json_data db_session
    w s s0 t0 response d :
  supported method = true ->
  open_session db_session w s = (Returns tt, s0, t0) ->
  let req := request_of method url headers json_data s0 in
  upstream w (n_upstream s0) req = Returns response ->
  200 <= resp_status response < 300 ->
  resp_json response = Returns d ->
  let x := _make_request method url headers json_data db_session w s in
  result x = Returns {| success := true; status_code := resp_status response;
                        data := d; error := None; error_code := PNone |} /\
  count is_http (trace x) = 1%nat /\
  sleeps (trace x) = [] /\
  count is_recovery (trace x) = 0%nat.
Proof.
  intros Hm Ho req Hu H2 Hj x. subst x.
  rewrite (make_request_ok method url headers json_data db_session w s s0 t0
             response d Hm Ho Hu H2 Hj).
  destruct (open_session_quiet _ _ _ _ _ Ho) as (Q & _ & _).
  unfold result, trace. simpl.
  rewrite count_app, sleeps_app, count_app, (quiet_no_http _ Q),
    (quiet_no_sleep _ Q), (quiet_no_recovery _ Q).
  by repeat split.
Qed.

(** A 201 with the content type [text/html] and the body [null]. *)
Lemma decodable_2xx_is_success_witness :
  result (_make_request "POST" invites_url ∅ (Some (PDict [])) db
            (world [Returns {| resp_status := 201;
                               resp_content_type := Returns (Some "text/html");
                               resp_json := Returns PNone;
                               resp_text := Returns "null" |}] [] [])
            connected)
  = Returns (ok_envelope 201 PNone).
Proof.
  destruct (decodable_2xx_is_success "POST" invites_url ∅ (Some (PDict [])) db
             (world [Returns {| resp_status := 201;
                                resp_content_type := Returns (Some "text/html");
                                resp_json := Returns PNone;
                                resp_text := Returns "null" |}] [] [])
             connected connected []
             {| resp_status := 201;
                resp_content_type := Returns (Some "text/html");
                resp_json := Returns PNone;
                resp_text := Returns "null" |} PNone)
    as [H _];
    [reflexivity|reflexivity|reflexivity|simpl; lia|reflexivity|exact H].
Defined.

Lemma attempt_once_unhandled method url headers json_data db_session attempt cf w s response :
  supported method = true ->
  session s <> None ->
  let req := request_of method url headers json_data s in
  upstream w (n_upstream s) req = Returns response ->
  unhandled (resp_status response) ->
  attempt_once method url headers json_data db_session attempt cf w s
  = (Returns (Continue cf), after_send s, [EvHttp req]).
Proof.
  intros Hm Hs req Hu Hun.
  assert (E : handle_response response attempt cf db_session w (after_send s)
              = (Returns (Continue cf), after_send s, [])).
  { unfold handle_response, unhandled in *.
    replace ((200 <=? resp_status response) && (resp_status response <? 300))
      with false by lia.
    replace ((400 <=? resp_status response) && (resp_status response <? 500))
      with false by lia.
    by replace (500 <=? resp_status response) with false by lia. }
  unfold attempt_once, try_except.
  rewrite (attempt_try_run method url headers json_data db_session attempt cf
             w s Hm Hs). fold req. rewrite Hu. cbv zeta. by rewrite E.
Qed.

(** X4.  A status that no branch takes (below 200, or a 3xx) is neither a
    success nor a failure for the executor: the attempt ends without a
    return and without a backoff.  When the three requests of a call all
    meet such a status, the call sends them back to back, sleeps nothing
    and returns the envelope behind the loop, [未知错误] with status 0. *)
Theorem unhandled_status_falls_through method url headers json_data db_session
    w s s0 t0 :
  supported method = true ->
  open_session db_session w s = (Returns tt, s0, t0) ->
  let req := request_of method url headers json_data s0 in
  (forall k, (k < MAX_RETRIES)%nat ->
     exists response,
       upstream w (k + n_upstream s0) req = Returns response /\
       unhandled (resp_status response)) ->
  _make_request method url headers json_data db_session w s
  = (Returns unknown_error, after_send (after_send (after_send s0)),
     t0 ++ [EvHttp req; EvHttp req; EvHttp req]).
Proof.
  intros Hm Ho req Hu.
  destruct (open_session_quiet _ _ _ _ _ Ho) as (_ & _ & Hs).
  destruct (Hu 0%nat) as (r0 & U0 & V0); [unfold MAX_RETRIES; lia|].
  destruct (Hu 1%nat) as (r1 & U1 & V1); [unfold MAX_RETRIES; lia|].
  destruct (Hu 2%nat) as (r2 & U2 & V2); [unfold MAX_RETRIES; lia|].
  unfold _make_request, bind at 1. rewrite Ho.
  cbn [retry_loop seq MAX_RETRIES]. unfold bind.
  rewrite (attempt_once_unhandled method url headers json_data db_session 0
             false w s0 r0 Hm Hs U0 V0). simpl.
  rewrite (attempt_once_unhandled method url headers json_data db_session 1
             false w (after_send s0) r1 Hm) by (simpl; auto).
  simpl.
  rewrite (attempt_once_unhandled method url headers json_data db_session 2
             false w (after_send (after_send s0)) r2 Hm) by (simpl; auto).
  simpl. reflexivity.
Qed.

(** Three times 304 Not Modified. *)
Lemma unhandled_status_falls_through_witness :
  result (GET (world [Returns (text_response 304 "");
                      Returns (text_response 304 "");
                      Returns (text_response 304 "")] [] []) connected)
  = Returns unknown_error
  /\ sleeps (trace (GET (world [Returns (text_response 304 "");
                               Returns (text_response 304 "");
                               Returns (text_response 304 "")] [] [])
                      connected)) = [].
Proof.
  unfold GET.
  rewrite (unhandled_status_falls_through "GET" invites_url ∅ None db
             (world [Returns (text_response 304 "");
                     Returns (text_response 304 "");
                     Returns (text_response 304 "")] [] [])
             connected connected []).
  - split; reflexivity.
  - reflexivity.
  - reflexivity.
  - intros k Hk. unfold MAX_RETRIES in Hk.
    destruct k as [|[|[|k]]]; [..|lia];
      (exists (text_response 304 ""); split; [reflexivity|right; simpl; lia]).
Defined.

(** ** The clearance cache: what a fetch does *)

Lemma fetch_disabled db_session w s c :
  get_flaresolverr_config w (n_config s) db_session = Returns c ->
  solver_disabled c = true ->
  _fetch_cf_cookies db_session w s = (Returns false, after_config s, [EvConfig]).
Proof.
  intros Hc Hd. unfold _fetch_cf_cookies, bind, read_config. rewrite Hc.
  unfold solver_disabled in Hd. by rewrite Hd.
Qed.

Lemma fetch_keeps db_session w s r s1 t :
  _fetch_cf_cookies db_session w s = (r, s1, t) ->
  session s1 = session s /\ count is_close t = 0%nat /\
  (r <> Returns true -> cache s1 = cache s).
Proof. unfold _fetch_cf_cookies. intros H. runs; by repeat split. Qed.


Lemma cookie_dict_snoc l c :
  cookie_dict (l ++ [c]) = <[c.1 := c.2]> (cookie_dict l).
Proof. unfold cookie_dict. by rewrite foldl_app. Qed.

Lemma cookie_dict_empty l : cookie_dict l = ∅ <-> l = [].
Proof.
  split; [|by intros ->].
  destruct l as [|c l _] using rev_ind; [done|].
  rewrite cookie_dict_snoc. intros H. by apply insert_non_empty in H.
Qed.

(** X6.  The cookie list of the solver becomes a dict in which a later
    cookie replaces an earlier one of the same name: looking a name up
    gives the value of the last cookie of that name, and nothing when no
    cookie has it. *)
Theorem cookie_dict_last_wins (l : list (string * string)) (name : string) :
  cookie_dict l !! name
  = last (omap (fun c => if decide (c.1 = name) then Some c.2 else None) l).
Proof.
  induction l as [|c l IH] using rev_ind; [done|].
  rewrite cookie_dict_snoc, omap_app. simpl.
  destruct (decide (c.1 = name)) as [->|Hn].
  - by rewrite lookup_insert_eq, last_snoc.
  - by rewrite lookup_insert_ne, app_nil_r.
Qed.

Lemma rstrip_with_snoc p s c :
  p c = true ->
  rstrip_with p (s +:+ String c EmptyString) = rstrip_with p s.
Proof.
  intros Hc. induction s as [|a s IH]; simpl; [by rewrite Hc|].
  by rewrite IH.
Qed.

Lemma solver_target_slashes (u : string) (n : nat) :
  solver_target (Nat.iter n (fun x => x +:+ "/") u) = solver_target u.
Proof.
  unfold solver_target. f_equal. induction n as [|n IH]; [done|].
  simpl. by rewrite rstrip_with_snoc.
Qed.

Lemma truthy_url u : truthy (of_opt_str (Some u)) = negb (String.eqb u "").
Proof. reflexivity. Qed.

(** X7.  With the solver enabled, a fetch reads the settings and calls the
    solver once, whatever the solver then does, and the address it calls is
    the configured URL without its trailing slashes, followed by [/v1]:
    any number of slashes at the end of the configured URL gives the same
    address. *)
Theorem trailing_slashes_are_ignored db_session w s c (u : string) (n : nat) :
  get_flaresolverr_config w (n_config s) db_session = Returns c ->
  cfg_enabled c = true ->
  cfg_url c = Some (Nat.iter n (fun x => x +:+ "/") u) ->
  Nat.iter n (fun x => x +:+ "/") u <> "" ->
  trace (_fetch_cf_cookies db_session w s) = [EvConfig; EvSolver (solver_target u)].
Proof.
  intros Hc He Hu Hn. rewrite <- (solver_target_slashes u n).
  set (v := Nat.iter n (fun x => x +:+ "/") u) in *.
  unfold _fetch_cf_cookies, bind at 1, read_config. rewrite Hc, He, Hu.
  destruct (String.eqb v "") eqn:Ev; [by apply String.eqb_eq in Ev|].
  rewrite truthy_url, Ev. simpl negb. simpl orb. cbv iota.
  unfold try_except, bind, post_solver. simpl. fold (solver_target v).
  destruct (flaresolverr w _ _) as [reply|e]; simpl; [|done].
  destruct (sr_status reply =? 200); simpl; [|done].
  unfold lift. destruct (sr_json reply) as [data|e]; simpl; [|done].
  by destruct (String.eqb (sol_status data) "ok").
Qed.

(** The configured URL ends in a slash. *)
Lemma trailing_slashes_are_ignored_witness :
  trace (_fetch_cf_cookies db (working_solver []) __init__)
  = [EvConfig; EvSolver "http://flaresolverr:8191/v1"].
Proof.
  apply (trailing_slashes_are_ignored db (working_solver []) __init__ solver_on
           "http://flaresolverr:8191" 1); [reflexivity|reflexivity|reflexivity|done].
Defined.

Lemma fetch_success db_session w s c u reply data :
  get_flaresolverr_config w (n_config s) db_session = Returns c ->
  cfg_enabled c = true -> cfg_url c = Some u -> u <> "" ->
  flaresolverr w (n_solver s) (solver_target u) = Returns reply ->
  sr_status reply = 200 ->
  sr_json reply = Returns data ->
  sol_status data = "ok" ->
  _fetch_cf_cookies db_session w s
  = (Returns true,
     set_cf (Some (cookie_dict (sol_cookies data)))
       (if String.eqb (sol_userAgent data) "" then None
        else Some (sol_userAgent data))
       (time_time w (n_time s))
       (after_clock (after_solver (after_config s))),
     [EvConfig; EvSolver (solver_target u)]).
Proof.
  intros Hc He Hu Hn Hf H2 Hj Ho.
  unfold _fetch_cf_cookies, bind at 1, read_config. rewrite Hc, He, Hu.
  destruct (String.eqb u "") eqn:Eu; [by apply String.eqb_eq in Eu|].
  rewrite truthy_url, Eu. simpl negb. simpl orb. cbv iota.
  unfold try_except, bind, post_solver. simpl.
  fold (solver_target u). rewrite Hf, H2. simpl. unfold lift. rewrite Hj.
  rewrite Ho. simpl. reflexivity.
Qed.

(** X8.  When the solver answers 200 with the status [ok], the fetch
    returns true after one settings read and one call of the solver, and
    the cache holds the solver's cookies, its user agent (none when it is
    empty) and the time of the fetch.  The cached cookies count as present
    exactly when the solver sent at least one: an [ok] without cookies
    returns true and leaves a cache that is not valid. *)
Theorem successful_fetch_fills_cache db_session w s c u reply data :
  get_flaresolverr_config w (n_config s) db_session = Returns c ->
  cfg_enabled c = true -> cfg_url c = Some u -> u <> "" ->
  flaresolverr w (n_solver s) (solver_target u) = Returns reply ->
  sr_status reply = 200 ->
  sr_json reply = Returns data ->
  sol_status data = "ok" ->
  let x := _fetch_cf_cookies db_session w s in
  result x = Returns true /\
  trace x = [EvConfig; EvSolver (solver_target u)] /\
  cache (final x)
  = (Some (cookie_dict (sol_cookies data)),
     (if String.eqb (sol_userAgent data) "" then None
      else Some (sol_userAgent data)),
     time_time w (n_time s)) /\
  (cookies_truthy (_cf_cookies (final x)) = true <-> sol_cookies data <> []) /\
  (sol_cookies data = [] ->
   result (_cf_cookies_valid w (final x)) = Returns false).
Proof.
  intros Hc He Hu Hn Hf H2 Hj Ho x. subst x.
  rewrite (fetch_success db_session w s c u reply data Hc He Hu Hn Hf H2 Hj Ho).
  unfold result, trace, final, cache. simpl.
  split; [done|]. split; [done|]. split; [done|]. split.
  - rewrite bool_decide_eq_true. by rewrite cookie_dict_empty.
  - intros ->. rewrite valid_run. done.
Qed.

(** A solver that sends one cookie, and one that sends none. *)
Lemma successful_fetch_fills_cache_witness :
  _cf_cookies (final (_fetch_cf_cookies db (working_solver []) __init__))
  = Some {[ "cf_clearance" := "abc" ]}
  /\ cookies_truthy
       (_cf_cookies (final (_fetch_cf_cookies db (working_solver []) __init__)))
     = true.
Proof.
  destruct (successful_fetch_fills_cache db (working_solver []) __init__
              solver_on "http://flaresolverr:8191/" solved
              {| sol_status := "ok"; sol_cookies := [("cf_clearance", "abc")];
                 sol_userAgent := "Mozilla/5.0" |})
    as (_ & _ & C & T & _); try reflexivity; try discriminate.
  split.
  - pose proof (f_equal (fun p => p.1.1) C) as C'.
    etransitivity; [exact C'|]. by vm_compute.
  - apply T. discriminate.
Defined.

Lemma ensure_run db_session w s :
  _ensure_cf_cookies db_session w s
  = let fetched (x : outcome bool * St * list Event) :=
      (match result x with Returns _ => Returns tt | Raises e => Raises e end,
       final x, trace x) in
    if cookies_truthy (_cf_cookies s) then
      if Qltb (age w s) CF_COOKIE_TTL then (Returns tt, after_clock s, [])
      else fetched (_fetch_cf_cookies db_session w (after_clock s))
    else fetched (_fetch_cf_cookies db_session w s).
Proof.
  unfold _ensure_cf_cookies, bind. rewrite valid_run.
  destruct (cookies_truthy (_cf_cookies s)); simpl.
  - destruct (Qltb (age w s) CF_COOKIE_TTL); simpl; [done|].
    destruct (_fetch_cf_cookies _ _ _) as [[[b|e] s1] t]; simpl;
      by rewrite ?app_nil_r.
  - destruct (_fetch_cf_cookies _ _ _) as [[[b|e] s1] t]; simpl;
      by rewrite ?app_nil_r.
Qed.

(** X9.  Two [_ensure_cf_cookies] in a row cost one call of the solver:
    when the first one fetches at least one cookie and the clock has moved
    on by less than 1800 seconds, the second one does nothing. *)
Theorem ensure_twice_fetches_once db_session w s c u reply data :
  cookies_truthy (_cf_cookies s) = false ->
  get_flaresolverr_config w (n_config s) db_session = Returns c ->
  cfg_enabled c = true -> cfg_url c = Some u -> u <> "" ->
  flaresolverr w (n_solver s) (solver_target u) = Returns reply ->
  sr_status reply = 200 ->
  sr_json reply = Returns data ->
  sol_status data = "ok" ->
  sol_cookies data <> [] ->
  (time_time w (S (n_time s)) - time_time w (n_time s) < 1800)%Q ->
  let first := _ensure_cf_cookies db_session w s in
  let second := _ensure_cf_cookies db_session w (final first) in
  trace first = [EvConfig; EvSolver (solver_target u)] /\
  trace second = [] /\
  cache (final second) = cache (final first) /\
  count is_solver (trace first ++ trace second) = 1%nat.
Proof.
  intros Hv Hc He Hu Hn Hf H2 Hj Ho Hne Ht first second.
  assert (E1 : first
    = (Returns tt,
       set_cf (Some (cookie_dict (sol_cookies data)))
         (if String.eqb (sol_userAgent data) "" then None
          else Some (sol_userAgent data))
         (time_time w (n_time s))
         (after_clock (after_solver (after_config s))),
       [EvConfig; EvSolver (solver_target u)])).
  { subst first. rewrite ensure_run, Hv. cbv zeta.
    by rewrite (fetch_success db_session w s c u reply data Hc He Hu Hn Hf H2 Hj Ho). }
  assert (E2 : second = (Returns tt, after_clock (final first), [])).
  { subst second. rewrite E1. unfold final. simpl.
    rewrite ensure_run. cbv zeta. unfold age. simpl.
    assert (T : bool_decide (cookie_dict (sol_cookies data) ≠ ∅) = true).
    { rewrite bool_decide_eq_true. by rewrite cookie_dict_empty. }
    rewrite T.
    assert (V : Qltb (time_time w (S (n_time s)) - time_time w (n_time s))
                  CF_COOKIE_TTL = true) by (by apply Qltb_lt).
    by rewrite V. }
  rewrite E2, E1. unfold trace, final, cache. simpl. done.
Qed.

Lemma ensure_twice_fetches_once_witness :
  count is_solver
    (trace (_ensure_cf_cookies db (working_solver []) __init__)
     ++ trace (_ensure_cf_cookies db (working_solver [])
                 (final (_ensure_cf_cookies db (working_solver []) __init__))))
  = 1%nat.
Proof.
  apply (ensure_twice_fetches_once db (working_solver []) __init__
           solver_on "http://flaresolverr:8191/" solved
           {| sol_status := "ok"; sol_cookies := [("cf_clearance", "abc")];
              sol_userAgent := "Mozilla/5.0" |});
    try reflexivity; try discriminate.
Defined.

(** ** Recovery and teardown *)

Lemma create_result db_session w s new s1 t :
  _create_session db_session w s = (Returns new, s1, t) ->
  sess_cookies new = applied_cookies s1 /\ count is_close t = 0%nat.
Proof.
  unfold _create_session, _ensure_cf_cookies, _cf_cookies_valid. intros H.
  runs;
  repeat match goal with
  | H : _fetch_cf_cookies _ _ _ = _ |- _ =>
      apply fetch_keeps in H; destruct H as (_ & ? & _)
  end; unfold applied_cookies; simpl; rewrite ?app_nil_r, ?count_app;
  simpl; split; try done; try lia.
Qed.



(** X11.  A recovery that returns true leaves a new session that carries
    the cookies of the cache; the session that was there has been closed
    once, and an exception of that [close()] does not stop the recovery. *)
Theorem successful_recovery_replaces_session db_session w s :
  let x := _try_cf_recovery db_session w s in
  result x = Returns true ->
  (exists new, session (final x) = Some new /\
               sess_cookies new = applied_cookies (final x)) /\
  count is_close (trace x) = match session s with Some _ => 1 | None => 0 end%nat.
Proof.
  destruct (_try_cf_recovery db_session w s) as [[r s1] t] eqn:H.
  unfold result, final, trace. simpl. intros ->.
  unfold _try_cf_recovery in H. runs.
  all: repeat match goal with
  | H : _fetch_cf_cookies _ _ _ = _ |- _ =>
      apply fetch_keeps in H; destruct H as (Hs & Hf & _)
  | H : _create_session _ _ _ = _ |- _ =>
      apply create_result in H; destruct H as (Hn & Hc)
  end.
  all: simpl in *; rewrite ?app_nil_r, ?count_app; simpl;
    rewrite ?app_nil_r, ?count_app; simpl.
  all: rewrite ?Hf, ?Hc.
  all: split; [eexists; split; [reflexivity|exact Hn]|].
  all: try rewrite Heqo in Hs; try rewrite <- Hs; simpl; try done.
Qed.

(** A session whose [close()] raises, a solver that clears the challenge. *)
Lemma successful_recovery_replaces_session_witness :
  count is_close (trace (_try_cf_recovery db stuck_connection connected)) = 1%nat.
Proof.
  destruct (successful_recovery_replaces_session db stuck_connection connected)
    as [_ H]; [reflexivity|exact H].
Defined.

Lemma fetch_head db_session w s :
  head (trace (_fetch_cf_cookies db_session w s)) = Some EvConfig.
Proof.
  destruct (_fetch_cf_cookies db_session w s) as [[r s1] t] eqn:H.
  unfold _fetch_cf_cookies, read_config in H.
  apply bind_inv in H as [(c & s2 & t1 & t2 & H1 & _ & ->)|(e & H1 & _)];
    by injection H1 as _ _ <-.
Qed.

Lemma open_head db_session w s :
  session s = None -> _cf_cookies s = None ->
  head (trace (open_session db_session w s)) = Some EvConfig.
Proof.
  intros Hs Hc. unfold open_session, bind at 1, get. rewrite Hs.
  unfold bind at 1, _create_session, bind at 1. rewrite ensure_run, Hc.
  simpl. pose proof (fetch_head db_session w s) as F.
  destruct (_fetch_cf_cookies db_session w s) as [[[b|e] s1] tf];
    simpl in *; [|done].
  destruct tf as [|ev tf]; [done|]. injection F as ->.
  by destruct (bind _ _ _ _) as [[[?|?] ?] ?].
Qed.

(** X12.  [clear_session] forgets the cached clearance in every case, also
    when closing the session raises and the session therefore stays; when
    it returns, the session is gone, and the next call starts by reading
    the solver settings again. *)
Theorem clear_session_forgets_clearance w s :
  let x := clear_session w s in
  cache (final x) = (None, None, 0%Q) /\
  (forall e, result x = Raises e -> session (final x) = session s) /\
  (result x = Returns tt ->
   session (final x) = None /\
   forall db_session,
     head (trace (open_session db_session w (final x))) = Some EvConfig).
Proof.
  destruct (clear_session w s) as [[r s1] t] eqn:H.
  unfold result, final. simpl. unfold clear_session, close in H.
  runs.
  all: (split; [done|]); split; [try done|intros E; try done].
  all: try (intros e' E; simpl in *; congruence).
  all: split; [done|]; intros db_session; by apply open_head.
Qed.

(** A service with cookies and a session, and a [close()] that raises. *)
Lemma clear_session_forgets_clearance_witness :
  cache (final (clear_session stuck_connection
                  (set_session (session connected) cleared)))
  = (None, None, 0%Q).
Proof.
  apply (clear_session_forgets_clearance stuck_connection
           (set_session (session connected) cleared)).
Defined.


(** ** A solver that is switched off *)

Lemma is_solver_housekeeping_free t :
  count is_solver t = 0%nat <-> Forall (fun e => is_solver e = false) t.
Proof.
  induction t as [|e t IH]; simpl; [by split; [constructor|]|].
  rewrite Forall_cons. destruct (is_solver e); simpl; [split; [lia|]|].
  - by intros [? _].
  - rewrite IH. tauto.
Qed.

Section disabled.
Variable w : World.
Hypothesis off : always_disabled w.

Lemma fetch_off db_session s :
  _fetch_cf_cookies db_session w s = (Returns false, after_config s, [EvConfig]).
Proof.
  destruct (off (n_config s) db_session) as (c & Hc & Hd).
  by apply fetch_disabled with c.
Qed.

Lemma recovery_off db_session s :
  _try_cf_recovery db_session w s
  = (Returns false, after_config (set_cf None None 0%Q s), [EvRecovery; EvConfig]).
Proof.
  unfold _try_cf_recovery, bind at 1, emit. unfold bind at 1, modify.
  unfold bind at 1. by rewrite fetch_off.
Qed.

Lemma create_off db_session s r s1 t :
  _create_session db_session w s = (r, s1, t) -> count is_solver t = 0%nat.
Proof.
  unfold _create_session. intros H.
  apply bind_inv in H as [(u & s2 & t1 & t2 & H1 & H & ->)|(e & H1 & _)].
  - rewrite ensure_run in H1. rewrite !fetch_off in H1. unfold construct_session in H.
    rewrite count_app.
    assert (count is_solver t1 = 0%nat) as ->.
    { destruct (cookies_truthy _); [destruct (Qltb _ _)|]; by injection H1 as _ _ <-. }
    runs; done.
  - rewrite ensure_run in H1. rewrite !fetch_off in H1.
    destruct (cookies_truthy _); [destruct (Qltb _ _)|]; by injection H1 as _ _ <-.
Qed.

Lemma open_off db_session s r s1 t :
  open_session db_session w s = (r, s1, t) -> count is_solver t = 0%nat.
Proof.
  unfold open_session. intros H. runs; rewrite ?count_app; simpl;
  repeat match goal with
  | H : _create_session _ _ _ = _ |- _ => apply create_off in H; rewrite H
  end; done.
Qed.

Lemma recovery_off_inv db_session s r s1 t :
  _try_cf_recovery db_session w s = (r, s1, t) ->
  r = Returns false /\ count is_solver t = 0%nat.
Proof. rewrite recovery_off. by intros [= <- <- <-]. Qed.

Lemma backoff_off attempt cf last s r s1 t :
  backoff attempt cf last w s = (r, s1, t) -> count is_solver t = 0%nat.
Proof.
  unfold backoff. intros H. runs; done.
Qed.

Ltac use_off :=
  repeat match goal with
  | H : _try_cf_recovery _ _ _ = _ |- _ =>
      apply recovery_off_inv in H; destruct H as [? ?]
  | H : backoff _ _ _ _ _ = _ |- _ => apply backoff_off in H
  end;
  rewrite ?count_app; simpl; try done; try lia.

Lemma handle_response_off response attempt cf db_session s r s1 t :
  handle_response response attempt cf db_session w s = (r, s1, t) ->
  count is_solver t = 0%nat.
Proof.
  unfold handle_response, on_2xx, on_4xx, on_5xx, read_error, recover_or.
  intros H.
  destruct ((200 <=? resp_status response) && (resp_status response <? 300)).
  { runs; use_off. }
  destruct ((400 <=? resp_status response) && (resp_status response <? 500)).
  { runs; use_off. }
  destruct (500 <=? resp_status response); [|by inv_run H].
  runs; use_off.
Qed.

Lemma attempt_once_off method url headers json_data db_session attempt cf s r s1 t :
  attempt_once method url headers json_data db_session attempt cf w s = (r, s1, t) ->
  count is_solver t = 0%nat.
Proof.
  unfold attempt_once, attempt_try, dispatch. intros H.
  runs;
  repeat match goal with
  | H : handle_response _ _ _ _ _ _ = _ |- _ => apply handle_response_off in H
  end; use_off.
Qed.

Lemma retry_loop_off method url headers json_data db_session attempts :
  forall cf s r s1 t,
  retry_loop method url headers json_data db_session attempts cf w s = (r, s1, t) ->
  count is_solver t = 0%nat.
Proof.
  induction attempts as [|a l IH]; intros cf s r s1 t H; simpl in H.
  { by inv_run H. }
  apply bind_inv in H as [(c & s2 & t1 & t2 & H1 & H & ->)|(e & H1 & _)].
  - apply attempt_once_off in H1. rewrite count_app, H1. simpl.
    destruct c; [by inv_run H|by apply IH in H].
  - by apply attempt_once_off in H1.
Qed.
End disabled.

(** X13.  While the settings say that the solver is disabled (switched
    off, or without a URL), no call of [_make_request] ever posts to it,
    whatever the upstream answers. *)
Theorem disabled_solver_is_never_called method url headers json_data db_session w s :
  always_disabled w ->
  count is_solver (trace (_make_request method url headers json_data db_session w s))
  = 0%nat.
Proof.
  intros off.
  destruct (_make_request method url headers json_data db_session w s)
    as [[r s1] t] eqn:H.
  unfold _make_request in H. unfold trace. simpl.
  apply bind_inv in H as [(u & s2 & t1 & t2 & H1 & H & ->)|(e & H1 & _)].
  - apply (open_off w off) in H1. apply (retry_loop_off w off) in H.
    rewrite count_app. lia.
  - by apply (open_off w off) in H1.
Qed.

(** A challenge page, and no solver to clear it. *)
Lemma disabled_solver_is_never_called_witness :
  count is_solver (trace (GET (world [challenged 403] [] []) connected)) = 0%nat.
Proof.
  apply (disabled_solver_is_never_called "GET" invites_url ∅ None db
           (world [challenged 403] [] []) connected).
  intros k d. exists solver_off. by destruct k.
Defined.

Lemma challenge_off_run method url headers json_data d
    w s s0 t0 response body :
  always_disabled w ->
  supported method = true ->
  open_session (Some d) w s = (Returns tt, s0, t0) ->
  let req := request_of method url headers json_data s0 in
  upstream w (n_upstream s0) req = Returns response ->
  resp_text response = Returns body ->
  matches_challenge body = true ->
  body_inspected response ->
  _make_request method url headers json_data (Some d) w s
  = (Returns (challenge_envelope (resp_status response)),
     after_config (set_cf None None 0%Q (after_send s0)),
     t0 ++ [EvHttp req; EvRecovery; EvConfig]).
Proof.
  intros off Hm Ho req Hu Ht Hc Hb.
  destruct (open_session_quiet _ _ _ _ _ Ho) as (_ & _ & Hs).
  assert (E : handle_response response 0 false (Some d) w (after_send s0)
              = (Returns (Return (challenge_envelope (resp_status response))),
                 after_config (set_cf None None 0%Q (after_send s0)),
                 [EvRecovery; EvConfig])).
  { rewrite (handle_challenge response body 0 false (Some d) w (after_send s0)
               Ht Hc Hb).
    unfold challenge_outcome, recover_or.
    change (negb false && is_truthy_db (Some d)) with true. cbv iota.
    unfold bind. by rewrite (recovery_off w off). }
  unfold _make_request, bind at 1. rewrite Ho.
  cbn [retry_loop seq MAX_RETRIES]. unfold bind at 1.
  unfold attempt_once, try_except.
  rewrite (attempt_try_run method url headers json_data (Some d) 0 false
             w s0 Hm Hs). fold req. rewrite Hu. cbv zeta. by rewrite E.
Qed.


(** X14.  With the solver disabled, a challenge page ends the call after
    one request: the recovery starts, reads the settings and gives up, the
    caller gets the challenge envelope, and the clearance that was cached
    is gone although nothing replaced it. *)
Theorem challenge_without_solver_is_terminal method url headers json_data d
    w s s0 t0 response body :
  always_disabled w ->
  supported method = true ->
  open_session (Some d) w s = (Returns tt, s0, t0) ->
  let req := request_of method url headers json_data s0 in
  upstream w (n_upstream s0) req = Returns response ->
  resp_text response = Returns body ->
  matches_challenge body = true ->
  body_inspected response ->
  let x := _make_request method url headers json_data (Some d) w s in
  result x = Returns {| success := false; status_code := resp_status response;
                        data := PNone; error := Some cloudflare_message;
                        error_code := PStr "cloudflare_challenge" |} /\
  trace x = t0 ++ [EvHttp req; EvRecovery; EvConfig] /\
  cache (final x) = (None, None, 0%Q) /\
  session (final x) = session s0.
Proof.
  intros off Hm Ho req Hu Ht Hc Hb x. subst x.
  by rewrite (challenge_off_run method url headers json_data d w s s0 t0
                response body off Hm Ho Hu Ht Hc Hb).
Qed.

(** A service that holds cookies gets a challenge page while the solver
    is switched off. *)
Lemma challenge_without_solver_is_terminal_witness :
  cache (final (GET (world [challenged 403] [] [])
                  (set_session (session connected) cleared)))
  = (None, None, 0%Q).
Proof.
  destruct (challenge_without_solver_is_terminal "GET" invites_url ∅ None
              (DbHandle 0) (world [challenged 403] [] [])
              (set_session (session connected) cleared)
              (set_session (session connected) cleared) []
              (text_response 403 challenge_page) challenge_page)
    as (_ & _ & H & _).
  - intros k d. exists solver_off. by destruct k.
  - reflexivity.
  - reflexivity.
  - reflexivity.
  - reflexivity.
  - by vm_compute.
  - right. left. split; [simpl; lia|]. by intros d.
  - exact H.
Defined.

(** ** The operations on a team *)

Lemma one_call_run {A} (k : Envelope -> M A) method url headers json_data
    db_session w s :
  (forall e w' s', trace (k e w' s') = []) ->
  one_call method url headers json_data
    (trace ((let* result := _make_request method url headers json_data db_session
             in k result) w s)).
Proof.
  intros Hk. unfold bind.
  destruct (_make_request method url headers json_data db_session w s)
    as [[[e|e] s1] t] eqn:H; apply make_request_shape in H as (H1 & H2 & _).
  - specialize (Hk e w s1). destruct (k e w s1) as [[r s2] t2].
    unfold trace in *. simpl in *. subst t2. rewrite app_nil_r. by split.
  - by split.
Qed.

(** X15.  Each operation on a team is one logical call: it sends at most
    three requests, all of them the same, with the method, the address,
    the headers and the body of that operation; the two [GET]s and
    [delete_member] send no body, [delete_invite] sends one with its
    [DELETE]. *)
Theorem operations_are_one_call access_token account_id email user_id
    db_session w s :
  one_call "POST" (invites_of account_id) (invite_headers access_token account_id)
    (Some (invite_body email))
    (trace (send_invite access_token account_id email db_session w s)) /\
  one_call "GET" (invites_of account_id) (member_headers access_token account_id)
    None (trace (get_invites access_token account_id db_session w s)) /\
  one_call "DELETE" (invites_of account_id) (invite_headers access_token account_id)
    (Some (PDict [("email_address", PStr email)]))
    (trace (delete_invite access_token account_id email db_session w s)) /\
  one_call "DELETE" (member_url account_id user_id)
    (member_headers access_token account_id) None
    (trace (delete_member access_token account_id user_id db_session w s)) /\
  one_call "GET" (BASE_URL +:+ "/accounts/check/v4-2023-04-27")
    {[ "Authorization" := "Bearer " +:+ access_token ]} None
    (trace (get_account_info access_token db_session w s)).
Proof.
  split; [|split; [|split; [|split]]].
  - apply one_call_run. done.
  - apply one_call_run. intros e w' s'.
    destruct (negb (success e)); [done|].
    destruct (data e); try done. unfold bind, lift.
    by destruct (py_len _).
  - change (delete_invite access_token account_id email db_session w s)
      with (_make_request "DELETE" (invites_of account_id)
              (invite_headers access_token account_id)
              (Some (PDict [("email_address", PStr email)])) db_session w s).
    destruct (_make_request "DELETE" (invites_of account_id)
                (invite_headers access_token account_id)
                (Some (PDict [("email_address", PStr email)])) db_session w s)
      as [[r s1] t] eqn:H.
    apply make_request_shape in H as (H1 & H2 & _). by split.
  - apply one_call_run. done.
  - apply one_call_run. intros e w' s'.
    destruct (negb (success e)); [done|]. unfold bind, lift.
    destruct (get_of _ _ _) as [v|]; [|done]. simpl.
    destruct v; try done. by destruct (team_accounts _ _).
Qed.

(** X16.  [send_invite] hands on the envelope of its call with the
    message replaced when the status is 409 or 422, and with nothing else
    changed: success, status, payload and error code are those of the call,
    the envelope keeps its invariant, and an envelope with any other status
    is the one of the call. *)
Theorem invite_conflict_messages access_token account_id email db_session w s e :
  result (send_invite access_token account_id email db_session w s) = Returns e ->
  well_formed e /\
  (status_code e = 409 -> error e = Some already_member) /\
  (status_code e = 422 -> error e = Some team_full) /\
  exists e0,
    result (_make_request "POST" (invites_of account_id)
              (invite_headers access_token account_id)
              (Some (invite_body email)) db_session w s) = Returns e0 /\
    success e = success e0 /\ status_code e = status_code e0 /\
    data e = data e0 /\ error_code e = error_code e0 /\
    (status_code e0 <> 409 -> status_code e0 <> 422 -> e = e0).
Proof.
  unfold send_invite. cbv zeta.
  fold (invite_headers access_token account_id). fold (invite_body email).
  unfold bind.
  destruct (_make_request "POST" (invites_of account_id)
              (invite_headers access_token account_id)
              (Some (invite_body email)) db_session w s)
    as [[[e0|x] s1] t] eqn:H; unfold result; simpl; [|done].
  intros [= <-]. apply make_request_wf in H. destruct H as [W1 W2].
  destruct (Z.eqb_spec (status_code e0) 409) as [E1|E1]; simpl;
    destruct (Z.eqb_spec (status_code e0) 422) as [E2|E2]; simpl.
  all: split; [unfold well_formed; simpl; split; intros S;
               [destruct (W1 S) as (? & ? & ?); try lia; done
               |destruct (W2 S); done]|].
  all: split; [intros; try done; try lia|].
  all: split; [intros; try done; try lia|].
  all: exists e0; repeat split; try done; intros; lia.
Qed.

(** The upstream answers 409 with a detail of its own. *)
Lemma invite_conflict_messages_witness :
  error (set_error already_member
           (fail_envelope 409 "User already in workspace" PNone))
  = Some already_member.
Proof.
  destruct (invite_conflict_messages "at" "acct-1" "a@b.c" db
              (world [Returns (json_response 409
                                 (PDict [("detail", PStr "User already in workspace")]))]
                     [] [])
              connected
              (set_error already_member
                 (fail_envelope 409 "User already in workspace" PNone)))
    as (_ & H & _); [by vm_compute|].
  by apply H.
Defined.

(** X17.  A challenge page that comes with the status 403 and is not
    cleared reaches the caller of [delete_member] as a lack of permission:
    the message is the one for an owner that cannot be removed, while the
    error code still says [cloudflare_challenge]. *)
Theorem delete_member_masks_challenge access_token account_id user_id d
    w s s0 t0 response body :
  always_disabled w ->
  open_session (Some d) w s = (Returns tt, s0, t0) ->
  let req := request_of "DELETE" (member_url account_id user_id)
               (member_headers access_token account_id) None s0 in
  upstream w (n_upstream s0) req = Returns response ->
  resp_status response = 403 ->
  resp_text response = Returns body ->
  matches_challenge body = true ->
  (forall v, resp_json response <> Returns (PDict v)) ->
  result (delete_member access_token account_id user_id (Some d) w s)
  = Returns {| success := false; status_code := 403; data := PNone;
               error := Some not_permitted;
               error_code := PStr "cloudflare_challenge" |}.
Proof.
  intros off Ho req Hu H3 Ht Hc Hj.
  unfold delete_member. cbv zeta.
  fold (member_headers access_token account_id).
  fold (member_url account_id user_id). unfold bind.
  rewrite (challenge_off_run "DELETE" (member_url account_id user_id)
             (member_headers access_token account_id) None d w s s0 t0
             response body off eq_refl Ho Hu Ht Hc).
  - by rewrite H3.
  - right. left. split; [lia|done].
Qed.

(** The challenge page with the status 403, and no solver. *)
Lemma delete_member_masks_challenge_witness :
  result (delete_member "at" "acct-1" "user-1" db
            (world [challenged 403] [] []) connected)
  = Returns {| success := false; status_code := 403; data := PNone;
               error := Some not_permitted;
               error_code := PStr "cloudflare_challenge" |}.
Proof.
  apply (delete_member_masks_challenge "at" "acct-1" "user-1" (DbHandle 0)
           (world [challenged 403] [] []) connected connected []
           (text_response 403 challenge_page) challenge_page).
  - intros k d. exists solver_off. by destruct k.
  - reflexivity.
  - reflexivity.
  - reflexivity.
  - reflexivity.
  - by vm_compute.
  - by intros v.
Defined.

Lemma open_session_kept db_session w s :
  session s <> None -> open_session db_session w s = (Returns tt, s, []).
Proof.
  intros Hs. unfold open_session, bind, get.
  by destruct (session s).
Qed.

(** X18.  [get_invites] trusts the answer: the items are the [items] of
    the payload as they are, the total is the [total] of the payload when
    there is one, whatever the number of items, and their number only
    otherwise; and since that number is taken before the total is looked
    up, items that have no length make the call raise also when a total was
    sent. *)
Theorem invites_answer_is_trusted access_token account_id db_session
    w s s0 t0 response d :
  open_session db_session w s = (Returns tt, s0, t0) ->
  let req := request_of "GET" (invites_of account_id)
               (member_headers access_token account_id) None s0 in
  upstream w (n_upstream s0) req = Returns response ->
  200 <= resp_status response < 300 ->
  resp_json response = Returns (PDict d) ->
  let items := dict_get d "items" (PList []) in
  let x := get_invites access_token account_id db_session w s in
  (forall e, py_len items = Raises e -> result x = Raises e) /\
  (forall n, py_len items = Returns n ->
     exists r, result x = Returns r /\ invites_success r = true /\
       invites_items r = items /\
       (assoc "total" d = None -> invites_total r = PInt n) /\
       (forall v, assoc "total" d = Some v -> invites_total r = v)).
Proof.
  intros Ho req Hu H2 Hj items x.
  assert (E : result x
              = match py_len items with
                | Returns n =>
                    Returns {| invites_success := true; invites_items := items;
                               invites_total := dict_get d "total" (PInt n);
                               invites_error := None;
                               invites_error_code := PNone |}
                | Raises e => Raises e
                end).
  { subst x. unfold get_invites. cbv zeta.
    fold (member_headers access_token account_id). unfold bind at 1.
    rewrite (make_request_ok "GET" (invites_of account_id)
               (member_headers access_token account_id) None db_session
               w s s0 t0 response (PDict d) eq_refl Ho Hu H2 Hj).
    cbn [ok_envelope success data negb]. fold items. unfold bind, lift.
    by destruct (py_len items). }
  rewrite E. split.
  - by intros e ->.
  - intros n ->. eexists. split; [reflexivity|]. simpl.
    split; [done|]. split; [done|]. unfold dict_get.
    split; [by intros ->|by intros v ->].
Qed.

(** One invitation on the page, 7 reported; and [items: null]. *)
Lemma invites_answer_is_trusted_witness :
  (exists r,
     result (get_invites "at" "acct-1" db
               (world [Returns (json_response 200
                                  (PDict [("items", PList [PStr "a@b.c"]);
                                          ("total", PInt 7)]))] [] [])
               connected) = Returns r /\ invites_total r = PInt 7) /\
  result (get_invites "at" "acct-1" db
            (world [Returns (json_response 200
                               (PDict [("items", PNone); ("total", PInt 0)]))]
                   [] [])
            connected)
  = Raises (Exception "object of type 'NoneType' has no len()").
Proof.
  split.
  - destruct (invites_answer_is_trusted "at" "acct-1" db
                (world [Returns (json_response 200
                                   (PDict [("items", PList [PStr "a@b.c"]);
                                           ("total", PInt 7)]))] [] [])
                connected connected []
                (json_response 200 (PDict [("items", PList [PStr "a@b.c"]);
                                           ("total", PInt 7)]))
                [("items", PList [PStr "a@b.c"]); ("total", PInt 7)])
      as [_ H]; [reflexivity|reflexivity|simpl; lia|reflexivity|].
    destruct (H 1 eq_refl) as (r & Hr & _ & _ & _ & Ht).
    exists r. split; [exact Hr|]. by apply Ht.
  - destruct (invites_answer_is_trusted "at" "acct-1" db
                (world [Returns (json_response 200
                                   (PDict [("items", PNone); ("total", PInt 0)]))]
                       [] [])
                connected connected []
                (json_response 200 (PDict [("items", PNone); ("total", PInt 0)]))
                [("items", PNone); ("total", PInt 0)])
      as [H _]; [reflexivity|reflexivity|simpl; lia|reflexivity|].
    by apply H.
Defined.

Lemma team_account_entry account_id account_info a :
  team_account account_id account_info = Returns (Some a) -> team_entry a.
Proof.
  unfold team_account, get_of.
  destruct account_info as [| | | | |info]; try done.
  destruct (dict_get info "account" (PDict [])) as [| | | | |account] eqn:Ha;
    try done.
  destruct (is_team (dict_get account "plan_type" PNone)) eqn:Ht; [|done].
  destruct (dict_get info "entitlement" (PDict [])) as [| | | | |ent] eqn:He;
    try done.
  intros [= <-]. eexists. split; [reflexivity|].
  unfold is_team, dict_get in *. simpl.
  destruct (assoc "plan_type" account) as [[| | |p| |]|]; try done.
  apply String.eqb_eq in Ht. by subst.
Qed.

Lemma team_accounts_entries entries :
  forall acc found,
    team_accounts entries acc = Returns found ->
    Forall team_entry acc -> Forall team_entry found.
Proof.
  induction entries as [|[k v] rest IH]; intros acc found; simpl.
  - by intros [= <-].
  - destruct (team_account k v) as [[a|]|] eqn:E; [| |done].
    + intros H F. apply (IH _ _ H). apply Forall_app. split; [done|].
      constructor; [|done]. by apply team_account_entry in E.
    + apply IH.
Qed.

Lemma team_accounts_malformed entries :
  forall acc,
    Exists (fun kv => forall d, kv.2 <> PDict d) entries ->
    exists e, team_accounts entries acc = Raises e.
Proof.
  induction entries as [|[k v] rest IH]; intros acc H; [by inversion H|].
  simpl. destruct (team_account k v) as [[a|]|e] eqn:E; [| |eauto].
  - apply IH. inversion H as [? ? Hb|]; [|done]. simpl in Hb.
    unfold team_account, get_of in E. destruct v; try done. by destruct (Hb d).
  - apply IH. inversion H as [? ? Hb|]; [|done]. simpl in Hb.
    unfold team_account, get_of in E. destruct v; try done. by destruct (Hb d).
Qed.

(** X19.  Every account that [get_account_info] returns is a team: a dict
    whose plan type is [team]; and a call that did not succeed returns no
    account and an error message. *)
Theorem accounts_are_teams access_token db_session w s r :
  result (get_account_info access_token db_session w s) = Returns r ->
  Forall team_entry (accounts r) /\
  (accounts_success r = false -> accounts r = [] /\ accounts_error r <> None).
Proof.
  unfold get_account_info. cbv zeta. intros H.
  destruct (bind _ _ w s) as [[r' s1] t] eqn:E. unfold result in H. simpl in H.
  subst r'. runs.
  - apply make_request_wf in Hm as [_ W].
    apply negb_true_iff in Heqb. destruct (W Heqb) as [_ ?].
    simpl. split; [constructor|done].
  - simpl. split; [|done]. eapply team_accounts_entries; [eassumption|constructor].
Qed.

(** A personal account and a team in one answer. *)
Lemma accounts_are_teams_witness :
  Forall team_entry
    [PDict [("account_id", PStr "acct-2"); ("name", PStr "Lab");
            ("plan_type", PStr "team"); ("subscription_plan", PStr "");
            ("expires_at", PStr ""); ("has_active_subscription", PBool false)]].
Proof.
  destruct (accounts_are_teams "at" db
    (world [Returns (json_response 200
       (PDict [("accounts",
          PDict [("acct-1", PDict [("account", PDict [("plan_type", PStr "free")])]);
                 ("acct-2", PDict [("account", PDict [("name", PStr "Lab");
                                                      ("plan_type", PStr "team")])])])]))]
       [] [])
    connected
    {| accounts_success := true;
       accounts :=
         [PDict [("account_id", PStr "acct-2"); ("name", PStr "Lab");
                 ("plan_type", PStr "team"); ("subscription_plan", PStr "");
                 ("expires_at", PStr "");
                 ("has_active_subscription", PBool false)]];
       accounts_error := None; accounts_error_code := PNone |})
    as [H _]; [by vm_compute|exact H].
Defined.

(** X20.  One entry of the account list that is not an object makes
    [get_account_info] raise: the teams among the other entries are not
    returned. *)
Theorem malformed_account_fails_all access_token db_session
    w s s0 t0 response top entries :
  open_session db_session w s = (Returns tt, s0, t0) ->
  let req := request_of "GET" (BASE_URL +:+ "/accounts/check/v4-2023-04-27")
               {[ "Authorization" := "Bearer " +:+ access_token ]} None s0 in
  upstream w (n_upstream s0) req = Returns response ->
  200 <= resp_status response < 300 ->
  resp_json response = Returns (PDict top) ->
  assoc "accounts" top = Some (PDict entries) ->
  Exists (fun kv => forall d, kv.2 <> PDict d) entries ->
  exists e, result (get_account_info access_token db_session w s) = Raises e.
Proof.
  intros Ho req Hu H2 Hj Ha Hx.
  destruct (team_accounts_malformed entries [] Hx) as (e & He).
  exists e. unfold get_account_info. cbv zeta. unfold bind at 1.
  rewrite (make_request_ok "GET" (BASE_URL +:+ "/accounts/check/v4-2023-04-27")
             {[ "Authorization" := "Bearer " +:+ access_token ]} None db_session
             w s s0 t0 response (PDict top) eq_refl Ho Hu H2 Hj).
  simpl. unfold bind, lift, get_of, dict_get. simpl. rewrite Ha. simpl.
  by rewrite He.
Qed.

(** A team, and an entry that is [null]. *)
Lemma malformed_account_fails_all_witness :
  exists e,
    result (get_account_info "at" db
      (world [Returns (json_response 200
         (PDict [("accounts",
            PDict [("acct-2", PDict [("account", PDict [("plan_type", PStr "team")])]);
                   ("default", PNone)])]))] [] [])
      connected) = Raises e.
Proof.
  apply (malformed_account_fails_all "at" db
    (world [Returns (json_response 200
       (PDict [("accounts",
          PDict [("acct-2", PDict [("account", PDict [("plan_type", PStr "team")])]);
                 ("default", PNone)])]))] [] [])
    connected connected []
    (json_response 200
       (PDict [("accounts",
          PDict [("acct-2", PDict [("account", PDict [("plan_type", PStr "team")])]);
                 ("default", PNone)])]))
    [("accounts",
      PDict [("acct-2", PDict [("account", PDict [("plan_type", PStr "team")])]);
             ("default", PNone)])]
    [("acct-2", PDict [("account", PDict [("plan_type", PStr "team")])]);
     ("default", PNone)]).
  - reflexivity.
  - reflexivity.
  - simpl; lia.
  - reflexivity.
  - reflexivity.
  - apply Exists_cons_tl, Exists_cons_hd. by intros d.
Defined.

(** ** Listing the members: where the loop ends *)

Lemma members_loop_failure fuel access_token account_id db_session :
  forall all_members offset w s r s' tr,
    members_loop fuel access_token account_id db_session all_members offset w s
    = (Returns (Some r), s', tr) ->
    members_success r = false ->
    members r = [] /\ total r = 0 /\ members_error r <> None.
Proof.
  induction fuel as [|fuel IH]; intros all_members offset w s r s' tr H Hf.
  - simpl in H. inv_run H.
  - cbn [members_loop] in H. runs; simpl in *; try done.
    + apply make_request_wf in Hm as [_ W].
      apply negb_true_iff in Heqb. by destruct (W Heqb) as [_ ?].
    + eapply IH; eauto.
Qed.

(** X21.  When a page cannot be fetched, [get_members] drops the pages it
    has already collected: the failure carries no member, the total 0 and
    an error message. *)
Theorem failed_listing_is_empty fuel access_token account_id db_session w s r :
  result (get_members fuel access_token account_id db_session w s)
  = Returns (Some r) ->
  members_success r = false ->
  members r = [] /\ total r = 0 /\ members_error r <> None.
Proof.
  unfold get_members.
  destruct (members_loop fuel access_token account_id db_session [] 0 w s)
    as [[x s1] t] eqn:H.
  unfold result. simpl. intros ->. by eapply members_loop_failure.
Qed.

(** The first page of fifty arrives, the second request is refused three
    times. *)
Lemma failed_listing_is_empty_witness :
  members {| members_success := false; members := []; total := 0;
             members_error := Some "请求异常: connection refused";
             members_error_code := PNone |} = [].
Proof.
  destruct (failed_listing_is_empty 5 "at" "acct-1" db
              (world [Returns (page 0 50 120)] [] []) connected
              {| members_success := false; members := []; total := 0;
                 members_error := Some "请求异常: connection refused";
                 members_error_code := PNone |})
    as (H & _); [by vm_compute|reflexivity|exact H].
Defined.

Lemma members_loop_step fuel access_token account_id db_session w n
    all_members offset s :
  (forall k req, upstream w k req = Returns (page 0 0 n)) ->
  session s <> None ->
  Z.of_nat (length all_members) < n ->
  members_loop (S fuel) access_token account_id db_session all_members offset w s
  = let y := members_loop fuel access_token account_id db_session all_members
               (offset + limit) w (after_send s) in
    (result y, final y,
     EvHttp (request_of "GET" (members_url account_id offset)
               {[ "Authorization" := "Bearer " +:+ access_token ]} None s)
     :: trace y).
Proof.
  intros Hu Hs Hn.
  cbn [members_loop]. cbv zeta. unfold bind at 1.
  rewrite (make_request_ok "GET" (members_url account_id offset)
             {[ "Authorization" := "Bearer " +:+ access_token ]} None db_session
             w s s [] (page 0 0 n)
             (PDict [("items", PList []); ("total", PInt n)])
             eq_refl (open_session_kept _ _ _ Hs) (Hu _ _)
             ltac:(simpl; lia) eq_refl).
  cbn [ok_envelope success data negb].
  change (dict_get [("items", PList []); ("total", PInt n)] "items" (PList []))
    with (PList []).
  change (dict_get [("items", PList []); ("total", PInt n)] "total" (PInt 0))
    with (PInt n).
  unfold bind at 1, lift, extend. rewrite app_nil_r.
  unfold bind at 1, len_ge.
  replace (n <=? Z.of_nat (length all_members)) with false by lia.
  by destruct (members_loop fuel access_token account_id db_session all_members
                 (offset + limit) w (after_send s)) as [[r s1] t].
Qed.

Lemma members_loop_stalls fuel access_token account_id db_session w n :
  (forall k req, upstream w k req = Returns (page 0 0 n)) ->
  forall all_members offset s,
    session s <> None ->
    Z.of_nat (length all_members) < n ->
    let x := members_loop fuel access_token account_id db_session all_members
               offset w s in
    result x = Returns None /\ count is_http (trace x) = fuel.
Proof.
  intros Hu. induction fuel as [|fuel IH]; intros all_members offset s Hs Hn.
  { done. }
  cbv zeta. rewrite (members_loop_step _ _ _ _ _ n) by done.
  destruct (IH all_members (offset + limit) (after_send s) Hs Hn) as [E1 E2].
  cbv zeta. unfold result, trace in *. simpl. by rewrite E1, E2.
Qed.

(** X22.  [get_members] has no guard against a page that brings nothing:
    against an upstream that answers every request with an empty page and
    a positive total, the loop is still running after any number of
    passes, one request per pass. *)
Theorem empty_pages_never_end fuel access_token account_id db_session w s n :
  (forall k req, upstream w k req = Returns (page 0 0 n)) ->
  session s <> None ->
  0 < n ->
  let x := get_members fuel access_token account_id db_session w s in
  result x = Returns None /\ count is_http (trace x) = fuel.
Proof.
  intros Hu Hs Hn. by apply (members_loop_stalls _ _ _ _ _ n).
Qed.

(** An upstream that reports one member and lists none. *)
Lemma empty_pages_never_end_witness :
  count is_http
    (trace (get_members 40 "at" "acct-1" db
              (served_by (fun _ => Returns (page 0 0 1)) unreachable) connected))
  = 40%nat.
Proof.
  destruct (empty_pages_never_end 40 "at" "acct-1" db
              (served_by (fun _ => Returns (page 0 0 1)) unreachable)
              connected 1)
    as [_ H]; [reflexivity|done|lia|exact H].
Defined.

(** ** Refreshing a token *)

Lemma create_keeps_session db_session w s r s1 t :
  _create_session db_session w s = (r, s1, t) -> session s1 = session s.
Proof.
  unfold _create_session, _ensure_cf_cookies, _cf_cookies_valid. intros H.
  runs;
  repeat match goal with
  | H : _fetch_cf_cookies _ _ _ = _ |- _ =>
      apply fetch_keeps in H; destruct H as (? & _ & _)
  end; simpl in *; congruence.
Qed.

Lemma open_session_run db_session w s r s1 t :
  open_session db_session w s = (r, s1, t) ->
  quiet t /\ (forall e, r = Raises e -> session s1 = None).
Proof.
  unfold open_session. intros H. runs.
  - split; [simpl; constructor|done].
  - apply create_quiet in Hm as [Q _]. split; [|done].
    by rewrite app_nil_r.
  - pose proof (create_keeps_session _ _ _ _ _ _ Hm) as K.
    apply create_quiet in Hm as [Q _]. split; [done|].
    intros _ _. by rewrite K.
Qed.

(** X23.  Refreshing a token is a single shot: at most one request, which
    is the token request with its own [User-Agent] and not the one of the
    clearance cache, no sleep and no recovery; and the call raises only
    out of the creation of the session, before anything was sent. *)
Theorem refresh_is_single_shot refresh_token client_id db_session w s :
  let x := refresh_access_token_with_refresh_token refresh_token client_id
             db_session w s in
  (count is_http (trace x) <= 1)%nat /\
  requests_are (fun r => r = token_request refresh_token client_id) (trace x) /\
  sleeps (trace x) = [] /\
  count is_recovery (trace x) = 0%nat /\
  (forall e, result x = Raises e ->
     session (final x) = None /\ count is_http (trace x) = 0%nat).
Proof.
  destruct (refresh_access_token_with_refresh_token refresh_token client_id
              db_session w s) as [[r s1] t] eqn:H.
  unfold result, final, trace. simpl.
  unfold refresh_access_token_with_refresh_token in H.
  apply bind_inv in H as [(u & s2 & t1 & t2 & H1 & H & ->)|(e & H1 & ->)].
  - apply open_session_run in H1 as [Q _].
    rewrite count_app, sleeps_app, count_app, (quiet_no_http _ Q),
      (quiet_no_sleep _ Q), (quiet_no_recovery _ Q).
    assert (K : (count is_http t2 <= 1)%nat /\
                requests_are (fun r => r = token_request refresh_token client_id) t2 /\
                sleeps t2 = [] /\ count is_recovery t2 = 0%nat /\
                exists v, r = Returns v).
    { runs;
      repeat match goal with
      | H : send _ _ _ = _ |- _ => unfold send in H; injection H as _ _ <-
      end; rewrite ?app_nil_r; simpl;
      (split; [lia|]); (split; [by repeat constructor|]); eauto. }
    destruct K as (K1 & K2 & K3 & K4 & v & ->).
    split; [simpl; lia|]. split.
    { apply requests_are_app; [|done]. apply no_http_requests.
      by apply quiet_no_http. }
    split; [done|]. split; [simpl; lia|]. done.
  - apply open_session_run in H1 as [Q N].
    rewrite (quiet_no_http _ Q), (quiet_no_sleep _ Q), (quiet_no_recovery _ Q).
    split; [lia|]. split; [apply no_http_requests; by apply quiet_no_http|].
    split; [done|]. split; [done|]. intros e' _. split; [by eapply N|done].
Qed.

Lemma refresh_run refresh_token client_id db_session w s s0 t0 response :
  open_session db_session w s = (Returns tt, s0, t0) ->
  upstream w (n_upstream s0) (token_request refresh_token client_id)
  = Returns response ->
  refresh_access_token_with_refresh_token refresh_token client_id db_session w s
  = (Returns
       (if resp_status response =? 200 then
          match resp_json response with
          | Returns (PDict d) =>
              {| refreshed_success := true;
                 access_token_of := dict_get d "access_token" PNone;
                 refresh_token_of := dict_get d "refresh_token" PNone;
                 refreshed_status_code := None;
                 refreshed_error := PNone; refreshed_error_code := PNone |}
          | Returns v =>
              {| refreshed_success := false; access_token_of := PNone;
                 refresh_token_of := PNone; refreshed_status_code := None;
                 refreshed_error := PStr (str_exn (AttributeError (type_name v) "get"));
                 refreshed_error_code := PNone |}
          | Raises e =>
              {| refreshed_success := false; access_token_of := PNone;
                 refresh_token_of := PNone; refreshed_status_code := None;
                 refreshed_error := PStr (str_exn e);
                 refreshed_error_code := PNone |}
          end
        else
          match resp_text response with
          | Returns text =>
              {| refreshed_success := false; access_token_of := PNone;
                 refresh_token_of := PNone;
                 refreshed_status_code := Some (resp_status response);
                 refreshed_error := (oauth_error response text).1;
                 refreshed_error_code := (oauth_error response text).2 |}
          | Raises e =>
              {| refreshed_success := false; access_token_of := PNone;
                 refresh_token_of := PNone; refreshed_status_code := None;
                 refreshed_error := PStr (str_exn e);
                 refreshed_error_code := PNone |}
          end),
     after_send s0, t0 ++ [EvHttp (token_request refresh_token client_id)]).
Proof.
  intros Ho Hu. destruct (open_session_quiet _ _ _ _ _ Ho) as (_ & _ & Hs).
  unfold refresh_access_token_with_refresh_token, bind at 1. rewrite Ho.
  unfold try_except, bind at 1, get.
  destruct (session s0) as [a|] eqn:E; [|done].
  unfold bind at 1, send. rewrite Hu. fold (after_send s0).
  destruct (resp_status response =? 200).
  - unfold bind at 1, lift. destruct (resp_json response) as [v|e]; [|done].
    unfold bind, get_of. by destruct v.
  - unfold bind, lift. by destruct (resp_text response).
Qed.

(** X24.  A token answer with the status 200 that is a JSON object counts
    as a success whatever it holds: the tokens are the fields of the
    object, [None] where a field is missing, after one request. *)
Theorem refresh_trusts_200 refresh_token client_id db_session w s s0 t0
    response d :
  open_session db_session w s = (Returns tt, s0, t0) ->
  upstream w (n_upstream s0) (token_request refresh_token client_id)
  = Returns response ->
  resp_status response = 200 ->
  resp_json response = Returns (PDict d) ->
  let x := refresh_access_token_with_refresh_token refresh_token client_id
             db_session w s in
  (exists r, result x = Returns r /\ refreshed_success r = true /\
     (assoc "access_token" d = None -> access_token_of r = PNone) /\
     (forall v, assoc "access_token" d = Some v -> access_token_of r = v)) /\
  trace x = t0 ++ [EvHttp (token_request refresh_token client_id)].
Proof.
  intros Ho Hu H2 Hj x. subst x.
  rewrite (refresh_run _ _ _ _ _ _ _ _ Ho Hu), H2, Hj. simpl.
  split; [|done]. eexists. split; [reflexivity|]. simpl. split; [done|].
  unfold dict_get. split; [by intros ->|by intros v ->].
Qed.

(** The status 200 with an empty object. *)
Lemma refresh_trusts_200_witness :
  exists r,
    result (refresh_access_token_with_refresh_token "rt" "app" db
              (world [Returns ok_page] [] []) connected) = Returns r /\
    refreshed_success r = true /\ access_token_of r = PNone.
Proof.
  destruct (refresh_trusts_200 "rt" "app" db (world [Returns ok_page] [] [])
              connected connected [] ok_page [])
    as [(r & Hr & Hs & Hn & _) _]; [reflexivity|reflexivity|reflexivity|reflexivity|].
  exists r. split; [exact Hr|]. split; [exact Hs|]. by apply Hn.
Defined.

(** X25.  An answer to a token request that is not a 200 and not a JSON
    object is handed on as it is: the error is the whole body, a page of
    HTML included, with the status and no error code; the body is neither
    shortened nor recognised as a challenge, and nothing is retried. *)
Theorem refresh_error_is_verbatim refresh_token client_id db_session w s s0 t0
    response body :
  open_session db_session w s = (Returns tt, s0, t0) ->
  upstream w (n_upstream s0) (token_request refresh_token client_id)
  = Returns response ->
  resp_status response <> 200 ->
  resp_text response = Returns body ->
  (forall d, resp_json response <> Returns (PDict d)) ->
  refresh_access_token_with_refresh_token refresh_token client_id db_session w s
  = (Returns {| refreshed_success := false; access_token_of := PNone;
                refresh_token_of := PNone;
                refreshed_status_code := Some (resp_status response);
                refreshed_error := PStr body;
                refreshed_error_code := PNone |},
     after_send s0, t0 ++ [EvHttp (token_request refresh_token client_id)]).
Proof.
  intros Ho Hu H2 Ht Hj.
  rewrite (refresh_run _ _ _ _ _ _ _ _ Ho Hu), Ht.
  apply Z.eqb_neq in H2. rewrite H2. unfold oauth_error.
  destruct (resp_json response) as [[| | | | |d]|]; try done.
  by destruct (Hj d).
Qed.

(** The challenge page with the status 403. *)
Lemma refresh_error_is_verbatim_witness :
  result (refresh_access_token_with_refresh_token "rt" "app" db
            (world [challenged 403] [] []) connected)
  = Returns {| refreshed_success := false; access_token_of := PNone;
               refresh_token_of := PNone; refreshed_status_code := Some 403;
               refreshed_error := PStr challenge_page;
               refreshed_error_code := PNone |}.
Proof.
  unfold result.
  rewrite (refresh_error_is_verbatim "rt" "app" db
             (world [challenged 403] [] []) connected connected []
             (text_response 403 challenge_page) challenge_page);
    [reflexivity|reflexivity|reflexivity|done|reflexivity|by intros d].
Defined.

(** ** What the caller is shown of an error text *)

(** ** Texts and their characters *)

Lemma append_cons c (s r : string) : String c s +:+ r = String c (s +:+ r).
Proof. reflexivity. Qed.

Lemma append_assoc (a b c : string) : (a +:+ b) +:+ c = a +:+ (b +:+ c).
Proof. induction a as [|x a IH]; [done|]. by rewrite !append_cons, IH. Qed.

Lemma append_nil_r (a : string) : a +:+ "" = a.
Proof. induction a as [|x a IH]; [done|]. by rewrite append_cons, IH. Qed.

Lemma length_append (a b : string) :
  String.length (a +:+ b) = (String.length a + String.length b)%nat.
Proof. induction a as [|x a IH]; [done|]. rewrite append_cons. simpl. by rewrite IH. Qed.

Lemma join_app a b : join (a ++ b) = join a +:+ join b.
Proof.
  induction a as [|x a IH]; [done|]. simpl. by rewrite IH, append_assoc.
Qed.

Lemma chars_nil s : chars s = [] -> s = "".
Proof.
  destruct s as [|c s]; [done|]. simpl.
  destruct (chars s); [done|]. by destruct (starts_with_continuation s).
Qed.

Lemma join_chars s : join (chars s) = s.
Proof.
  induction s as [|c s IH]; [done|]. simpl.
  destruct (chars s) as [|ch rest] eqn:E.
  - apply chars_nil in E. by subst.
  - change (join (ch :: rest)) with (ch +:+ join rest) in IH.
    destruct (starts_with_continuation s).
    + change (join (String c ch :: rest)) with (String c (ch +:+ join rest)).
      by rewrite IH.
    + change (join (String c "" :: ch :: rest)) with (String c (ch +:+ join rest)).
      by rewrite IH.
Qed.

Lemma chars_cons_continuations (t r : string) :
  continuations t = true -> starts_with_continuation r = false ->
  forall c, chars (String c (t +:+ r)) = String c t :: chars r.
Proof.
  intros Ht Hr. induction t as [|c' t IH]; intros c.
  - change ("" +:+ r) with r. simpl.
    destruct (chars r) as [|ch rest] eqn:E; [done|]. by rewrite Hr.
  - simpl in Ht. apply andb_prop in Ht as [Hc Ht].
    change (String c' t +:+ r) with (String c' (t +:+ r)).
    change (chars (String c (String c' (t +:+ r))))
      with (match chars (String c' (t +:+ r)) with
            | ch :: rest =>
                if starts_with_continuation (String c' (t +:+ r))
                then String c ch :: rest
                else String c EmptyString :: ch :: rest
            | [] => [String c EmptyString]
            end).
    rewrite (IH Ht c'). simpl. by rewrite Hc.
Qed.

Lemma join_leading l :
  Forall leading l -> starts_with_continuation (join l) = false.
Proof.
  destruct 1 as [|ch l' [Hc Hl] _]; [done|].
  change (join (ch :: l')) with (ch +:+ join l').
  by destruct ch.
Qed.

Lemma chars_join l : characters l -> chars (join l) = l.
Proof.
  assert (A : forall l, Forall leading l -> chars (join l) = l).
  { clear l. induction 1 as [|ch l [Hc Hl] F IH]; [done|].
    destruct ch as [|c t]; [done|]. simpl in Hc.
    change (join (String c t :: l)) with (String c (t +:+ join l)).
    rewrite (chars_cons_continuations t (join l) Hc (join_leading l F)).
    by rewrite IH. }
  destruct l as [|ch l]; [done|]. intros [Hc F].
  destruct ch as [|c t]; [done|]. simpl in Hc.
  change (join (String c t :: l)) with (String c (t +:+ join l)).
  rewrite (chars_cons_continuations t (join l) Hc (join_leading l F)).
  by rewrite (A l F).
Qed.

Lemma chars_characters s : characters (chars s).
Proof.
  induction s as [|c s IH]; [done|]. simpl.
  destruct (chars s) as [|ch rest] eqn:E; [done|].
  destruct (starts_with_continuation s) eqn:Hs.
  - destruct IH as [Hc F]. split; [|done].
    destruct s as [|c' s']; [done|]. simpl in E.
    assert (exists t, ch = String c' t) as [t ->].
    { destruct (chars s') as [|x y]; [injection E as <- _; eauto|].
      destruct (starts_with_continuation s'); injection E as <- _; eauto. }
    simpl in *. by rewrite Hs.
  - destruct IH as [Hc F]. split; [done|]. constructor; [|done].
    split; [done|].
    destruct s as [|c' s']; [done|]. simpl in E.
    assert (exists t, ch = String c' t) as [t ->].
    { destruct (chars s') as [|x y]; [injection E as <- _; eauto|].
      destruct (starts_with_continuation s'); injection E as <- _; eauto. }
    done.
Qed.

Lemma characters_cons ch l :
  characters (ch :: l) -> characters l.
Proof.
  intros [_ F]. destruct F as [|x l [Hx _] F]; [done|]. by split.
Qed.

Lemma characters_tail_leading ch l : characters (ch :: l) -> Forall leading l.
Proof. by intros [_ F]. Qed.

Lemma characters_take n l : characters l -> characters (take n l).
Proof.
  destruct l as [|ch l]; [by destruct n|]. intros [Hc F].
  destruct n as [|n]; [done|]. simpl. split; [done|].
  by apply Forall_take.
Qed.

Lemma lstrip_chars_characters l : characters l -> characters (lstrip_chars l).
Proof.
  induction l as [|ch l IH]; [done|]. intros H. simpl.
  destruct (is_space ch); [|done]. apply IH. by eapply characters_cons.
Qed.

Lemma lstrip_chars_head l :
  match lstrip_chars l with
  | ch :: _ => is_space ch = false
  | [] => True
  end.
Proof.
  induction l as [|ch l IH]; [done|]. simpl.
  by destruct (is_space ch) eqn:E.
Qed.

Lemma lstrip_chars_id l :
  match l with ch :: _ => is_space ch = false | [] => True end ->
  lstrip_chars l = l.
Proof. destruct l as [|ch l]; [done|]. simpl. by intros ->. Qed.

Lemma rstrip_chars_take l : exists k, rstrip_chars l = take k l.
Proof.
  induction l as [|ch l [k IH]]; [by exists 0%nat|]. simpl.
  destruct (rstrip_chars l) as [|x r] eqn:E.
  - destruct (is_space ch); [by exists 0%nat|].
    exists 1%nat. simpl. destruct k; [by rewrite take_0|].
    destruct l; [done|]. simpl in IH. done.
  - exists (S k). simpl. by rewrite <- IH.
Qed.

Lemma rstrip_chars_head ch l :
  is_space ch = false -> exists r, rstrip_chars (ch :: l) = ch :: r.
Proof.
  intros H. simpl. destruct (rstrip_chars l); rewrite ?H; eauto.
Qed.

Lemma prefix_append (m a b : string) :
  String.prefix m a = true -> String.prefix m (a +:+ b) = true.
Proof.
  revert a. induction m as [|c m IH]; intros a; [by destruct a, b|].
  destruct a as [|c' a]; [done|]. rewrite append_cons. simpl.
  destruct (ascii_dec c c'); [apply IH|done].
Qed.

Lemma prefix_append_short (m a b : string) :
  (String.length m <= String.length a)%nat ->
  String.prefix m (a +:+ b) = String.prefix m a.
Proof.
  revert a. induction m as [|c m IH]; intros a Hl; [by destruct a, b|].
  destruct a as [|c' a]; [simpl in Hl; lia|]. rewrite append_cons. simpl.
  destruct (ascii_dec c c'); [|done]. apply IH. simpl in Hl. lia.
Qed.

Lemma contains_append (n x y : string) :
  contains n x = true -> contains n (x +:+ y) = true.
Proof.
  induction x as [|c x IH].
  - simpl. rewrite orb_false_r. destruct n; [|done]. by destruct y.
  - rewrite append_cons. simpl. intros [H|H]%orb_prop.
    + apply orb_true_iff. left.
      by apply (prefix_append n (String c x) y).
    + apply orb_true_iff. right. by apply IH.
Qed.

Lemma chars_app (a b : string) :
  starts_with_continuation b = false ->
  chars (a +:+ b) = chars a ++ chars b.
Proof.
  intros Hb. rewrite <- (join_chars a) at 1. rewrite <- (join_chars b) at 1.
  rewrite <- join_app. apply chars_join.
  pose proof (chars_characters a) as Ha. pose proof (chars_characters b) as Hc.
  assert (F : Forall leading (chars b)).
  { destruct (chars b) as [|ch l] eqn:E; [done|]. destruct Hc as [Hc F].
    constructor; [|done]. split; [done|].
    rewrite <- (join_chars b), E in Hb.
    change (join (ch :: l)) with (ch +:+ join l) in Hb. by destruct ch. }
  destruct (chars a) as [|ch l]; simpl.
  - destruct F as [|x l' [Hx _] F]; [done|]. by split.
  - destruct Ha as [Hx Fa]. split; [done|]. by apply Forall_app.
Qed.

(** *** Lower case *)

Lemma is_continuation_lower c :
  is_continuation (lower_ascii c) = is_continuation c.
Proof.
  by destruct c as [[] [] [] [] [] [] [] []].
Qed.

Lemma lower_char_led ch :
  leading ch ->
  lower_char ch <> "" /\ starts_with_continuation (lower_char ch) = false.
Proof.
  intros [Hc Hl]. unfold lower_char.
  destruct (String.eqb ch _); [by vm_compute|].
  destruct (String.eqb ch _); [by vm_compute|].
  destruct ch as [|c [|c' t]]; [done| |done].
  split; [done|]. simpl in *. by rewrite is_continuation_lower.
Qed.

Lemma lower_char_nonempty ch : character ch -> lower_char ch <> "".
Proof.
  intros Hc. unfold lower_char.
  destruct (String.eqb ch _); [by vm_compute|].
  destruct (String.eqb ch _); [by vm_compute|].
  by destruct ch as [|c [|c' t]].
Qed.

(** The lowered text of a list of characters. *)
Lemma lower_join l : characters l -> lower (join l) = join (map lower_char l).
Proof. intros H. unfold lower. by rewrite chars_join. Qed.

Lemma join_lower_led l :
  Forall leading l -> starts_with_continuation (join (map lower_char l)) = false.
Proof.
  destruct 1 as [|ch l' H _]; [done|].
  change (join (map lower_char (ch :: l')))
    with (lower_char ch +:+ join (map lower_char l')).
  destruct (lower_char_led ch H) as [Hn Hs].
  by destruct (lower_char ch).
Qed.

(** The characters of a lowered text are those of its lowered
    characters, in order. *)
Lemma chars_lower_app a b :
  Forall leading b ->
  chars (join (map lower_char (a ++ b)))
  = chars (join (map lower_char a)) ++ chars (join (map lower_char b)).
Proof.
  intros F. rewrite map_app, join_app. apply chars_app.
  by apply join_lower_led.
Qed.

Lemma chars_nonempty s : s <> "" -> (1 <= length (chars s))%nat.
Proof.
  destruct s as [|c t]; [done|]. intros _. simpl.
  destruct (chars t); [simpl; lia|].
  destruct (starts_with_continuation t); simpl; lia.
Qed.

Lemma len_lower_ge l :
  characters l -> (length l <= length (chars (join (map lower_char l))))%nat.
Proof.
  assert (A : forall l, Forall leading l ->
            (length l <= length (chars (join (map lower_char l))))%nat).
  { clear l. induction 1 as [|ch l H F IH]; [done|].
    change (ch :: l) with ([ch] ++ l). rewrite (chars_lower_app [ch] l F).
    rewrite !length_app. simpl length at 1.
    assert (1 <= length (chars (join (map lower_char [ch]))))%nat; [|lia].
    apply chars_nonempty. simpl. rewrite append_nil_r.
    by apply lower_char_led. }
  destruct l as [|ch l]; [done|]. intros [Hc F].
  change (ch :: l) with ([ch] ++ l). rewrite (chars_lower_app [ch] l F).
  rewrite !length_app. simpl length at 1. specialize (A l F).
  assert (1 <= length (chars (join (map lower_char [ch]))))%nat; [|lia].
  apply chars_nonempty. simpl. rewrite append_nil_r.
  by apply lower_char_nonempty.
Qed.

Lemma length_chars_le s : (length (chars s) <= String.length s)%nat.
Proof.
  induction s as [|c s IH]; [done|]. simpl.
  destruct (chars s); [simpl; lia|].
  destruct (starts_with_continuation s); simpl in *; lia.
Qed.

(** *** The test for HTML on a part of a text *)

Lemma take_str_app_long (a b : string) :
  starts_with_continuation b = false ->
  (200 <= length (chars a))%nat ->
  take_str 200 (a +:+ b) = take_str 200 a.
Proof.
  intros Hb Hl. unfold take_str. rewrite (chars_app a b Hb).
  by rewrite take_app_le.
Qed.

Lemma html_start_long (a b b' : string) :
  starts_with_continuation b = false ->
  starts_with_continuation b' = false ->
  (200 <= length (chars a))%nat ->
  html_start (a +:+ b') = html_start (a +:+ b).
Proof.
  intros Hb Hb' Hl. unfold html_start, startswith.
  pose proof (length_chars_le a).
  rewrite !prefix_append_short by (simpl; lia).
  by rewrite !take_str_app_long.
Qed.

Lemma html_start_prefix l k :
  characters l ->
  html_start (join (map lower_char (take k l))) = true ->
  html_start (join (map lower_char l)) = true.
Proof.
  intros Hl. rewrite <- (take_drop k l) at 2. rewrite map_app, join_app.
  unfold html_start, startswith.
  intros [[H|H]%orb_prop|H]%orb_prop; apply orb_true_iff.
  - left. apply orb_true_iff. left. by apply prefix_append.
  - left. apply orb_true_iff. right. by apply prefix_append.
  - right. destruct k as [|k]; [by rewrite take_0 in H|].
    destruct l as [|ch l]; [done|]. destruct Hl as [Hc F].
    unfold take_str in *. rewrite chars_app.
    + rewrite take_app, join_app. by apply contains_append.
    + apply join_lower_led. simpl. by apply Forall_drop.
Qed.

Lemma lower_lstrip text :
  lower (lstrip text) = join (map lower_char (lstrip_chars (chars text))).
Proof.
  unfold lstrip. apply lower_join, lstrip_chars_characters, chars_characters.
Qed.

(** A text that starts with a character that is no space is its own
    [lstrip]. *)
Lemma lower_lstrip_join l :
  characters l ->
  match l with ch :: _ => is_space ch = false | [] => True end ->
  lower (lstrip (join l)) = join (map lower_char l).
Proof.
  intros Hl Hh. rewrite lower_lstrip, (chars_join l Hl).
  by rewrite (lstrip_chars_id l Hh).
Qed.

Lemma looks_like_html_run text :
  _looks_like_html (PStr text)
  = Returns (negb (String.eqb text "") && html_start (lower (lstrip text))).
Proof.
  unfold _looks_like_html, html_start. simpl.
  by destruct (String.eqb text "").
Qed.

(** What is left of a text that does not look like HTML after [strip] and
    after the cut does not look like HTML either. *)
Lemma stripped_is_no_page text :
  html_start (lower (lstrip text)) = false ->
  let trimmed := strip text in
  let shown := if (2000 <? len trimmed)%nat
               then take_str 2000 trimmed +:+ cut_marker else trimmed in
  html_start (lower (lstrip shown)) = false /\
  (len shown <= 2000 + len cut_marker)%nat.
Proof.
  intros Hn trimmed shown. rewrite lower_lstrip in Hn.
  pose proof (lstrip_chars_characters _ (chars_characters text)) as HL.
  pose proof (lstrip_chars_head (chars text)) as Hh.
  set (L := lstrip_chars (chars text)) in *.
  destruct (rstrip_chars_take L) as [k Hk].
  assert (HR : characters (rstrip_chars L)) by (rewrite Hk; by apply characters_take).
  assert (Hr : match rstrip_chars L with
               | ch :: _ => is_space ch = false | [] => True end).
  { destruct L as [|ch l]; [done|].
    destruct (rstrip_chars_head ch l Hh) as [r ->]. done. }
  assert (Et : trimmed = join (rstrip_chars L)) by done.
  assert (El : len trimmed = length (rstrip_chars L)).
  { unfold len. by rewrite Et, chars_join. }
  subst shown. destruct (2000 <? len trimmed)%nat eqn:Hc.
  - apply Nat.ltb_lt in Hc. rewrite El in Hc.
    assert (Ec : take_str 2000 trimmed = join (take 2000 L)).
    { unfold take_str. rewrite Et, chars_join by done. rewrite Hk.
      rewrite Hk, length_take in Hc. rewrite take_take. f_equal. f_equal. lia. }
    assert (H2 : length (take 2000 L) = 2000%nat).
    { rewrite Hk, length_take in Hc. rewrite length_take. lia. }
    assert (HT : characters (take 2000 L)) by (by apply characters_take).
    assert (Hm : starts_with_continuation cut_marker = false) by done.
    assert (Ech : chars (join (take 2000 L) +:+ cut_marker)
                  = take 2000 L ++ chars cut_marker).
    { by rewrite chars_app, chars_join. }
    rewrite Ec. split.
    + rewrite lower_lstrip, Ech.
      rewrite lstrip_chars_id; cycle 1.
      { destruct L as [|ch l]; [done|]. done. }
      rewrite map_app, join_app.
      assert (FD : Forall leading (drop 2000 L)).
      { destruct L as [|ch l]; [done|]. destruct HL as [_ F]. simpl.
        by apply Forall_drop. }
      rewrite (html_start_long _ (join (map lower_char (drop 2000 L)))).
      * rewrite <- join_app, <- map_app, take_drop. exact Hn.
      * by apply join_lower_led.
      * by vm_compute.
      * pose proof (len_lower_ge (take 2000 L) HT). lia.
    + unfold len. rewrite Ech, length_app, H2. done.
  - apply Nat.ltb_ge in Hc. rewrite Et. split.
    + rewrite (lower_lstrip_join _ HR Hr), Hk.
      destruct (html_start (join (map lower_char (take k L)))) eqn:E; [|done].
      apply (html_start_prefix L k HL) in E. congruence.
    + rewrite <- Et. lia.
Qed.

(** X26.  Whatever text it is given, [_simplify_error_text] returns a
    message that does not look like HTML and has at most 2000 characters
    plus those of the cut marker: a page is replaced by one of the two fixed
    messages, and what is left of another text after [strip] and the cut at
    2000 characters cannot start to look like a page. *)
Theorem simplified_text_is_never_a_page (text : string) :
  exists x,
    _simplify_error_text (PStr text) = Returns x /\
    _looks_like_html (PStr (message x)) = Returns false /\
    (len (message x) <= 2000 + len cut_marker)%nat.
Proof.
  unfold _simplify_error_text.
  destruct (negb (truthy (PStr text))) eqn:Ht.
  { eexists. split; [reflexivity|]. split; [by vm_compute|]. vm_compute. lia. }
  rewrite heuristic_str. destruct (matches_challenge text).
  { eexists. split; [reflexivity|]. split; [by vm_compute|]. vm_compute. lia. }
  rewrite looks_like_html_run.
  destruct (negb (String.eqb text "") && html_start (lower (lstrip text))) eqn:Hh.
  { eexists. split; [reflexivity|]. split; [by vm_compute|]. vm_compute. lia. }
  simpl in Ht. rewrite negb_false_iff in Ht. rewrite Ht in Hh. simpl in Hh.
  destruct (stripped_is_no_page text Hh) as [H1 H2].
  eexists. split; [reflexivity|]. cbn [message].
  split; [|exact H2]. rewrite looks_like_html_run.
  fold cut_marker. rewrite H1. by rewrite andb_false_r.
Qed.

(** ** Pricing *)

(** X27.  The price is the linear share of the base price rounded to the
    nearest cent, a half going up: twice its distance from the exact share
    stays within one base day's worth. *)
Theorem price_is_rounded_share (remaining_days base_days base_price_cents : Z) :
  0 < remaining_days -> 0 < base_days ->
  exists price,
    Pricing.calculate_price_cents (Some remaining_days) base_days base_price_cents
    = Returns (Some price) /\
    - base_days < 2 * (price * base_days - remaining_days * base_price_cents)
      <= base_days.
Proof.
  intros Hd Hb. unfold Pricing.calculate_price_cents.
  replace (remaining_days <=? 0) with false by lia.
  replace (2 * base_days =? 0) with false by lia.
  eexists. split; [reflexivity|]. cbv zeta.
  pose proof (Z.div_mod (2 * (remaining_days * base_price_cents) + base_days)
                (2 * base_days) ltac:(lia)) as E.
  pose proof (Z.mod_pos_bound (2 * (remaining_days * base_price_cents) + base_days)
                (2 * base_days) ltac:(lia)) as B.
  nia.
Qed.

(** Seven days of a month that costs 10.00: 2.33. *)
Lemma price_is_rounded_share_witness :
  exists price,
    Pricing.calculate_price_cents (Some 7) 30 1000 = Returns (Some price) /\
    - 30 < 2 * (price * 30 - 7 * 1000) <= 30.
Proof. apply (price_is_rounded_share 7 30 1000); lia. Defined.

(** X28.  Under the default rule (30 days for 15.00) a team costs 50 cents
    for every day that is left until the day it expires, and nothing on
    that day and after it; a team without an expiry has no price. *)
Theorem default_price_is_fifty_cents_a_day (expires_at : option Z) (now : Z) :
  Pricing.calculate_price_cents (Pricing.calculate_remaining_days expires_at now)
    Pricing.DEFAULT_BASE_DAYS Pricing.DEFAULT_BASE_PRICE_CENTS
  = Returns (match expires_at with
             | Some day => Some (50 * Z.max (day - now) 0)
             | None => None
             end).
Proof.
  destruct expires_at as [day|]; [|done].
  unfold Pricing.calculate_remaining_days, Pricing.calculate_price_cents.
  cbv zeta. destruct (Z.leb_spec (Z.max (day - now) 0) 0) as [H|H].
  - do 2 f_equal. lia.
  - unfold Pricing.DEFAULT_BASE_DAYS, Pricing.DEFAULT_BASE_PRICE_CENTS.
    change (2 * 30 =? 0) with false. cbv iota. do 2 f_equal.
    replace (2 * (Z.max (day - now) 0 * 1500) + 30)
      with (30 + (50 * Z.max (day - now) 0) * (2 * 30)) by lia.
    rewrite Z.div_add by lia. change (30 / (2 * 30)) with 0. lia.
Qed.
